(** * Discrete Fréchet distance over a sliding window (frechet_space.ino)

    A shallow embedding of the sampling loop, the windowed curve
    extraction, the memoised dynamic-programming recurrence [frechetDP]
    and the pairwise orchestrator of [src/frechet_space.ino], together
    with the properties the specification states about them.

    Conventions of the embedding:
    - a C [int] is a [Z]; signed overflow is undefined in C, and the only
      expression of the Fréchet path that can overflow is
      [actualWindow - 1] on a requested window of [INT_MIN], which the
      statements exclude; the C remainder [%] is [Z.rem] (truncation
      towards zero);
    - a C [float] is an IEEE-754 binary32 value, represented by
      [spec_float] with the operations of the Standard Library's
      [SpecFloat] instantiated at precision 24 and maximal exponent 128;
    - a C array is a list; an access outside the array is the explicit
      outcome [OutOfBounds];
    - the recursion of [frechetDP] is driven by a fuel argument, and
      running out of it is the explicit outcome [OutOfFuel];
    - global variables are the fields of the record [state], passed
      explicitly. *)

From Stdlib Require Import ZArith Lia Bool Ascii String.
From Stdlib Require Import Floats.SpecFloat.
From stdpp Require Import base tactics option list strings.

Local Open Scope Z_scope.

(** ** Binary32 floating point *)

Module F32.

Definition prec : Z := 24.
Definition emax : Z := 128.

Definition float : Type := spec_float.

(** Conversion of an integer literal, rounding to nearest even. *)
Definition of_Z (z : Z) : float := binary_normalize prec emax z 0 false.

(** The literals of the sketch. *)
Definition zero : float := S754_zero false.                   (* 0.0 *)
Definition neg_one : float := S754_finite true 8388608 (-23). (* -1.0 *)
Definition INFINITY : float := S754_infinity false.

Definition sub (a b : float) : float := SFsub prec emax a b.

(** C comparisons; each is false as soon as an operand is a NaN. *)
Definition lt (a b : float) : bool := SFltb a b.   (* a <  b *)
Definition gt (a b : float) : bool := SFltb b a.   (* a >  b *)
Definition ge (a b : float) : bool := SFleb b a.   (* a >= b *)

(** Neither a NaN nor an infinity. *)
Definition is_finite (x : float) : bool :=
  match x with
  | S754_zero _ | S754_finite _ _ _ => true
  | S754_infinity _ | S754_nan => false
  end.

(** The values a distance can take: +0, a positive finite number or
    +infinity. *)
Definition nonneg (x : float) : bool :=
  match x with
  | S754_zero false | S754_finite false _ _ | S754_infinity false => true
  | _ => false
  end.

(** Modelled from the spec: the [abs] the sketch applies to a [float]
    comes from the Arduino core, which is not part of the sources; the
    specification describes the pointwise distance as the absolute
    difference |x - y|, so [abs] clears the sign. *)
Definition abs (x : float) : float := SFabs x.

End F32.

Abbreviation float := F32.float.

(** ** Binary64 floating point

    The literals [1023.0] and [5.0] are [double]s, so the voltage is
    computed in binary64 and rounded to binary32 when it is stored. *)

Module F64.

Definition prec : Z := 53.
Definition emax : Z := 1024.

Definition of_Z (z : Z) : spec_float := binary_normalize prec emax z 0 false.
Definition div (a b : spec_float) : spec_float := SFdiv prec emax a b.
Definition mul (a b : spec_float) : spec_float := SFmul prec emax a b.

(** Conversion to [float], rounding to nearest even. *)
Definition to_float (x : spec_float) : float :=
  match x with
  | S754_finite s m e => binary_round F32.prec F32.emax s m e
  | _ => x
  end.

End F64.

(** ** Outcomes of a computation *)

Inductive result (A : Type) : Type :=
| Ok (a : A)
| OutOfBounds
| OutOfFuel.

Arguments Ok {A} a.
Arguments OutOfBounds {A}.
Arguments OutOfFuel {A}.

#[global] Instance result_ret : MRet result := fun A a => Ok a.

#[global] Instance result_bind : MBind result := fun A B f m =>
  match m with
  | Ok a => f a
  | OutOfBounds => OutOfBounds
  | OutOfFuel => OutOfFuel
  end.

(** The value a call returns, without the table it leaves. *)
Definition value {A} (r : result (A * list (list float))) : result A :=
  match r with
  | Ok (a, _) => Ok a
  | OutOfBounds => OutOfBounds
  | OutOfFuel => OutOfFuel
  end.

(** ** Arrays indexed by a C [int] *)

Definition arr_get {A} (a : list A) (i : Z) : result A :=
  if 0 <=? i then
    match a !! Z.to_nat i with
    | Some x => Ok x
    | None => OutOfBounds
    end
  else OutOfBounds.

Definition arr_set {A} (a : list A) (i : Z) (x : A) : result (list A) :=
  if (0 <=? i) && (i <? Z.of_nat (length a))
  then Ok (<[Z.to_nat i := x]> a)
  else OutOfBounds.

Abbreviation table := (list (list float)).

(** [a[i][j]] and [a[i][j] = v]. *)
Definition get2 (a : list (list float)) (i j : Z) : result float :=
  row ← arr_get a i; arr_get row j.

Definition set2 (a : list (list float)) (i j : Z) (v : float)
    : result (list (list float)) :=
  row ← arr_get a i; row' ← arr_set row j v; arr_set a i row'.

(** [for (int i = start; i < start + n; i++) body] over a state [St]. *)
Fixpoint for_loop {St : Type} (n : nat) (i : Z)
    (body : Z -> St -> result St) (s : St) : result St :=
  match n with
  | O => Ok s
  | S n' => s' ← body i s; for_loop n' (i + 1) body s'
  end.

(** ** Constants and global state of the sketch *)

Definition NUM_CHANNELS : Z := 4.
Definition HISTORY_SIZE : Z := 50.
Definition FRECHET_WINDOW : Z := 20.

(** The range of an [int] of the target (32 bits). *)
Definition INT_MIN : Z := - 2 ^ 31.
Definition INT_MAX : Z := 2 ^ 31 - 1.

(** The globals that the Fréchet path reads or writes.  [engineCalls] is
    not a variable of the sketch: it records, in order, the arguments of
    every invocation of [discreteFrechetDistance], so that "the engine is
    not invoked" can be stated. *)
Record state : Type := mkState {
  channelData : list (list float);       (* [NUM_CHANNELS][HISTORY_SIZE] *)
  frechetDistances : list float;         (* [NUM_CHANNELS] *)
  dataIndex : Z;
  dpTable : table;                       (* [FRECHET_WINDOW][FRECHET_WINDOW] *)
  engineCalls : list (Z * Z * Z)
}.

Definition set_channelData (v : list (list float)) (st : state) : state :=
  mkState v (frechetDistances st) (dataIndex st) (dpTable st) (engineCalls st).
Definition set_frechetDistances (v : list float) (st : state) : state :=
  mkState (channelData st) v (dataIndex st) (dpTable st) (engineCalls st).
Definition set_dataIndex (v : Z) (st : state) : state :=
  mkState (channelData st) (frechetDistances st) v (dpTable st) (engineCalls st).
Definition set_dpTable (v : table) (st : state) : state :=
  mkState (channelData st) (frechetDistances st) (dataIndex st) v (engineCalls st).
Definition log_call (c : Z * Z * Z) (st : state) : state :=
  mkState (channelData st) (frechetDistances st) (dataIndex st) (dpTable st)
          (engineCalls st ++ [c]).

(** [setup]: every sample and every result is 0.0.  A C global array
    starts zero-initialised, hence the all-zero [dpTable]. *)
Definition setup : state :=
  mkState (replicate (Z.to_nat NUM_CHANNELS)
             (replicate (Z.to_nat HISTORY_SIZE) F32.zero))
          (replicate (Z.to_nat NUM_CHANNELS) F32.zero)
          0
          (replicate (Z.to_nat FRECHET_WINDOW)
             (replicate (Z.to_nat FRECHET_WINDOW) F32.zero))
          [].

(** ** The float helpers of the sketch *)

(** [float max(float a, float b) { return (a > b) ? a : b; }] *)
Definition max (a b : float) : float := if F32.gt a b then a else b.

(** [float min(float a, float b) { return (a < b) ? a : b; }] *)
Definition min (a b : float) : float := if F32.lt a b then a else b.

(** [euclideanDistance]: [abs(a - b)]. *)
Definition euclideanDistance (a b : float) : float := F32.abs (F32.sub a b).

(** ** Sampling *)

(** [float voltage = (rawValue / 1023.0) * 5.0;] *)
Definition voltage (rawValue : Z) : float :=
  F64.to_float (F64.mul (F64.div (F64.of_Z rawValue) (F64.of_Z 1023)) (F64.of_Z 5)).

(** [sampleChannels]: the voltage of channel [ch] is stored at the write
    cursor.  [analogRead] is the input of the tick: the list of the raw
    values the converter returns, one per channel. *)
Definition sampleChannels (analogRead : list Z) (st : state) : result state :=
  cd ← for_loop (Z.to_nat NUM_CHANNELS) 0
         (fun ch cd =>
            rawValue ← arr_get analogRead ch;
            set2 cd ch (dataIndex st) (voltage rawValue))
         (channelData st);
  Ok (set_channelData cd st).

(** ** The Fréchet distance *)

(** [frechetDP]: the memoised recurrence over the global [dpTable]. *)
Fixpoint frechetDP (fuel : nat) (curve1 curve2 : list float)
    (i j windowSize : Z) (dp : table) : result (float * table) :=
  match fuel with
  | O => OutOfFuel
  | S fuel' =>
    if (i <? 0) || (j <? 0) then Ok (F32.INFINITY, dp)
    else
      memo ← get2 dp i j;
      if F32.ge memo F32.zero then Ok (memo, dp)
      else
        a ← arr_get curve1 i;
        b ← arr_get curve2 j;
        let pointDistance := euclideanDistance a b in
        dp' ←
          (if (i =? 0) && (j =? 0) then
             set2 dp i j pointDistance
           else if (i >? 0) && (j =? 0) then
             '(r, dp1) ← frechetDP fuel' curve1 curve2 (i - 1) 0 windowSize dp;
             set2 dp1 i j (max r pointDistance)
           else if (i =? 0) && (j >? 0) then
             '(r, dp1) ← frechetDP fuel' curve1 curve2 0 (j - 1) windowSize dp;
             set2 dp1 i j (max r pointDistance)
           else
             '(option1, dp1) ← frechetDP fuel' curve1 curve2 (i - 1) j windowSize dp;
             '(option2, dp2) ← frechetDP fuel' curve1 curve2 (i - 1) (j - 1) windowSize dp1;
             '(option3, dp3) ← frechetDP fuel' curve1 curve2 i (j - 1) windowSize dp2;
             set2 dp3 i j (max (min option1 (min option2 option3)) pointDistance));
        v ← get2 dp' i j;
        Ok (v, dp')
  end.

(** The effective window of [discreteFrechetDistance]. *)
Definition actualWindow (windowSize : Z) : Z :=
  Z.min windowSize (Z.min FRECHET_WINDOW HISTORY_SIZE).

(** The ring-buffer index read at step [i] of the extraction loop. *)
Definition windowIndex (dataIndex actualWindow i : Z) : Z :=
  Z.rem (dataIndex - actualWindow + 1 + i + HISTORY_SIZE) HISTORY_SIZE.

(** The extraction loop of [discreteFrechetDistance].  The local arrays
    [curve1] and [curve2] are uninitialised beyond what the loop wrote;
    they are represented by their written prefix, so that reading an
    element the loop did not write is [OutOfBounds]. *)
Definition extractWindow (cd : list (list float)) (dataIndex ch1 ch2 actualWindow : Z)
    : result (list float * list float) :=
  for_loop (Z.to_nat actualWindow) 0
    (fun i '(curve1, curve2) =>
       let idx := windowIndex dataIndex actualWindow i in
       x1 ← get2 cd ch1 idx;
       x2 ← get2 cd ch2 idx;
       Ok (curve1 ++ [x1], curve2 ++ [x2]))
    ([], []).

(** The initialisation loops of [discreteFrechetDistance]. *)
Definition initDpTable (actualWindow : Z) (dp : table) : result table :=
  for_loop (Z.to_nat actualWindow) 0
    (fun i dp =>
       for_loop (Z.to_nat actualWindow) 0
         (fun j dp => set2 dp i j F32.neg_one) dp)
    dp.

(** The engine proper: reset of the active region of the table, then the
    recurrence from the last cell (the second half of
    [discreteFrechetDistance]). *)
Definition frechetEngine (fuel : nat) (curve1 curve2 : list float)
    (actualWindow : Z) (dp : table) : result (float * table) :=
  dp0 ← initDpTable actualWindow dp;
  frechetDP fuel curve1 curve2 (actualWindow - 1) (actualWindow - 1) actualWindow dp0.

(** [discreteFrechetDistance]. *)
Definition discreteFrechetDistance (fuel : nat) (ch1 ch2 windowSize : Z)
    (st : state) : result (float * state) :=
  let st := log_call (ch1, ch2, windowSize) st in
  let actualWindow := actualWindow windowSize in
  '(curve1, curve2) ← extractWindow (channelData st) (dataIndex st) ch1 ch2 actualWindow;
  '(r, dp) ← frechetEngine fuel curve1 curve2 actualWindow (dpTable st);
  Ok (r, set_dpTable dp st).

(** The window the orchestrator asks for. *)
Definition orchestratorWindow (dataIndex : Z) : Z :=
  Z.min FRECHET_WINDOW (Z.min 20 (dataIndex + 1)).

(** [calculateDiscreteFrechetDistances]. *)
Definition calculateDiscreteFrechetDistances (fuel : nat) (st : state) : result state :=
  let window := orchestratorWindow (dataIndex st) in
  if window <? 3 then
    fd ← for_loop (Z.to_nat NUM_CHANNELS) 0
           (fun ch fd => arr_set fd ch F32.zero) (frechetDistances st);
    Ok (set_frechetDistances fd st)
  else
    st' ← for_loop (Z.to_nat (NUM_CHANNELS - 1)) 0
            (fun ch st =>
               '(d, st1) ← discreteFrechetDistance fuel ch (ch + 1) window st;
               fd ← arr_set (frechetDistances st1) ch d;
               Ok (set_frechetDistances fd st1))
            st;
    fd ← arr_set (frechetDistances st') (NUM_CHANNELS - 1) F32.zero;
    Ok (set_frechetDistances fd st').

(** One sampling tick: the body of the [if] of [loop].  [calculateRMS]
    and the serial output touch none of the fields of [state]. *)
Definition tick (fuel : nat) (analogRead : list Z) (st : state) : result state :=
  st1 ← sampleChannels analogRead st;
  st2 ← calculateDiscreteFrechetDistances fuel st1;
  Ok (set_dataIndex (Z.rem (dataIndex st2 + 1) HISTORY_SIZE) st2).

(** [n] ticks from [st], tick [k] reading the raw values [input k]. *)
Fixpoint run (fuel : nat) (input : nat -> list Z) (n : nat) (st : state)
    : result state :=
  match n with
  | O => Ok st
  | S n' => st' ← run fuel input n' st; tick fuel (input n') st'
  end.

(** Fuel that suffices for every call the sketch makes. *)
Definition enough_fuel : nat := Z.to_nat (2 * FRECHET_WINDOW).

(** ** The recurrence of the specification

    The recurrence is written with operators of its own, not with the
    [max] and [min] of the sketch: that the helpers of the sketch compute
    them is part of what is proved. *)

Module Spec.

(** The pointwise distance d(x,y) = |x - y|. *)
Definition d (x y : float) : float := F32.abs (F32.sub x y).

(** The point [c[k]] of a curve. *)
Definition pt (c : list float) (k : nat) : float := default F32.zero (c !! k).

(** The maximum and the minimum of two values in the order of binary32
    numbers: the greater (the less) of the two; of two values of which
    neither is greater (less) than the other, the second one. *)
Definition maximum (a b : float) : float :=
  match SFcompare a b with
  | Some Gt => a
  | _ => b
  end.

Definition minimum (a b : float) : float :=
  match SFcompare a b with
  | Some Lt => a
  | _ => b
  end.

(** The minimum of three cells. *)
Definition min3 (a b c : float) : float := minimum a (minimum b c).

(** The table F of section 4.2:
    F(0,0) = d(A[0],B[0]),
    F(i,0) = max(F(i-1,0), d(A[i],B[0])),
    F(0,j) = max(F(0,j-1), d(A[0],B[j])),
    F(i,j) = max(min(F(i-1,j), F(i-1,j-1), F(i,j-1)), d(A[i],B[j])). *)
Fixpoint F (A B : list float) (i j : nat) {struct i} : float :=
  match i with
  | O =>
    (fix row0 (j : nat) : float :=
       match j with
       | O => d (pt A 0) (pt B 0)
       | S j' => maximum (row0 j') (d (pt A 0) (pt B (S j')))
       end) j
  | S i' =>
    (fix rowi (j : nat) : float :=
       match j with
       | O => maximum (F A B i' 0) (d (pt A (S i')) (pt B 0))
       | S j' =>
         maximum (min3 (F A B i' (S j')) (F A B i' j') (rowi j'))
                 (d (pt A (S i')) (pt B (S j')))
       end) j
  end.

End Spec.

(** ** Well-formed arrays *)

(** A two-dimensional array of [rows] rows of [cols] elements. *)
Definition wf_grid (rows cols : Z) (g : list (list float)) : bool :=
  (length g =? Z.to_nat rows)%nat
  && forallb (fun row => (length row =? Z.to_nat cols)%nat) g.

Definition wf_table (dp : table) : bool :=
  wf_grid FRECHET_WINDOW FRECHET_WINDOW dp.

Definition wf_channelData (cd : list (list float)) : bool :=
  wf_grid NUM_CHANNELS HISTORY_SIZE cd.

(** The arrays have their declared sizes and the write cursor is a valid
    ring-buffer index. *)
Definition wf_state (st : state) : bool :=
  wf_channelData (channelData st)
  && (length (frechetDistances st) =? Z.to_nat NUM_CHANNELS)%nat
  && (0 <=? dataIndex st) && (dataIndex st <? HISTORY_SIZE)
  && wf_table (dpTable st).

(** Every sample of a curve is neither a NaN nor an infinity. *)
Definition finite_curve (c : list float) : bool := forallb F32.is_finite c.

(** ** Invariants

    The memoisation invariant: every cell of the active region of the
    table is either unset or holds its value of the recurrence. *)
Definition memo_inv (A B : list float) (W : Z) (dp : table) : Prop :=
  wf_table dp = true /\
  forall i j, 0 <= i < W -> 0 <= j < W ->
    get2 dp i j = Ok F32.neg_one \/
    get2 dp i j = Ok (Spec.F A B (Z.to_nat i) (Z.to_nat j)).

(** The raw value read on channel [ch]. *)
Definition rawOf (analogRead : list Z) (ch : Z) : Z :=
  default 0 (analogRead !! Z.to_nat ch).

(** At the start of tick [n] the write cursor is [n mod HISTORY_SIZE] and
    the ring buffer of every channel holds the voltages of the last
    [HISTORY_SIZE] ticks, the one of tick [t] in slot [t mod HISTORY_SIZE]. *)
Definition hist_inv (input : nat -> list Z) (n : nat) (st : state) : Prop :=
  wf_state st = true /\
  dataIndex st = Z.of_nat n mod HISTORY_SIZE /\
  forall (t : nat) ch, (t < n)%nat -> (n - t <= Z.to_nat HISTORY_SIZE)%nat ->
    0 <= ch < NUM_CHANNELS ->
    get2 (channelData st) ch (Z.of_nat t mod HISTORY_SIZE)
    = Ok (voltage (rawOf (input t) ch)).

(** The same once tick [n] has sampled: the slot of tick [n] is written. *)
Definition sampled_inv (input : nat -> list Z) (n : nat) (st : state) : Prop :=
  wf_state st = true /\
  dataIndex st = Z.of_nat n mod HISTORY_SIZE /\
  forall (t : nat) ch, (t <= n)%nat -> (n - t < Z.to_nat HISTORY_SIZE)%nat ->
    0 <= ch < NUM_CHANNELS ->
    get2 (channelData st) ch (Z.of_nat t mod HISTORY_SIZE)
    = Ok (voltage (rawOf (input t) ch)).

(** The [W] raw readings of channel [ch] up to tick [n], converted to
    voltages, oldest first. *)
Definition recent (input : nat -> list Z) (n : nat) (W ch : Z) : list float :=
  map (fun k => voltage (rawOf (input (n + 1 - Z.to_nat W + k)%nat) ch))
      (seq 0 (Z.to_nat W)).

(** The cells of the rectangle from (0,0) to ([i],[j]) hold their values
    of the recurrence. *)
Definition rect_filled (A B : list float) (dp : table) (i j : Z) : Prop :=
  forall i' j', 0 <= i' <= i -> 0 <= j' <= j ->
    get2 dp i' j' = Ok (Spec.F A B (Z.to_nat i') (Z.to_nat j')).

(** Every cell of the active region is unset, or set together with all
    the cells it depends on. *)
Definition fill_inv (A B : list float) (W : Z) (dp : table) : Prop :=
  wf_table dp = true /\
  forall i j, 0 <= i < W -> 0 <= j < W ->
    get2 dp i j = Ok F32.neg_one \/ rect_filled A B dp i j.

(** [dp'] keeps every computed cell of [dp] and differs from [dp] only
    inside the rectangle from (0,0) to ([i],[j]). *)
Definition extends (A B : list float) (dp dp' : table) (i j : Z) : Prop :=
  (forall i' j', get2 dp i' j' = Ok (Spec.F A B (Z.to_nat i') (Z.to_nat j')) ->
     get2 dp' i' j' = Ok (Spec.F A B (Z.to_nat i') (Z.to_nat j'))) /\
  (forall i' j', 0 <= i' -> 0 <= j' -> ~ (i' <= i /\ j' <= j) ->
     get2 dp' i' j' = get2 dp i' j').

(** ** The distance of two windows

    The cell F(W-1, W-1) of the recurrence on the curves that
    [extractWindow] reads for channels [ch1] and [ch2]. *)
Definition windowDistance (cd : list (list float)) (dataIndex ch1 ch2 W : Z) : float :=
  match extractWindow cd dataIndex ch1 ch2 W with
  | Ok (c1, c2) => Spec.F c1 c2 (Z.to_nat (W - 1)) (Z.to_nat (W - 1))
  | _ => F32.zero
  end.

(** * The remaining functions of the sketches

    [calculateRMS] is the same in the three sketches and
    [calculateCorrelation], [updateGantt] the same in the two Gantt
    sketches, up to the constant [HISTORY_SIZE] (50, 200 and 20), which is
    the parameter [H] below. *)

(** ** More binary32 arithmetic *)

Module FArith.

Definition add (a b : float) : float := SFadd F32.prec F32.emax a b.
Definition mul (a b : float) : float := SFmul F32.prec F32.emax a b.
Definition div (a b : float) : float := SFdiv F32.prec F32.emax a b.

(** [sqrt] on a [float].  Whether the call resolves to the [float] or to
    the [double] overload, the value stored in a [float] is the correctly
    rounded square root. *)
Definition sqrt (a : float) : float := SFsqrt F32.prec F32.emax a.

(** A [float] promoted to [double]: the same number, in binary64 form. *)
Definition to_double (x : float) : spec_float :=
  match x with
  | S754_finite s m e => binary_round F64.prec F64.emax s m e
  | _ => x
  end.

(** The decimal literal [n / 10^k] of type [double]. *)
Definition dec (n : Z) (k : Z) : spec_float := F64.div (F64.of_Z n) (F64.of_Z (10 ^ k)).

(** [x < c] and [x > c] for a [float] [x] and a [double] [c]. *)
Definition lt_double (x : float) (c : spec_float) : bool := SFltb (to_double x) c.
Definition gt_double (x : float) (c : spec_float) : bool := SFltb c (to_double x).

End FArith.

(** ** Unsigned 32-bit time *)

(** [unsigned long] subtraction, as [millis()] values are subtracted. *)
Definition ULONG_RANGE : Z := 2 ^ 32.
Definition usub (a b : Z) : Z := (a - b) mod ULONG_RANGE.

(** ** Serial output

    What the sketch sends is recorded as the list of the calls it makes
    on [Serial], in order. *)
Inductive serial_event : Type :=
| Print (s : string)                  (* Serial.print("...") *)
| Println (s : string)                (* Serial.println("...") *)
| PrintInt (n : Z)                    (* Serial.print(int) *)
| PrintULong (n : Z)                  (* Serial.print(unsigned long) *)
| PrintFloat (x : float) (digits : Z) (* Serial.print(float, digits) *).

(** ** [calculateRMS] *)

(** The index [(dataIndex - i + HISTORY_SIZE) % HISTORY_SIZE]. *)
Definition backIndex (H dataIndex i : Z) : Z := Z.rem (dataIndex - i + H) H.

Definition calculateRMS (H : Z) (cd : list (list float)) (dataIndex : Z)
    (instantRMS : list float) : result (list float) :=
  for_loop (Z.to_nat NUM_CHANNELS) 0
    (fun ch instantRMS =>
       let window := Z.min 5 H in
       sumSquares ← for_loop (Z.to_nat window) 0
         (fun i sumSquares =>
            value ← get2 cd ch (backIndex H dataIndex i);
            Ok (FArith.add sumSquares (FArith.mul value value)))
         F32.zero;
       arr_set instantRMS ch
         (FArith.sqrt (FArith.div sumSquares (F32.of_Z window))))
    instantRMS.

(** The root mean square of five samples, as the loop accumulates it. *)
Definition rmsOf (vs : list float) : float :=
  FArith.sqrt
    (FArith.div
       (fold_left (fun acc v => FArith.add acc (FArith.mul v v)) vs F32.zero)
       (F32.of_Z 5)).

(** The five samples of channel [ch] the loop of [calculateRMS] reads,
    in the order it reads them. *)
Definition rmsWindow (H : Z) (cd : list (list float)) (dataIndex ch : Z) : list float :=
  map (fun i => match get2 cd ch (backIndex H dataIndex i) with
                | Ok v => v
                | _ => F32.zero
                end)
      (seqZ 0 5).

(** Every sample of every channel is neither a NaN nor an infinity. *)
Definition finite_grid (cd : list (list float)) : bool := forallb finite_curve cd.

(** ** [loop] and [outputMathematicalValues] of frechet_space.ino *)

Definition SAMPLE_RATE_MS : Z := 100.

(** The globals of frechet_space.ino: those of [state], [instantRMS],
    [lastSample] and [autoOutput]. *)
Record sketch : Type := mkSketch {
  core : state;
  instantRMS : list float;
  lastSample : Z;
  autoOutput : bool
}.

(** What one iteration of [loop] reads from outside: [millis()] on entry,
    the pending serial byte if [Serial.available()], the raw values of the
    converter, and [millis()] as read by [outputMathematicalValues]. *)
Record loop_input : Type := mkLoopInput {
  millis_entry : Z;
  serial_in : option Ascii.ascii;
  analog_in : list Z;
  millis_output : Z
}.

Definition outputMathematicalValues (millis : Z) (st : state)
    : result (list serial_event) :=
  d ← arr_get (frechetDistances st) (NUM_CHANNELS - 2);
  Ok [PrintULong millis; Print " "; PrintFloat d 6; Println ""].

Definition loop (fuel : nat) (inp : loop_input) (sk : sketch)
    : result (sketch * list serial_event) :=
  let currentTime := millis_entry inp in
  let '(autoOutput1, out1) :=
    match serial_in inp with
    | Some cmd =>
      if Ascii.eqb cmd "s"%char then
        let a := negb (autoOutput sk) in
        (a, [Print "# Auto output "; Println (if a then "ON" else "OFF")])
      else (autoOutput sk, [])
    | None => (autoOutput sk, [])
    end in
  if SAMPLE_RATE_MS <=? usub currentTime (lastSample sk) then
    st1 ← sampleChannels (analog_in inp) (core sk);
    rms ← calculateRMS HISTORY_SIZE (channelData st1) (dataIndex st1) (instantRMS sk);
    st2 ← calculateDiscreteFrechetDistances fuel st1;
    out2 ← (if autoOutput1 then outputMathematicalValues (millis_output inp) st2
            else Ok []);
    Ok (mkSketch (set_dataIndex (Z.rem (dataIndex st2 + 1) HISTORY_SIZE) st2)
                 rms currentTime autoOutput1,
        out1 ++ out2)
  else
    Ok (mkSketch (core sk) (instantRMS sk) (lastSample sk) autoOutput1, out1).

(** ** The Gantt sketches (NINRO_RP2040_Feather.ino and its LED variant) *)

Definition GANTT_HISTORY : Z := 20.
Definition GANTT_WIDTH : Z := 40.

(** [struct GanttData]. *)
Record GanttData : Type := mkGantt {
  gantt_correlation : list (list float);   (* [NUM_CHANNELS][GANTT_HISTORY] *)
  gantt_rms : list (list float);           (* [NUM_CHANNELS][GANTT_HISTORY] *)
  gantt_timestamps : list Z;               (* [GANTT_HISTORY] *)
  gantt_index : Z;
  gantt_full : bool
}.

(** The globals of a Gantt sketch that the sampling path touches. *)
Record gstate : Type := mkGstate {
  gs_channelData : list (list float);      (* [NUM_CHANNELS][HISTORY_SIZE] *)
  gs_instantRMS : list float;              (* [NUM_CHANNELS] *)
  gs_correlation : list float;             (* [NUM_CHANNELS] *)
  gs_gantt : GanttData;
  gs_dataIndex : Z
}.

(** The globals after [setup]: zeroed arrays, [index = 0], [full = false]. *)
Definition gantt_setup (H : Z) : gstate :=
  let zeros n := replicate (Z.to_nat n) F32.zero in
  mkGstate (replicate (Z.to_nat NUM_CHANNELS) (zeros H))
           (zeros NUM_CHANNELS) (zeros NUM_CHANNELS)
           (mkGantt (replicate (Z.to_nat NUM_CHANNELS) (zeros GANTT_HISTORY))
                    (replicate (Z.to_nat NUM_CHANNELS) (zeros GANTT_HISTORY))
                    (replicate (Z.to_nat GANTT_HISTORY) 0) 0 false)
           0.

(** The loop of [sampleChannels] on the array itself. *)
Definition sampleInto (analogRead : list Z) (dataIndex : Z) (cd : list (list float))
    : result (list (list float)) :=
  for_loop (Z.to_nat NUM_CHANNELS) 0
    (fun ch cd =>
       rawValue ← arr_get analogRead ch;
       set2 cd ch dataIndex (voltage rawValue))
    cd.

(** [calculateCorrelation]. *)
Definition calculateCorrelation (H : Z) (cd : list (list float)) (dataIndex : Z)
    (correlation : list float) : result (list float) :=
  for_loop (Z.to_nat (NUM_CHANNELS - 1)) 0
    (fun ch correlation =>
       let window := Z.min 10 H in
       '(ch1_sum, ch2_sum) ← for_loop (Z.to_nat window) 0
         (fun i '(ch1_mean, ch2_mean) =>
            let idx := backIndex H dataIndex i in
            x1 ← get2 cd ch idx;
            x2 ← get2 cd (ch + 1) idx;
            Ok (FArith.add ch1_mean x1, FArith.add ch2_mean x2))
         (F32.zero, F32.zero);
       let ch1_mean := FArith.div ch1_sum (F32.of_Z window) in
       let ch2_mean := FArith.div ch2_sum (F32.of_Z window) in
       '(numerator, var1, var2) ← for_loop (Z.to_nat window) 0
         (fun i '(numerator, var1, var2) =>
            let idx := backIndex H dataIndex i in
            x1 ← get2 cd ch idx;
            let diff1 := F32.sub x1 ch1_mean in
            x2 ← get2 cd (ch + 1) idx;
            let diff2 := F32.sub x2 ch2_mean in
            Ok (FArith.add numerator (FArith.mul diff1 diff2),
                FArith.add var1 (FArith.mul diff1 diff1),
                FArith.add var2 (FArith.mul diff2 diff2)))
         (F32.zero, F32.zero, F32.zero);
       if F32.gt var1 F32.zero && F32.gt var2 F32.zero then
         arr_set correlation ch
           (FArith.div numerator (FArith.sqrt (FArith.mul var1 var2)))
       else
         arr_set correlation ch F32.zero)
    correlation.

(** [updateGantt]; [millis] is the value [millis()] returns. *)
Definition updateGantt (millis : Z) (correlation instantRMS : list float)
    (g : GanttData) : result GanttData :=
  let idx := gantt_index g in
  '(gc, gr) ← for_loop (Z.to_nat NUM_CHANNELS) 0
    (fun ch '(gc, gr) =>
       c ← (if ch <? NUM_CHANNELS - 1 then arr_get correlation ch else Ok F32.zero);
       gc' ← set2 gc ch idx c;
       r ← arr_get instantRMS ch;
       gr' ← set2 gr ch idx r;
       Ok (gc', gr'))
    (gantt_correlation g, gantt_rms g);
  ts ← arr_set (gantt_timestamps g) idx millis;
  let index' := Z.rem (idx + 1) GANTT_HISTORY in
  let full' := if negb (gantt_full g) && (index' =? 0) then true else gantt_full g in
  Ok (mkGantt gc gr ts index' full').

(** The part of a due iteration of [loop] that changes the globals, the
    same in both Gantt sketches: [sampleChannels], [calculateRMS],
    [calculateCorrelation], [updateGantt] and the advance of [dataIndex]. *)
Definition gantt_tick (H : Z) (millis : Z) (analogRead : list Z) (gs : gstate)
    : result gstate :=
  cd ← sampleInto analogRead (gs_dataIndex gs) (gs_channelData gs);
  rms ← calculateRMS H cd (gs_dataIndex gs) (gs_instantRMS gs);
  corr ← calculateCorrelation H cd (gs_dataIndex gs) (gs_correlation gs);
  g ← updateGantt millis corr rms (gs_gantt gs);
  Ok (mkGstate cd rms corr g (Z.rem (gs_dataIndex gs + 1) H)).

Fixpoint gantt_run (H : Z) (millis : nat -> Z) (input : nat -> list Z) (n : nat)
    : result gstate :=
  match n with
  | O => Ok (gantt_setup H)
  | S n' => gs ← gantt_run H millis input n'; gantt_tick H (millis n') (input n') gs
  end.

(** [int entries = gantt.full ? GANTT_HISTORY : gantt.index;] *)
Definition ganttEntries (g : GanttData) : Z :=
  if gantt_full g then GANTT_HISTORY else gantt_index g.

(** The index of column [i] of the chart. *)
Definition ganttIndex (g : GanttData) (entries i : Z) : Z :=
  Z.rem (gantt_index g - entries + i + GANTT_HISTORY) GANTT_HISTORY.

(** The block printed for one cell of the chart. *)
Definition ganttGlyph (rms corr : float) : string :=
  if FArith.gt_double rms (FArith.dec 10 1)
     && FArith.gt_double (F32.abs corr) (FArith.dec 6 1) then "█"
  else if FArith.gt_double rms (FArith.dec 5 1)
          && FArith.gt_double (F32.abs corr) (FArith.dec 3 1) then "▓"
  else if FArith.gt_double rms (FArith.dec 1 1) then "░"
  else " ".

(** The timeline loop of a channel's line, the innermost loop of
    [displayGanttChart] below, which runs it for the channels it shows:
    [for (int i = 0; i < min(entries, GANTT_WIDTH); i++)] prints the
    block of [gantt.rms[ch][idx]] and [gantt.correlation[ch][idx]]. *)
Definition ganttTimeline (g : GanttData) (ch entries : Z) : result (list serial_event) :=
  for_loop (Z.to_nat (Z.min entries GANTT_WIDTH)) 0
    (fun i out =>
       let idx := ganttIndex g entries i in
       corr ← get2 (gantt_correlation g) ch idx;
       rms ← get2 (gantt_rms g) ch idx;
       Ok (out ++ [Print (ganttGlyph rms corr)]))
    [].

(** The ruler of the header and of the footer:
    [for (int i = 0; i < min(entries, GANTT_WIDTH); i++)] prints a bar
    when [i % 5 == 0] and a dash otherwise. *)
Definition ganttRuler (entries : Z) : list serial_event :=
  map (fun i => Print (if Z.rem i 5 =? 0 then "|" else "-"))
      (seqZ 0 (Z.min entries GANTT_WIDTH)).

(** [for (int i = start; i < stop; i += step) body]; the fuel bounds the
    number of iterations. *)
Fixpoint for_step {St : Type} (fuel : nat) (i stop step : Z)
    (body : Z -> St -> result St) (s : St) : result St :=
  match fuel with
  | O => OutOfFuel
  | S fuel' =>
    if i <? stop then s' ← body i s; for_step fuel' (i + step) stop step body s'
    else Ok s
  end.

(** [displayGanttChart] of NINRO_RP2040_Feather.ino: what one call sends.
    It reads [gantt], [instantRMS] and [correlation]; [now i] is the value
    [millis()] returns in the iteration [i] of the loop of the time
    indicators.  With fewer than 2 entries the call returns after the
    banner, and a channel whose [instantRMS] is below 0.01 has no line. *)
Definition displayGanttChart (now : Z -> Z) (gs : gstate) : result (list serial_event) :=
  let g := gs_gantt gs in
  let out := [Println "████ REAL-TIME CORRELATION GANTT ███"] in
  let entries := ganttEntries g in
  if entries <? 2 then Ok out
  else
    let out := out ++ [Print "CH |"] ++ ganttRuler entries ++ [Println "| RMS  | CORR"] in
    out ← for_loop (Z.to_nat NUM_CHANNELS) 0
      (fun ch out =>
         r ← arr_get (gs_instantRMS gs) ch;
         if FArith.lt_double r (FArith.dec 1 2) then Ok out
         else
           let out := out ++ [Print "A"; PrintInt ch; Print " |"] in
           cells ← ganttTimeline g ch entries;
           let out := out ++ cells ++ [Print "| "; PrintFloat r 2; Print "| "] in
           out ← (if ch <? NUM_CHANNELS - 1 then
                    c ← arr_get (gs_correlation gs) ch;
                    Ok (out ++ [PrintFloat c 2])
                  else Ok (out ++ [Print "  - "]));
           Ok (out ++ [Println ""]))
      out;
    let out := out ++ [Print "   |"] ++ ganttRuler entries ++ [Println "|"] in
    let out := out ++ [Print "Time: "] in
    out ← for_step (S (Z.to_nat GANTT_WIDTH)) 0 (Z.min entries GANTT_WIDTH) 5
      (fun i out =>
         let idx := ganttIndex g entries i in
         ts ← arr_get (gantt_timestamps g) idx;
         let timeAgo := usub (now i) ts / 1000 in
         Ok (out ++ [PrintULong timeAgo; Print "s  "]))
      out;
    Ok (out ++ [Println "";
                Println "Legend: █=Strong ▓=Medium ░=Weak  =None";
                Print "Sample Rate: "; PrintInt SAMPLE_RATE_MS; Println "ms";
                Println "████████████████████████████████████"]).

(** The count of the LED variant: the channels with
    [instantRMS[ch] > 0.5 && abs(correlation[ch]) > 0.3]. *)
Definition mediumSignalCount (instantRMS correlation : list float) : result Z :=
  for_loop (Z.to_nat NUM_CHANNELS) 0
    (fun ch count =>
       r ← arr_get instantRMS ch;
       if FArith.gt_double r (FArith.dec 5 1) then
         c ← arr_get correlation ch;
         Ok (if FArith.gt_double (F32.abs c) (FArith.dec 3 1) then count + 1 else count)
       else Ok count)
    0.

(** The arrays of a Gantt sketch have their declared sizes and both
    cursors are valid indices. *)
Definition wf_gantt (g : GanttData) : bool :=
  wf_grid NUM_CHANNELS GANTT_HISTORY (gantt_correlation g)
  && wf_grid NUM_CHANNELS GANTT_HISTORY (gantt_rms g)
  && (length (gantt_timestamps g) =? Z.to_nat GANTT_HISTORY)%nat
  && (0 <=? gantt_index g) && (gantt_index g <? GANTT_HISTORY).

Definition wf_gstate (H : Z) (gs : gstate) : bool :=
  wf_grid NUM_CHANNELS H (gs_channelData gs)
  && (length (gs_instantRMS gs) =? Z.to_nat NUM_CHANNELS)%nat
  && (length (gs_correlation gs) =? Z.to_nat NUM_CHANNELS)%nat
  && wf_gantt (gs_gantt gs)
  && (0 <=? gs_dataIndex gs) && (gs_dataIndex gs <? H).

(** What [updateGantt] stores for channel [ch]:
    [(ch < NUM_CHANNELS - 1) ? correlation[ch] : 0.0] and [instantRMS[ch]]. *)
Definition storedCorr (correlation : list float) (ch : Z) : float :=
  if ch <? NUM_CHANNELS - 1 then default F32.zero (correlation !! Z.to_nat ch)
  else F32.zero.
Definition storedRMS (instantRMS : list float) (ch : Z) : float :=
  default F32.zero (instantRMS !! Z.to_nat ch).

(** The globals once tick [t] is over. *)
Definition recorded (H : Z) (millis : nat -> Z) (input : nat -> list Z) (t : nat) : gstate :=
  match gantt_run H millis input (S t) with
  | Ok gs => gs
  | _ => gantt_setup H
  end.

(** After [n] ticks: both cursors are [n] modulo their capacity, [full]
    tells whether 20 ticks have passed, the correlation of the last
    channel is still 0.0, and the chart holds what the last 20 ticks
    recorded, tick [t] in column [t mod GANTT_HISTORY]. *)
Definition ginv (H : Z) (millis : nat -> Z) (input : nat -> list Z) (n : nat)
    (gs : gstate) : Prop :=
  wf_gstate H gs = true /\
  gs_dataIndex gs = Z.of_nat n mod H /\
  gantt_index (gs_gantt gs) = Z.of_nat n mod GANTT_HISTORY /\
  gantt_full (gs_gantt gs) = (GANTT_HISTORY <=? Z.of_nat n) /\
  gs_correlation gs !! 3%nat = Some F32.zero /\
  forall (t : nat) ch, (t < n)%nat -> (n - t <= Z.to_nat GANTT_HISTORY)%nat ->
    0 <= ch < NUM_CHANNELS ->
    get2 (gantt_rms (gs_gantt gs)) ch (Z.of_nat t mod GANTT_HISTORY)
    = Ok (storedRMS (gs_instantRMS (recorded H millis input t)) ch) /\
    get2 (gantt_correlation (gs_gantt gs)) ch (Z.of_nat t mod GANTT_HISTORY)
    = Ok (storedCorr (gs_correlation (recorded H millis input t)) ch) /\
    gantt_timestamps (gs_gantt gs) !! Z.to_nat (Z.of_nat t mod GANTT_HISTORY)
    = Some (millis t).

(** The cells of one row of the chart after [n] ticks: one block per
    recorded tick, from tick [first] on. *)
Definition expectedRow (H : Z) (millis : nat -> Z) (input : nat -> list Z)
    (first count : nat) (ch : Z) : list serial_event :=
  map (fun k =>
         let gs := recorded H millis input (first + k) in
         Print (ganttGlyph (storedRMS (gs_instantRMS gs) ch)
                           (storedCorr (gs_correlation gs) ch)))
      (seq 0 count).

(** The five most recent voltages of channel [ch] at tick [n], newest
    first. *)
Definition lastFive (input : nat -> list Z) (n : nat) (ch : Z) : list float :=
  map (fun i => voltage (rawOf (input (n - i)%nat) ch)) (seq 0 5).

(** The chart [displayGanttChart] shows after [n] ticks, told from what
    the ticks recorded.  The line of channel [ch]: none when the current
    RMS of the channel is below 0.01, else the blocks of the last
    min(n, 20) ticks between the label and the current values. *)
Definition expectedLine (H : Z) (millis : nat -> Z) (input : nat -> list Z)
    (n : nat) (gs : gstate) (ch : Z) : list serial_event :=
  let r := storedRMS (gs_instantRMS gs) ch in
  if FArith.lt_double r (FArith.dec 1 2) then []
  else [Print "A"; PrintInt ch; Print " |"]
       ++ expectedRow H millis input (n - Nat.min n 20) (Nat.min n 20) ch
       ++ [Print "| "; PrintFloat r 2; Print "| ";
           if ch <? NUM_CHANNELS - 1
           then PrintFloat (storedCorr (gs_correlation gs) ch) 2
           else Print "  - ";
           Println ""].

(** The age in seconds of every fifth of the last min(n, 20) ticks. *)
Definition expectedTimes (millis : nat -> Z) (now : Z -> Z) (n : nat)
    : list serial_event :=
  flat_map (fun k =>
              [PrintULong (usub (now (5 * Z.of_nat k))
                                (millis (n - Nat.min n 20 + 5 * k)%nat) / 1000);
               Print "s  "])
           (seq 0 (Nat.div (Nat.min n 20 + 4) 5)).

(** The whole chart: the banner alone before the second tick. *)
Definition expectedChart (H : Z) (millis : nat -> Z) (input : nat -> list Z)
    (now : Z -> Z) (n : nat) (gs : gstate) : list serial_event :=
  [Println "████ REAL-TIME CORRELATION GANTT ███"]
  ++ (if (n <? 2)%nat then []
      else [Print "CH |"] ++ ganttRuler (Z.of_nat (Nat.min n 20))
           ++ [Println "| RMS  | CORR"]
           ++ flat_map (expectedLine H millis input n gs) (seqZ 0 NUM_CHANNELS)
           ++ [Print "   |"] ++ ganttRuler (Z.of_nat (Nat.min n 20))
           ++ [Println "|"; Print "Time: "]
           ++ expectedTimes millis now n
           ++ [Println "";
               Println "Legend: █=Strong ▓=Medium ░=Weak  =None";
               Print "Sample Rate: "; PrintInt SAMPLE_RATE_MS; Println "ms";
               Println "████████████████████████████████████"]).

(** ** Sample data *)

Definition curveA : list float := map F32.of_Z [1; 2; 3].
Definition curveB : list float := map F32.of_Z [1; 2; 5].
Definition demo_input (k : nat) : list Z :=
  [(37 * Z.of_nat k) mod 1024; 512; 1023 - Z.of_nat k mod 1024;
   (Z.of_nat k * Z.of_nat k) mod 1024].

(** A state whose ring buffers are full, and the same state with a table
    left full of stale non-negative entries. *)
Definition demo_state : state :=
  set_dataIndex 30
    (set_channelData
       (map (fun ch => map (fun k => voltage ((100 * ch + k * k) mod 1024)) (seqZ 0 50))
            (seqZ 0 4))
       setup).
Definition dirty_state : state :=
  set_dpTable (replicate 20 (replicate 20 (F32.of_Z 7))) demo_state.

(** A table whose cells are all unset, as [discreteFrechetDistance] leaves
    its active region before it calls [frechetDP]: no cell answers from
    the memo, a call on (2, 2) recurses down to (0, 0). *)
Definition unset_table : table := replicate 20 (replicate 20 F32.neg_one).

(** The time of tick [k] in the sample runs, and a sketch whose last
    sample was taken shortly before [millis()] wraps. *)
Definition demo_millis (k : nat) : Z := 100 * Z.of_nat k.
Definition demo_sketch : sketch :=
  mkSketch (match run enough_fuel demo_input 5 setup with
            | Ok st => st
            | _ => setup
            end)
           (replicate 4 F32.zero) 4294967290 true.
Definition demo_loop_input : loop_input :=
  mkLoopInput 94 None (demo_input 5) 95.

(** * Properties *)

(** The literal [-1.0] is the rounding of the integer -1. *)
Example ex_neg_one : F32.of_Z (-1) = F32.neg_one.
Proof. reflexivity. Qed.

(** The voltages of the two ends of a 10-bit converter. *)
Example ex_voltage : voltage 0 = F32.zero /\ voltage 1023 = F32.of_Z 5.
Proof. split; reflexivity. Qed.

(** ** The outcome monad *)

Lemma bind_Ok {A B} (f : A -> result B) (a : A) : Ok a ≫= f = f a.
Proof. reflexivity. Qed.

Lemma bind_Ok_inv {A B} (f : A -> result B) (m : result A) (b : B) :
  m ≫= f = Ok b -> exists a, m = Ok a /\ f a = Ok b.
Proof. destruct m as [a| |]; simpl; intros H; try discriminate. by exists a. Qed.

(** ** Arrays *)

Lemma arr_get_Ok {A} (a : list A) (i : Z) :
  0 <= i < Z.of_nat (length a) ->
  exists x, arr_get a i = Ok x /\ a !! Z.to_nat i = Some x.
Proof.
  intros Hi. unfold arr_get.
  destruct (Z.leb_spec 0 i) as [_|]; [|lia].
  destruct (lookup_lt_is_Some_2 a (Z.to_nat i)) as [x Hx]; [lia|].
  exists x. by rewrite Hx.
Qed.

Lemma arr_get_inv {A} (a : list A) (i : Z) (x : A) :
  arr_get a i = Ok x -> 0 <= i < Z.of_nat (length a) /\ a !! Z.to_nat i = Some x.
Proof.
  unfold arr_get. destruct (Z.leb_spec 0 i) as [Hi|]; [|discriminate].
  destruct (a !! Z.to_nat i) as [y|] eqn:Hy; [|discriminate].
  intros [= ->]. apply lookup_lt_Some in Hy as Hlt. split; [lia|done].
Qed.

Lemma arr_set_Ok {A} (a : list A) (i : Z) (x : A) :
  0 <= i < Z.of_nat (length a) ->
  arr_set a i x = Ok (<[Z.to_nat i := x]> a).
Proof.
  intros Hi. unfold arr_set.
  destruct (Z.leb_spec 0 i); [|lia]. destruct (Z.ltb_spec i (Z.of_nat (length a))); [|lia].
  reflexivity.
Qed.

Lemma arr_set_inv {A} (a a' : list A) (i : Z) (x : A) :
  arr_set a i x = Ok a' ->
  0 <= i < Z.of_nat (length a) /\ a' = <[Z.to_nat i := x]> a.
Proof.
  unfold arr_set.
  destruct (Z.leb_spec 0 i); [|discriminate].
  destruct (Z.ltb_spec i (Z.of_nat (length a))); [|discriminate].
  simpl. intros [= <-]. split; [lia|done].
Qed.

(** ** Two-dimensional arrays *)

Lemma wf_grid_spec (rows cols : Z) (g : list (list float)) :
  wf_grid rows cols g = true <->
  length g = Z.to_nat rows /\
  forall (i : nat) row, g !! i = Some row -> length row = Z.to_nat cols.
Proof.
  unfold wf_grid. rewrite andb_true_iff, Nat.eqb_eq, forallb_forall.
  split; intros [Hl Hr]; split; try done.
  - intros i row Hi. apply Nat.eqb_eq, Hr, list_elem_of_In.
    by eapply list_elem_of_lookup_2.
  - intros row Hin. apply list_elem_of_In, list_elem_of_lookup in Hin as [i Hi].
    apply Nat.eqb_eq. eauto.
Qed.

Lemma get2_Ok (rows cols : Z) (g : list (list float)) (i j : Z) :
  wf_grid rows cols g = true ->
  0 <= i < rows -> 0 <= j < cols ->
  exists v, get2 g i j = Ok v.
Proof.
  intros [Hl Hr]%wf_grid_spec Hi Hj. unfold get2.
  destruct (arr_get_Ok g i) as (row & -> & Hrow); [lia|].
  rewrite bind_Ok. apply Hr in Hrow.
  destruct (arr_get_Ok row j) as (v & -> & _); [lia|]. by exists v.
Qed.

Lemma set2_Ok (rows cols : Z) (g : list (list float)) (i j : Z) (v : float) :
  wf_grid rows cols g = true ->
  0 <= i < rows -> 0 <= j < cols ->
  exists g',
    set2 g i j v = Ok g' /\ wf_grid rows cols g' = true /\
    get2 g' i j = Ok v /\
    forall i' j', (i', j') <> (i, j) -> 0 <= i' -> 0 <= j' ->
      get2 g' i' j' = get2 g i' j'.
Proof.
  intros Hwf Hi Hj. pose proof Hwf as [Hl Hr]%wf_grid_spec. unfold set2.
  destruct (arr_get_Ok g i) as (row & -> & Hrow); [lia|].
  rewrite bind_Ok. pose proof (Hr _ _ Hrow) as Hlen.
  rewrite (arr_set_Ok row j) by lia. rewrite bind_Ok.
  rewrite (arr_set_Ok g i) by lia.
  eexists; split; [reflexivity|]. split; [|split].
  - apply wf_grid_spec. rewrite length_insert. split; [done|].
    intros k r Hk. destruct (decide (k = Z.to_nat i)) as [->|Hne].
    + rewrite list_lookup_insert_eq in Hk by lia. injection Hk as <-.
      by rewrite length_insert.
    + rewrite list_lookup_insert_ne in Hk by done. eauto.
  - unfold get2, arr_get.
    destruct (Z.leb_spec 0 i); [|lia]. rewrite list_lookup_insert_eq by lia.
    rewrite bind_Ok. destruct (Z.leb_spec 0 j); [|lia].
    by rewrite list_lookup_insert_eq by lia.
  - intros i' j' Hne Hi' Hj'. unfold get2, arr_get.
    destruct (Z.leb_spec 0 i'); [|lia]. destruct (Z.leb_spec 0 j'); [|lia].
    destruct (decide (Z.to_nat i' = Z.to_nat i)) as [Heq|Hne'].
    + rewrite Heq, list_lookup_insert_eq by lia. rewrite Hrow, !bind_Ok.
      rewrite list_lookup_insert_ne; [done|].
      intros Hj''. apply Hne. f_equal; lia.
    + by rewrite list_lookup_insert_ne by done.
Qed.

(** ** The operators of the recurrence

    The order of binary32 values is antisymmetric, and reflexive on
    numbers; the [max] and [min] of the sketch are the maximum and the
    minimum of the recurrence. *)

Lemma SFcompare_antisym (a b : float) :
  SFcompare b a = option_map CompOpp (SFcompare a b).
Proof.
  destruct a as [[]| []| |[] m1 e1], b as [[]| []| |[] m2 e2]; try reflexivity;
    cbn [SFcompare option_map]; f_equal;
    rewrite (Z.compare_antisym e1 e2);
    fold (Pos.compare m1 m2); fold (Pos.compare m2 m1);
    rewrite (Pos.compare_antisym m1 m2);
    destruct (Z.compare e1 e2), (Pos.compare m1 m2); reflexivity.
Qed.

Lemma SFcompare_refl (a : float) :
  a <> S754_nan -> SFcompare a a = Some Eq.
Proof.
  destruct a as [[]| []| |[] m e]; try done; intros _;
    cbn [SFcompare]; fold (Pos.compare m m);
    by rewrite Z.compare_refl, Pos.compare_refl.
Qed.

Lemma max_maximum (a b : float) : max a b = Spec.maximum a b.
Proof.
  unfold max, Spec.maximum, F32.gt, SFltb. rewrite (SFcompare_antisym a b).
  by destruct (SFcompare a b) as [[]|].
Qed.

Lemma min_minimum (a b : float) : min a b = Spec.minimum a b.
Proof.
  unfold min, Spec.minimum, F32.lt, SFltb. by destruct (SFcompare a b) as [[]|].
Qed.

Lemma min3_min (a b c : float) : Spec.min3 a b c = min a (min b c).
Proof. unfold Spec.min3. by rewrite !min_minimum. Qed.

(** On two numbers the maximum is one of them and at least both, and the
    minimum is one of them and at most both. *)
Lemma maximum_greatest (a b : float) :
  a <> S754_nan -> b <> S754_nan ->
  (Spec.maximum a b = a \/ Spec.maximum a b = b) /\
  SFleb a (Spec.maximum a b) = true /\ SFleb b (Spec.maximum a b) = true.
Proof.
  intros Ha Hb. unfold Spec.maximum, SFleb.
  pose proof (SFcompare_antisym a b) as Hab.
  pose proof (SFcompare_refl a Ha) as Haa. pose proof (SFcompare_refl b Hb) as Hbb.
  destruct (SFcompare a b) as [[]|] eqn:Hc; cbn in Hab;
    rewrite ?Haa, ?Hbb, ?Hab, ?Hc; try by auto.
  by destruct a as [| | |], b as [| | |].
Qed.

Lemma minimum_least (a b : float) :
  a <> S754_nan -> b <> S754_nan ->
  (Spec.minimum a b = a \/ Spec.minimum a b = b) /\
  SFleb (Spec.minimum a b) a = true /\ SFleb (Spec.minimum a b) b = true.
Proof.
  intros Ha Hb. unfold Spec.minimum, SFleb.
  pose proof (SFcompare_antisym a b) as Hab.
  pose proof (SFcompare_refl a Ha) as Haa. pose proof (SFcompare_refl b Hb) as Hbb.
  destruct (SFcompare a b) as [[]|] eqn:Hc; cbn in Hab;
    rewrite ?Haa, ?Hbb, ?Hab, ?Hc; try by auto.
  by destruct a as [| | |], b as [| | |].
Qed.

(** ** The recurrence, cell by cell *)

Lemma F_0_0 A B : Spec.F A B 0 0 = Spec.d (Spec.pt A 0) (Spec.pt B 0).
Proof. reflexivity. Qed.

Lemma F_S_0 A B i :
  Spec.F A B (S i) 0 = max (Spec.F A B i 0) (Spec.d (Spec.pt A (S i)) (Spec.pt B 0)).
Proof. symmetry. apply max_maximum. Qed.

Lemma F_0_S A B j :
  Spec.F A B 0 (S j) = max (Spec.F A B 0 j) (Spec.d (Spec.pt A 0) (Spec.pt B (S j))).
Proof. symmetry. apply max_maximum. Qed.

Lemma F_S_S A B i j :
  Spec.F A B (S i) (S j) =
  max (Spec.min3 (Spec.F A B i (S j)) (Spec.F A B i j) (Spec.F A B (S i) j))
      (Spec.d (Spec.pt A (S i)) (Spec.pt B (S j))).
Proof. symmetry. apply max_maximum. Qed.

(** ** Memoisation *)

Section Memo.

Variables (A B : list float) (W : Z).
Hypothesis HW : W <= FRECHET_WINDOW.
Hypothesis HA : W <= Z.of_nat (length A).
Hypothesis HB : W <= Z.of_nat (length B).

Lemma memo_inv_set dp i j :
  memo_inv A B W dp -> 0 <= i < W -> 0 <= j < W ->
  exists dp',
    set2 dp i j (Spec.F A B (Z.to_nat i) (Z.to_nat j)) = Ok dp' /\
    get2 dp' i j = Ok (Spec.F A B (Z.to_nat i) (Z.to_nat j)) /\
    memo_inv A B W dp'.
Proof using HW.
  intros [Hwf Hcells] Hi Hj.
  destruct (set2_Ok _ _ dp i j (Spec.F A B (Z.to_nat i) (Z.to_nat j)) Hwf)
    as (dp' & Hset & Hwf' & Hget & Hother); [lia..|].
  exists dp'. split; [done|]. split; [done|]. split; [done|].
  intros i' j' Hi' Hj'.
  destruct (decide ((i', j') = (i, j))) as [[= -> ->]|Hne].
  - by right.
  - rewrite Hother by (done || lia). by apply Hcells.
Qed.

Lemma pt_get (c : list float) (i : Z) :
  0 <= i < Z.of_nat (length c) -> arr_get c i = Ok (Spec.pt c (Z.to_nat i)).
Proof.
  intros Hi. destruct (arr_get_Ok c i Hi) as (x & -> & Hx).
  unfold Spec.pt. by rewrite Hx.
Qed.

(** With enough fuel a call on a cell of the active region returns the
    value of the recurrence and keeps the invariant. *)
Lemma frechetDP_memo fuel : forall i j dp,
  0 <= i < W -> 0 <= j < W -> (Z.to_nat (i + j) < fuel)%nat ->
  memo_inv A B W dp ->
  exists dp',
    frechetDP fuel A B i j W dp = Ok (Spec.F A B (Z.to_nat i) (Z.to_nat j), dp') /\
    memo_inv A B W dp'.
Proof using HW HA HB.
  induction fuel as [|fuel IH]; intros i j dp Hi Hj Hfuel Hinv; [lia|].
  cbn [frechetDP].
  destruct (Z.ltb_spec i 0); [lia|]. destruct (Z.ltb_spec j 0); [lia|].
  cbn [orb].
  destruct (get2_Ok _ _ dp i j (proj1 Hinv)) as [memo Hmemo]; [lia..|].
  rewrite Hmemo, bind_Ok.
  destruct (F32.ge memo F32.zero) eqn:Hge.
  { destruct (proj2 Hinv i j Hi Hj) as [Hc|Hc];
      rewrite Hc in Hmemo; injection Hmemo as <-; [discriminate|].
    by exists dp. }
  rewrite (pt_get A i), (pt_get B j), !bind_Ok by lia.
  change (euclideanDistance ?x ?y) with (Spec.d x y).
  assert (Hfin : forall dp1 v,
    v = Spec.F A B (Z.to_nat i) (Z.to_nat j) -> memo_inv A B W dp1 ->
    exists dp',
      (dp'0 ← set2 dp1 i j v; v0 ← get2 dp'0 i j; Ok (v0, dp'0))
      = Ok (Spec.F A B (Z.to_nat i) (Z.to_nat j), dp') /\ memo_inv A B W dp').
  { intros dp1 v -> Hinv1.
    destruct (memo_inv_set dp1 i j Hinv1 Hi Hj) as (dp' & -> & Hget & Hinv').
    rewrite bind_Ok, Hget, bind_Ok. by exists dp'. }
  destruct (Z.eqb_spec i 0) as [Hi0|Hi0]; destruct (Z.eqb_spec j 0) as [Hj0|Hj0];
    destruct (Z.gtb_spec i 0); destruct (Z.gtb_spec j 0); try lia;
    subst; cbn [andb].
  - apply Hfin; [|done]. reflexivity.
  - destruct (IH 0 (j - 1) dp) as (dp1 & -> & Hinv1); [lia..|done|].
    rewrite bind_Ok. apply Hfin; [|done].
    replace (Z.to_nat j) with (S (Z.to_nat (j - 1))) by lia.
    by rewrite F_0_S.
  - destruct (IH (i - 1) 0 dp) as (dp1 & -> & Hinv1); [lia..|done|].
    rewrite bind_Ok. apply Hfin; [|done].
    replace (Z.to_nat i) with (S (Z.to_nat (i - 1))) by lia.
    by rewrite F_S_0.
  - destruct (IH (i - 1) j dp) as (dp1 & -> & Hinv1); [lia..|done|].
    rewrite bind_Ok.
    destruct (IH (i - 1) (j - 1) dp1) as (dp2 & -> & Hinv2); [lia..|done|].
    rewrite bind_Ok.
    destruct (IH i (j - 1) dp2) as (dp3 & -> & Hinv3); [lia..|done|].
    rewrite bind_Ok. apply Hfin; [|done].
    replace (Z.to_nat i) with (S (Z.to_nat (i - 1))) by lia.
    replace (Z.to_nat j) with (S (Z.to_nat (j - 1))) by lia.
    by rewrite F_S_S, min3_min.
Qed.

End Memo.

(** ** Loops *)

Lemma for_loop_inv {St : Type} (P : Z -> St -> Prop) (body : Z -> St -> result St) :
  forall (n : nat) (i : Z) (s : St),
    P i s ->
    (forall k s, i <= k < i + Z.of_nat n -> P k s ->
                 exists s', body k s = Ok s' /\ P (k + 1) s') ->
    exists s', for_loop n i body s = Ok s' /\ P (i + Z.of_nat n) s'.
Proof.
  induction n as [|n IH]; intros i s HP Hbody.
  - exists s. split; [done|]. by replace (i + Z.of_nat 0) with i by lia.
  - cbn [for_loop].
    destruct (Hbody i s) as (s1 & -> & HP1); [lia|done|].
    rewrite bind_Ok.
    destruct (IH (i + 1) s1 HP1) as (s' & Hs' & HP').
    { intros k s2 Hk. apply Hbody. lia. }
    exists s'. split; [done|].
    by replace (i + Z.of_nat (S n)) with (i + 1 + Z.of_nat n) by lia.
Qed.

(** ** Reset of the table *)

(** After [initDpTable] every cell of the active region is unset. *)
Lemma initDpTable_unset (W : Z) (dp : table) :
  W <= FRECHET_WINDOW -> wf_table dp = true ->
  exists dp0,
    initDpTable W dp = Ok dp0 /\ wf_table dp0 = true /\
    forall i j, 0 <= i < W -> 0 <= j < W -> get2 dp0 i j = Ok F32.neg_one.
Proof.
  intros HW Hwf. unfold initDpTable.
  set (n := Z.to_nat W).
  pose (P := fun (i : Z) (t : table) =>
    wf_table t = true /\
    forall i' j', 0 <= i' < i -> 0 <= j' < W -> get2 t i' j' = Ok F32.neg_one).
  destruct (for_loop_inv P
    (fun i t => for_loop n 0 (fun j t => set2 t i j F32.neg_one) t) n 0 dp)
    as (dp0 & Hrun & Hwf0 & Hcells).
  - split; [done|]. intros; lia.
  - intros i t Hi [Hwft Ht].
    pose (Q := fun (j : Z) (t : table) =>
      wf_table t = true /\
      (forall i' j', 0 <= i' < i -> 0 <= j' < W -> get2 t i' j' = Ok F32.neg_one) /\
      (forall j', 0 <= j' < j -> get2 t i j' = Ok F32.neg_one)).
    destruct (for_loop_inv Q (fun j t => set2 t i j F32.neg_one) n 0 t)
      as (t' & Hrun' & Hwf' & Hrows & Hrow).
    + split; [done|]. split; [done|]. intros; lia.
    + intros j t1 Hj (Hwf1 & Hrows1 & Hrow1).
      destruct (set2_Ok _ _ t1 i j F32.neg_one Hwf1) as (t2 & -> & Hwf2 & Hget & Hother);
        [lia..|].
      exists t2. split; [done|]. split; [done|]. split.
      * intros i' j' Hi' Hj'. rewrite Hother; [by apply Hrows1| |lia..].
        intros [= -> ->]. lia.
      * intros j' Hj'. destruct (decide (j' = j)) as [->|Hne]; [done|].
        rewrite Hother; [apply Hrow1; lia| |lia..].
        intros [= ->]. done.
    + exists t'. split; [done|]. split; [done|].
      intros i' j' Hi' Hj'. destruct (decide (i' = i)) as [->|Hne].
      * apply Hrow. lia.
      * apply Hrows; lia.
  - exists dp0. split; [done|]. split; [done|].
    intros i j Hi Hj. apply Hcells; lia.
Qed.

(** ** The engine computes the recurrence *)

Lemma frechetEngine_F (fuel : nat) (A B : list float) (W : Z) (dp : table) :
  1 <= W <= FRECHET_WINDOW ->
  W <= Z.of_nat (length A) -> W <= Z.of_nat (length B) ->
  wf_table dp = true ->
  (Z.to_nat (2 * W) <= fuel)%nat ->
  exists dp',
    frechetEngine fuel A B W dp
    = Ok (Spec.F A B (Z.to_nat (W - 1)) (Z.to_nat (W - 1)), dp') /\
    wf_table dp' = true.
Proof.
  intros HW HA HB Hwf Hfuel. unfold frechetEngine.
  destruct (initDpTable_unset W dp) as (dp0 & -> & Hwf0 & Hunset); [lia|done|].
  rewrite bind_Ok.
  destruct (frechetDP_memo A B W) with (fuel := fuel) (i := W - 1) (j := W - 1) (dp := dp0)
    as (dp' & Hrun & Hinv'); try lia.
  - split; [done|]. intros i j Hi Hj. left. by apply Hunset.
  - exists dp'. split; [done|]. apply Hinv'.
Qed.

(** ** Binary32 arithmetic *)

Section Rounding.

Variables prec emax : Z.

Lemma shr_1_nonneg mrs : 0 <= shr_m mrs -> 0 <= shr_m (shr_1 mrs).
Proof. destruct mrs as [[|[p|p|]|p] r s]; simpl; lia. Qed.

Lemma iter_pos_inv {T} (P : T -> Prop) (f : T -> T) :
  (forall x, P x -> P (f x)) -> forall p x, P x -> P (SpecFloat.iter_pos f p x).
Proof.
  intros Hf. induction p as [p IH|p IH|]; intros x Hx; simpl; auto.
Qed.

Lemma shr_nonneg mrs e n : 0 <= shr_m mrs -> 0 <= shr_m (fst (shr mrs e n)).
Proof.
  intros H. destruct n as [|p|p]; simpl; try done.
  apply (iter_pos_inv (fun r => 0 <= shr_m r)); [apply shr_1_nonneg|done].
Qed.

Lemma shr_fexp_nonneg m e l :
  0 <= m -> 0 <= shr_m (fst (shr_fexp prec emax m e l)).
Proof.
  intros H. unfold shr_fexp. apply shr_nonneg.
  by destruct l as [|[| |]].
Qed.

Lemma round_nearest_even_nonneg m l : 0 <= m -> 0 <= round_nearest_even m l.
Proof.
  intros H. destruct l as [|[| |]]; simpl; try lia.
  destruct (Z.even m); lia.
Qed.

(** Rounding a non-negative significand never produces a NaN, and the
    sign only labels the result. *)
Lemma binary_round_aux_abs s m e l :
  0 <= m ->
  F32.nonneg (SFabs (binary_round_aux prec emax s m e l)) = true /\
  SFabs (binary_round_aux prec emax s m e l)
  = SFabs (binary_round_aux prec emax (negb s) m e l).
Proof.
  intros H. unfold binary_round_aux.
  pose proof (shr_fexp_nonneg m e l H) as H1.
  destruct (shr_fexp prec emax m e l) as [mrs' e'] eqn:E1. simpl in H1.
  pose proof (shr_fexp_nonneg _ e' loc_Exact
                (round_nearest_even_nonneg _ (loc_of_shr_record mrs') H1)) as H2.
  destruct (shr_fexp prec emax _ e' loc_Exact) as [mrs'' e''] eqn:E2. simpl in H2.
  destruct (shr_m mrs'') as [|p|p]; [done| |lia].
  by destruct (e'' <=? emax - prec).
Qed.

Lemma binary_round_abs s m e :
  F32.nonneg (SFabs (binary_round prec emax s m e)) = true /\
  SFabs (binary_round prec emax s m e) = SFabs (binary_round prec emax (negb s) m e).
Proof.
  unfold binary_round. destruct (shl_align _ _ _) as [mz ez].
  by apply binary_round_aux_abs.
Qed.

Lemma binary_normalize_abs m e :
  F32.nonneg (SFabs (binary_normalize prec emax m e false)) = true /\
  SFabs (binary_normalize prec emax m e false)
  = SFabs (binary_normalize prec emax (- m) e false).
Proof.
  destruct m as [|p|p]; simpl; [done|apply (binary_round_abs false)|apply (binary_round_abs true)].
Qed.

End Rounding.

(** The distance of two finite samples is +0, positive or +infinity. *)
Lemma d_nonneg (x y : float) :
  F32.is_finite x = true -> F32.is_finite y = true -> F32.nonneg (Spec.d x y) = true.
Proof.
  unfold Spec.d, F32.abs, F32.sub.
  destruct x as [sx|sx| |sx mx ex], y as [sy|sy| |sy my ey]; try discriminate; intros _ _.
  - by destruct sx, sy.
  - done.
  - done.
  - apply binary_normalize_abs.
Qed.

(** The distance does not depend on the order of its arguments. *)
Lemma d_sym (x y : float) : Spec.d x y = Spec.d y x.
Proof.
  unfold Spec.d, F32.abs, F32.sub.
  destruct x as [sx|sx| |sx mx ex], y as [sy|sy| |sy my ey]; try done;
    try (by destruct sx, sy).
  cbn [SFsub]. rewrite (Z.min_comm ey ex).
  rewrite (proj2 (binary_normalize_abs _ _ _ _)). f_equal. f_equal. lia.
Qed.

(** A finite sample is at distance +0 from itself. *)
Lemma d_refl (x : float) : F32.is_finite x = true -> Spec.d x x = F32.zero.
Proof.
  unfold Spec.d, F32.abs, F32.sub.
  destruct x as [sx|sx| |sx mx ex]; try discriminate; intros _.
  - by destruct sx.
  - cbn [SFsub]. by rewrite Z.sub_diag.
Qed.

(** ** The order of non-negative floats *)

Lemma SFltb_finite m1 e1 m2 e2 :
  SFltb (S754_finite false m1 e1) (S754_finite false m2 e2) = true <->
  e1 < e2 \/ (e1 = e2 /\ (m1 < m2)%positive).
Proof.
  unfold SFltb, SFcompare. fold (Pos.compare m1 m2).
  destruct (Z.compare_spec e1 e2), (Pos.compare_spec m1 m2);
    split; (discriminate || lia || done).
Qed.

(** Two non-negative floats are equal or one is strictly below the other. *)
Lemma nonneg_trichotomy (a b : float) :
  F32.nonneg a = true -> F32.nonneg b = true ->
  (SFltb a b = true /\ SFltb b a = false) \/
  (a = b /\ SFltb a b = false) \/
  (SFltb b a = true /\ SFltb a b = false).
Proof.
  destruct a as [[]|[]| |[] m1 e1], b as [[]|[]| |[] m2 e2]; try discriminate;
    intros _ _; try (by left); try (by right; left); try (by right; right).
  pose proof (SFltb_finite m1 e1 m2 e2) as H12.
  pose proof (SFltb_finite m2 e2 m1 e1) as H21.
  destruct (SFltb (S754_finite false m1 e1) (S754_finite false m2 e2)),
           (SFltb (S754_finite false m2 e2) (S754_finite false m1 e1)).
  - exfalso. destruct H12 as [H12 _], H21 as [H21 _]. specialize (H12 eq_refl).
    specialize (H21 eq_refl). lia.
  - by left.
  - by right; right.
  - right; left. split; [|done].
    destruct (Z.compare_spec e1 e2) as [He|He|He].
    + destruct (Pos.compare_spec m1 m2) as [Hm|Hm|Hm]; [by subst| |].
      * destruct H12 as [_ H12]. discriminate H12. by right.
      * destruct H21 as [_ H21]. discriminate H21. by right.
    + destruct H12 as [_ H12]. discriminate H12. by left.
    + destruct H21 as [_ H21]. discriminate H21. by left.
Qed.

Lemma nonneg_lt_trans (a b c : float) :
  F32.nonneg a = true -> F32.nonneg b = true -> F32.nonneg c = true ->
  SFltb a b = true -> SFltb b c = true -> SFltb a c = true.
Proof.
  destruct a as [[]|[]| |[] m1 e1], b as [[]|[]| |[] m2 e2], c as [[]|[]| |[] m3 e3];
    try discriminate; intros _ _ _; try done.
  rewrite !SFltb_finite. lia.
Qed.

Lemma min_nonneg (a b : float) :
  F32.nonneg a = true -> F32.nonneg b = true -> F32.nonneg (min a b) = true.
Proof. intros Ha Hb. unfold min. by destruct (F32.lt a b). Qed.

Lemma max_nonneg (a b : float) :
  F32.nonneg a = true -> F32.nonneg b = true -> F32.nonneg (max a b) = true.
Proof. intros Ha Hb. unfold max. by destruct (F32.gt a b). Qed.

Lemma min_comm (a b : float) :
  F32.nonneg a = true -> F32.nonneg b = true -> min a b = min b a.
Proof.
  intros Ha Hb. unfold min, F32.lt.
  destruct (nonneg_trichotomy a b Ha Hb) as [[-> ->]|[[-> ->]|[-> ->]]]; done.
Qed.

Lemma min_assoc (a b c : float) :
  F32.nonneg a = true -> F32.nonneg b = true -> F32.nonneg c = true ->
  min a (min b c) = min (min a b) c.
Proof.
  intros Ha Hb Hc. unfold min, F32.lt.
  destruct (nonneg_trichotomy a b Ha Hb) as [[Hab Hba]|[[Eab Hab]|[Hba Hab]]];
  destruct (nonneg_trichotomy b c Hb Hc) as [[Hbc Hcb]|[[Ebc Hbc]|[Hcb Hbc]]];
  destruct (nonneg_trichotomy a c Ha Hc) as [[Hac Hca]|[[Eac Hac]|[Hca Hac]]];
    subst; try congruence;
    try (match goal with
         | Hxy : SFltb ?x ?y = true, Hyz : SFltb ?y ?z = true,
           Hxz : SFltb ?x ?z = false |- _ =>
           rewrite (nonneg_lt_trans x y z) in Hxz by done; discriminate
         end);
    repeat match goal with
           | H : SFltb ?x ?y = _ |- context [SFltb ?x ?y] => rewrite H
           end; done.
Qed.

(** The three-cell minimum does not depend on the order of the cells. *)
Lemma min3_swap (a b c : float) :
  F32.nonneg a = true -> F32.nonneg b = true -> F32.nonneg c = true ->
  Spec.min3 a b c = Spec.min3 c b a.
Proof.
  intros Ha Hb Hc. rewrite !min3_min.
  rewrite (min_comm b c), (min_comm a (min c b)) by auto using min_nonneg.
  symmetry. apply min_assoc; auto.
Qed.

Lemma min3_nonneg (a b c : float) :
  F32.nonneg a = true -> F32.nonneg b = true -> F32.nonneg c = true ->
  F32.nonneg (Spec.min3 a b c) = true.
Proof. intros. rewrite !min3_min. auto using min_nonneg. Qed.

Lemma min_zero_l (a : float) : F32.nonneg a = true -> min F32.zero a = F32.zero.
Proof. by destruct a as [[]|[]| |[] m e]. Qed.

Lemma min_zero_r (a : float) : F32.nonneg a = true -> min a F32.zero = F32.zero.
Proof. by destruct a as [[]|[]| |[] m e]. Qed.

(** ** The recurrence on finite curves *)

Lemma forallb_lookup {T} (p : T -> bool) (l : list T) (k : nat) (x : T) :
  forallb p l = true -> l !! k = Some x -> p x = true.
Proof.
  rewrite forallb_forall. intros H Hk. apply H, list_elem_of_In.
  by eapply list_elem_of_lookup_2.
Qed.

Lemma pt_finite (c : list float) (k : nat) :
  finite_curve c = true -> F32.is_finite (Spec.pt c k) = true.
Proof.
  intros Hc. unfold Spec.pt. destruct (c !! k) as [x|] eqn:Hk; [|done].
  by apply (forallb_lookup _ _ _ _ Hc Hk).
Qed.

Section FiniteCurves.

Variables A B : list float.
Hypothesis HA : finite_curve A = true.
Hypothesis HB : finite_curve B = true.

Lemma d_pt_nonneg i j : F32.nonneg (Spec.d (Spec.pt A i) (Spec.pt B j)) = true.
Proof using HA HB. apply d_nonneg; by apply pt_finite. Qed.

(** Every cell is +0, positive or +infinity: never a NaN. *)
Lemma F_nonneg i : forall j, F32.nonneg (Spec.F A B i j) = true.
Proof using HA HB.
  induction i as [|i IHi]; induction j as [|j IHj].
  - apply d_pt_nonneg.
  - rewrite F_0_S. apply max_nonneg; [done|apply d_pt_nonneg].
  - rewrite F_S_0. apply max_nonneg; [done|apply d_pt_nonneg].
  - rewrite F_S_S. apply max_nonneg; [|apply d_pt_nonneg].
    by apply min3_nonneg.
Qed.

End FiniteCurves.

(** Exchanging the curves transposes the table. *)
Lemma F_transpose (A B : list float) :
  finite_curve A = true -> finite_curve B = true ->
  forall i j, Spec.F A B i j = Spec.F B A j i.
Proof.
  intros HA HB. induction i as [|i IHi]; induction j as [|j IHj].
  - apply d_sym.
  - rewrite F_0_S, F_S_0, IHj. f_equal. apply d_sym.
  - rewrite F_S_0, F_0_S, IHi. f_equal. apply d_sym.
  - rewrite !F_S_S, (d_sym (Spec.pt A (S i))).
    rewrite (IHi (S j)), (IHi j), IHj. f_equal.
    apply min3_swap; by apply F_nonneg.
Qed.

(** The diagonal of the table of a curve with itself is +0. *)
Lemma F_diag (A : list float) :
  finite_curve A = true -> forall i, Spec.F A A i i = F32.zero.
Proof.
  intros HA. induction i as [|i IHi].
  - rewrite F_0_0. by apply d_refl, pt_finite.
  - rewrite F_S_S, IHi, d_refl by by apply pt_finite.
    rewrite !min3_min.
    rewrite min_zero_l, min_zero_r by by apply F_nonneg.
    reflexivity.
Qed.

(** ** Ring-buffer indices *)

Lemma windowIndex_bounds (di W i : Z) :
  0 <= di < HISTORY_SIZE -> W <= FRECHET_WINDOW -> 0 <= i < W ->
  0 <= di - W + 1 + i + HISTORY_SIZE /\
  0 <= windowIndex di W i < HISTORY_SIZE /\
  windowIndex di W i = (di - (W - 1 - i)) mod HISTORY_SIZE.
Proof.
  unfold windowIndex, HISTORY_SIZE, FRECHET_WINDOW. intros Hdi HW Hi.
  split; [lia|]. rewrite Z.rem_mod_nonneg by lia.
  split; [apply Z.mod_pos_bound; lia|].
  replace (di - W + 1 + i + 50) with (di - (W - 1 - i) + 1 * 50) by lia.
  apply Z_mod_plus_full.
Qed.

(** ** Extraction *)

Lemma extractWindow_spec (cd : list (list float)) (di ch1 ch2 W : Z) :
  wf_channelData cd = true -> 0 <= di < HISTORY_SIZE ->
  0 <= ch1 < NUM_CHANNELS -> 0 <= ch2 < NUM_CHANNELS -> W <= FRECHET_WINDOW ->
  exists c1 c2,
    extractWindow cd di ch1 ch2 W = Ok (c1, c2) /\
    length c1 = Z.to_nat W /\ length c2 = Z.to_nat W /\
    forall i x, 0 <= i < W ->
      (c1 !! Z.to_nat i = Some x <-> get2 cd ch1 (windowIndex di W i) = Ok x) /\
      (c2 !! Z.to_nat i = Some x <-> get2 cd ch2 (windowIndex di W i) = Ok x).
Proof.
  intros Hwf Hdi Hch1 Hch2 HW. unfold extractWindow.
  pose (P := fun (k : Z) (c : list float * list float) =>
    length c.1 = Z.to_nat k /\ length c.2 = Z.to_nat k /\
    forall i x, 0 <= i < k ->
      (c.1 !! Z.to_nat i = Some x <-> get2 cd ch1 (windowIndex di W i) = Ok x) /\
      (c.2 !! Z.to_nat i = Some x <-> get2 cd ch2 (windowIndex di W i) = Ok x)).
  edestruct (for_loop_inv P) as ([c1 c2] & Hrun & Hl1 & Hl2 & Hc); cycle 2.
  - exists c1, c2. split; [exact Hrun|]. simpl in *.
    split; [lia|]. split; [lia|].
    intros i x Hi. apply Hc. lia.
  - repeat split; intros; simpl in *; lia.
  - intros k [c1 c2] Hk (Hl1 & Hl2 & Hc). simpl in *.
    destruct (windowIndex_bounds di W k) as (_ & Hidx & _); [lia..|].
    destruct (get2_Ok _ _ cd ch1 (windowIndex di W k) Hwf) as [x1 Hx1]; [lia..|].
    destruct (get2_Ok _ _ cd ch2 (windowIndex di W k) Hwf) as [x2 Hx2]; [lia..|].
    rewrite Hx1, bind_Ok, Hx2, bind_Ok.
    eexists; split; [reflexivity|]. unfold P; simpl.
    rewrite !length_app; simpl. split; [lia|]. split; [lia|].
    intros i x Hi. destruct (decide (i = k)) as [->|Hne].
    + rewrite !lookup_app_r by lia.
      replace (Z.to_nat k - length c1)%nat with 0%nat by lia.
      replace (Z.to_nat k - length c2)%nat with 0%nat by lia.
      simpl. rewrite Hx1, Hx2. split; split; congruence.
    + rewrite !lookup_app_l by lia. apply Hc. lia.
Qed.

(** ** One distance computation *)

Lemma wf_state_spec (st : state) :
  wf_state st = true <->
  wf_channelData (channelData st) = true /\
  length (frechetDistances st) = Z.to_nat NUM_CHANNELS /\
  0 <= dataIndex st < HISTORY_SIZE /\
  wf_table (dpTable st) = true.
Proof.
  unfold wf_state. rewrite !andb_true_iff, Nat.eqb_eq, Z.leb_le, Z.ltb_lt. tauto.
Qed.

Lemma actualWindow_le (windowSize : Z) : actualWindow windowSize <= FRECHET_WINDOW.
Proof. unfold actualWindow, FRECHET_WINDOW, HISTORY_SIZE. lia. Qed.

(** Below one sample the engine touches nothing and answers +infinity. *)
Lemma frechetEngine_empty (fuel : nat) (c1 c2 : list float) (W : Z) (dp : table) :
  W < 1 -> (0 < fuel)%nat ->
  frechetEngine fuel c1 c2 W dp = Ok (F32.INFINITY, dp).
Proof.
  intros HW Hfuel. unfold frechetEngine, initDpTable.
  replace (Z.to_nat W) with 0%nat by lia. cbn [for_loop]. rewrite bind_Ok.
  destruct fuel as [|fuel]; [lia|]. cbn [frechetDP].
  destruct (Z.ltb_spec (W - 1) 0); [done|lia].
Qed.

Lemma discreteFrechetDistance_spec (fuel : nat) (ch1 ch2 windowSize : Z) (st : state) :
  wf_state st = true ->
  0 <= ch1 < NUM_CHANNELS -> 0 <= ch2 < NUM_CHANNELS ->
  (enough_fuel <= fuel)%nat ->
  let W := actualWindow windowSize in
  exists c1 c2 r dp',
    extractWindow (channelData st) (dataIndex st) ch1 ch2 W = Ok (c1, c2) /\
    length c1 = Z.to_nat W /\ length c2 = Z.to_nat W /\
    frechetEngine fuel c1 c2 W (dpTable st) = Ok (r, dp') /\
    discreteFrechetDistance fuel ch1 ch2 windowSize st
    = Ok (r, set_dpTable dp' (log_call (ch1, ch2, windowSize) st)) /\
    wf_table dp' = true /\
    r = (if W <? 1 then F32.INFINITY
         else Spec.F c1 c2 (Z.to_nat (W - 1)) (Z.to_nat (W - 1))).
Proof.
  intros (Hcd & Hfd & Hdi & Hdp)%wf_state_spec Hch1 Hch2 Hfuel W.
  pose proof (actualWindow_le windowSize) as HW. fold W in HW.
  destruct (extractWindow_spec (channelData st) (dataIndex st) ch1 ch2 W)
    as (c1 & c2 & Hex & Hl1 & Hl2 & _); [done..|].
  assert (exists r dp', frechetEngine fuel c1 c2 W (dpTable st) = Ok (r, dp') /\
            wf_table dp' = true /\
            r = (if W <? 1 then F32.INFINITY
                 else Spec.F c1 c2 (Z.to_nat (W - 1)) (Z.to_nat (W - 1))))
    as (r & dp' & Hen & Hwf' & Hr).
  { unfold enough_fuel, FRECHET_WINDOW in *.
    destruct (Z.ltb_spec W 1) as [Hlt|Hge].
    - exists F32.INFINITY, (dpTable st). split; [|done].
      apply frechetEngine_empty; lia.
    - destruct (frechetEngine_F fuel c1 c2 W (dpTable st)) as (dp' & Hen & Hwf');
        unfold FRECHET_WINDOW; [lia..|done|lia|].
      by exists (Spec.F c1 c2 (Z.to_nat (W - 1)) (Z.to_nat (W - 1))), dp'. }
  exists c1, c2, r, dp'. repeat (split; [done|]). split; [|done].
  unfold discreteFrechetDistance. cbn [log_call channelData dataIndex dpTable].
  fold W. by rewrite Hex, bind_Ok, Hen, bind_Ok.
Qed.

(** ** Sampling *)

Lemma sampleChannels_spec (analogRead : list Z) (st : state) :
  wf_state st = true -> NUM_CHANNELS <= Z.of_nat (length analogRead) ->
  exists cd',
    sampleChannels analogRead st = Ok (set_channelData cd' st) /\
    wf_channelData cd' = true /\
    forall ch idx, 0 <= ch < NUM_CHANNELS -> 0 <= idx ->
      get2 cd' ch idx =
      if idx =? dataIndex st then Ok (voltage (rawOf analogRead ch))
      else get2 (channelData st) ch idx.
Proof.
  intros (Hcd & Hfd & Hdi & Hdp)%wf_state_spec Hlen. unfold sampleChannels.
  pose (P := fun (k : Z) (cd' : list (list float)) =>
    wf_channelData cd' = true /\
    forall ch idx, 0 <= ch -> 0 <= idx ->
      get2 cd' ch idx =
      if (ch <? k) && (idx =? dataIndex st) then Ok (voltage (rawOf analogRead ch))
      else get2 (channelData st) ch idx).
  edestruct (for_loop_inv P) as (cd' & Hrun & Hwf' & Hcells); cycle 2.
  - rewrite Hrun, bind_Ok. exists cd'. split; [done|]. split; [done|].
    intros ch idx Hch Hidx. rewrite Hcells by lia.
    destruct (Z.ltb_spec ch (0 + Z.of_nat (Z.to_nat NUM_CHANNELS))); [done|lia].
  - split; [done|]. intros ch idx Hch Hidx.
    destruct (Z.ltb_spec ch 0); [lia|done].
  - intros k cd1 Hk [Hwf1 Hc1]. cbn beta.
    destruct (arr_get_Ok analogRead k) as (rawValue & -> & Hraw); [lia|].
    rewrite bind_Ok.
    destruct (set2_Ok _ _ cd1 k (dataIndex st) (voltage rawValue) Hwf1)
      as (cd2 & -> & Hwf2 & Hget & Hother); [lia..|].
    exists cd2. split; [done|]. split; [done|].
    intros ch idx Hch Hidx.
    destruct (decide ((ch, idx) = (k, dataIndex st))) as [[= -> ->]|Hne].
    + rewrite Hget. destruct (Z.ltb_spec k (k + 1)); [|lia].
      rewrite Z.eqb_refl. simpl. unfold rawOf. by rewrite Hraw.
    + rewrite Hother, Hc1 by (done || lia).
      destruct (Z.ltb_spec ch k), (Z.ltb_spec ch (k + 1)), (Z.eqb_spec idx (dataIndex st));
        simpl; try done; try lia.
      exfalso. apply Hne. f_equal; lia.
Qed.

(** ** The orchestrator *)

Lemma calculateDiscreteFrechetDistances_low (fuel : nat) (st : state) :
  wf_state st = true -> orchestratorWindow (dataIndex st) < 3 ->
  calculateDiscreteFrechetDistances fuel st
  = Ok (set_frechetDistances (replicate (Z.to_nat NUM_CHANNELS) F32.zero) st).
Proof.
  intros (Hcd & Hfd & Hdi & Hdp)%wf_state_spec Hlow.
  unfold calculateDiscreteFrechetDistances.
  destruct (Z.ltb_spec (orchestratorWindow (dataIndex st)) 3); [|lia].
  destruct (frechetDistances st) as [|a [|b [|c [|d [|]]]]]; try discriminate.
  reflexivity.
Qed.

Lemma calculateDiscreteFrechetDistances_spec (fuel : nat) (st : state) :
  wf_state st = true -> (enough_fuel <= fuel)%nat ->
  exists st',
    calculateDiscreteFrechetDistances fuel st = Ok st' /\
    wf_state st' = true /\
    channelData st' = channelData st /\ dataIndex st' = dataIndex st.
Proof.
  intros Hwf Hfuel.
  destruct (Z.lt_ge_cases (orchestratorWindow (dataIndex st)) 3) as [Hlow|Hhigh].
  { rewrite calculateDiscreteFrechetDistances_low by done.
    eexists; split; [reflexivity|]. split; [|done].
    apply wf_state_spec in Hwf as (Hcd & Hfd & Hdi & Hdp).
    apply wf_state_spec.
    cbn [set_frechetDistances channelData frechetDistances dataIndex dpTable].
    by rewrite length_replicate. }
  unfold calculateDiscreteFrechetDistances.
  destruct (Z.ltb_spec (orchestratorWindow (dataIndex st)) 3); [lia|].
  pose (P := fun (k : Z) (st' : state) =>
    wf_state st' = true /\
    channelData st' = channelData st /\ dataIndex st' = dataIndex st).
  edestruct (for_loop_inv P) as (st' & Hrun & Hwf' & Hcd' & Hdi'); cycle 2.
  - rewrite Hrun, bind_Ok.
    apply wf_state_spec in Hwf' as (Hcd1 & Hfd1 & Hdi1 & Hdp1).
    rewrite arr_set_Ok by (rewrite Hfd1; unfold NUM_CHANNELS; lia).
    rewrite bind_Ok. eexists; split; [reflexivity|]. split; [|done].
    apply wf_state_spec.
    cbn [set_frechetDistances channelData frechetDistances dataIndex dpTable].
    by rewrite length_insert.
  - done.
  - intros k st1 Hk (Hwf1 & Hcd1 & Hdi1). cbn beta.
    destruct (discreteFrechetDistance_spec fuel k (k + 1)
                (orchestratorWindow (dataIndex st)) st1 Hwf1)
      as (c1 & c2 & r & dp' & _ & _ & _ & _ & -> & Hwfdp & _);
      [unfold NUM_CHANNELS in *; lia..|done|].
    rewrite bind_Ok.
    apply wf_state_spec in Hwf1 as (Hcd2 & Hfd2 & Hdi2 & Hdp2).
    cbn [set_dpTable log_call frechetDistances].
    rewrite arr_set_Ok by (rewrite Hfd2; unfold NUM_CHANNELS in *; lia).
    rewrite bind_Ok. eexists; split; [reflexivity|].
    split; [|done]. apply wf_state_spec.
    cbn [set_frechetDistances channelData frechetDistances dataIndex dpTable].
    by rewrite length_insert.
Qed.

(** ** The sampling history *)

Lemma mod_slot_inj (t n : nat) :
  (t <= n)%nat -> (n - t < Z.to_nat HISTORY_SIZE)%nat ->
  Z.of_nat t mod HISTORY_SIZE = Z.of_nat n mod HISTORY_SIZE -> t = n.
Proof.
  unfold HISTORY_SIZE. intros Hle Hlt Hmod.
  assert (H : (Z.of_nat n - Z.of_nat t) mod 50 = 0).
  { rewrite Zminus_mod, Hmod, Z.sub_diag. reflexivity. }
  rewrite Z.mod_small in H by lia. lia.
Qed.

Lemma sampleChannels_hist (input : nat -> list Z) (n : nat) (st : state) :
  hist_inv input n st ->
  NUM_CHANNELS <= Z.of_nat (length (input n)) ->
  exists st1, sampleChannels (input n) st = Ok st1 /\ sampled_inv input n st1 /\
    frechetDistances st1 = frechetDistances st /\ dpTable st1 = dpTable st /\
    engineCalls st1 = engineCalls st.
Proof.
  intros (Hwf & Hdi & Hhist) Hlen.
  destruct (sampleChannels_spec (input n) st Hwf Hlen) as (cd' & -> & Hwf' & Hcells).
  eexists; split; [reflexivity|]. split; [|done].
  apply wf_state_spec in Hwf as (Hcd & Hfd & Hdi' & Hdp).
  split; [|split].
  - by apply wf_state_spec.
  - done.
  - intros t ch Ht Hrecent Hch. cbn [set_channelData channelData].
    rewrite Hcells by (done || apply Z.mod_pos_bound; unfold HISTORY_SIZE; lia).
    rewrite Hdi.
    destruct (Z.eqb_spec (Z.of_nat t mod HISTORY_SIZE) (Z.of_nat n mod HISTORY_SIZE))
      as [Heq|Hne].
    + by rewrite (mod_slot_inj t n Ht Hrecent Heq).
    + apply Hhist; [|lia|done].
      destruct (decide (t = n)) as [->|]; [done|lia].
Qed.

Lemma tick_hist (fuel : nat) (input : nat -> list Z) (n : nat) (st : state) :
  hist_inv input n st ->
  NUM_CHANNELS <= Z.of_nat (length (input n)) ->
  (enough_fuel <= fuel)%nat ->
  exists st', tick fuel (input n) st = Ok st' /\ hist_inv input (S n) st'.
Proof.
  intros Hinv Hlen Hfuel. unfold tick.
  destruct (sampleChannels_hist input n st Hinv Hlen)
    as (st1 & -> & (Hwf1 & Hdi1 & Hhist1) & _).
  rewrite bind_Ok.
  destruct (calculateDiscreteFrechetDistances_spec fuel st1 Hwf1 Hfuel)
    as (st2 & -> & Hwf2 & Hcd2 & Hdi2).
  rewrite bind_Ok. eexists; split; [reflexivity|].
  assert (Hnext : Z.rem (dataIndex st2 + 1) HISTORY_SIZE
                  = Z.of_nat (S n) mod HISTORY_SIZE).
  { rewrite Hdi2, Hdi1. unfold HISTORY_SIZE.
    pose proof (Z.mod_pos_bound (Z.of_nat n) 50).
    rewrite Z.rem_mod_nonneg by lia.
    rewrite Nat2Z.inj_succ. unfold Z.succ.
    rewrite (Z.add_mod (Z.of_nat n) 1) by lia. reflexivity. }
  apply wf_state_spec in Hwf2 as (Hcd & Hfd & Hdi & Hdp).
  split; [|split].
  - apply wf_state_spec. cbn [set_dataIndex channelData frechetDistances dataIndex dpTable].
    repeat (split; [done|]). split; [|done].
    rewrite Hnext. apply Z.mod_pos_bound. unfold HISTORY_SIZE. lia.
  - done.
  - intros t ch Ht Hrecent Hch. cbn [set_dataIndex channelData]. rewrite Hcd2.
    apply Hhist1; [lia|lia|done].
Qed.

Lemma setup_hist (input : nat -> list Z) : hist_inv input 0 setup.
Proof. split; [reflexivity|]. split; [reflexivity|]. intros; lia. Qed.

Lemma run_hist (fuel : nat) (input : nat -> list Z) (n : nat) :
  (forall t, NUM_CHANNELS <= Z.of_nat (length (input t))) ->
  (enough_fuel <= fuel)%nat ->
  exists st, run fuel input n setup = Ok st /\ hist_inv input n st.
Proof.
  intros Hlen Hfuel. induction n as [|n (st & Hrun & Hinv)].
  - exists setup. split; [done|apply setup_hist].
  - cbn [run]. rewrite Hrun, bind_Ok. by apply tick_hist.
Qed.

(** ** Termination *)

Lemma frechetDP_total (A B : list float) (W : Z) (fuel : nat) : forall i j dp,
  W <= FRECHET_WINDOW ->
  W <= Z.of_nat (length A) -> W <= Z.of_nat (length B) ->
  wf_table dp = true ->
  0 <= i < W -> 0 <= j < W -> (Z.to_nat (i + j) < fuel)%nat ->
  exists r dp', frechetDP fuel A B i j W dp = Ok (r, dp') /\ wf_table dp' = true.
Proof.
  induction fuel as [|fuel IH]; intros i j dp HW HA HB Hwf Hi Hj Hfuel; [lia|].
  cbn [frechetDP].
  destruct (Z.ltb_spec i 0); [lia|]. destruct (Z.ltb_spec j 0); [lia|].
  cbn [orb].
  destruct (get2_Ok _ _ dp i j Hwf) as [memo ->]; [lia..|].
  rewrite bind_Ok.
  destruct (F32.ge memo F32.zero); [by exists memo, dp|].
  destruct (arr_get_Ok A i) as (a & -> & _); [lia|].
  destruct (arr_get_Ok B j) as (b & -> & _); [lia|].
  rewrite !bind_Ok.
  assert (Hfin : forall dp1 v, wf_table dp1 = true ->
    exists r dp',
      (dp'0 ← set2 dp1 i j v; v0 ← get2 dp'0 i j; Ok (v0, dp'0)) = Ok (r, dp') /\
      wf_table dp' = true).
  { intros dp1 v Hwf1.
    destruct (set2_Ok _ _ dp1 i j v Hwf1) as (dp' & -> & Hwf' & Hget & _); [lia..|].
    rewrite bind_Ok, Hget, bind_Ok. by exists v, dp'. }
  destruct (Z.eqb_spec i 0) as [Hi0|Hi0]; destruct (Z.eqb_spec j 0) as [Hj0|Hj0];
    destruct (Z.gtb_spec i 0); destruct (Z.gtb_spec j 0); try lia;
    subst; cbn [andb].
  - by apply Hfin.
  - destruct (IH 0 (j - 1) dp) as (r1 & dp1 & -> & Hwf1); [done..|lia|lia|lia|].
    rewrite bind_Ok. by apply Hfin.
  - destruct (IH (i - 1) 0 dp) as (r1 & dp1 & -> & Hwf1); [done..|lia|lia|lia|].
    rewrite bind_Ok. by apply Hfin.
  - destruct (IH (i - 1) j dp) as (r1 & dp1 & -> & Hwf1); [done..|lia|lia|lia|].
    rewrite bind_Ok.
    destruct (IH (i - 1) (j - 1) dp1) as (r2 & dp2 & -> & Hwf2); [done..|lia|lia|lia|].
    rewrite bind_Ok.
    destruct (IH i (j - 1) dp2) as (r3 & dp3 & -> & Hwf3); [done..|lia|lia|lia|].
    rewrite bind_Ok. by apply Hfin.
Qed.

(** * The claims of the specification *)

(** C1: for curves A and B of equal length W >= 1 (at most the capacity
    of the table), the engine, started on any table, returns the cell
    F(W-1, W-1) of the table F defined by the recurrence of the
    specification with d(x,y) = |x - y|; F is built from the maximum and
    the minimum of the order of binary32 values, not from the helpers
    [max] and [min] of the sketch. *)
Theorem frechetEngine_computes_recurrence
    (fuel : nat) (A B : list float) (W : Z) (dp : table) :
  1 <= W <= FRECHET_WINDOW ->
  Z.of_nat (length A) = W -> Z.of_nat (length B) = W ->
  wf_table dp = true ->
  (Z.to_nat (2 * W) <= fuel)%nat ->
  value (frechetEngine fuel A B W dp)
  = Ok (Spec.F A B (Z.to_nat (W - 1)) (Z.to_nat (W - 1))).
Proof.
  intros HW HA HB Hwf Hfuel.
  destruct (frechetEngine_F fuel A B W dp) as (dp' & -> & _); (done || lia).
Qed.

Lemma frechetEngine_computes_recurrence_witness :
  value (frechetEngine 6 curveA curveB 3 (dpTable setup))
  = Ok (Spec.F curveA curveB (Z.to_nat (3 - 1)) (Z.to_nat (3 - 1))).
Proof.
  apply (frechetEngine_computes_recurrence 6 curveA curveB 3 (dpTable setup));
    [unfold FRECHET_WINDOW; lia | reflexivity | reflexivity | reflexivity | simpl; lia].
Defined.

(** C6: on curves of finite samples the engine is symmetric in its
    arguments: engine(A,B) and engine(B,A) return the same value. *)
Theorem frechetEngine_symmetric
    (fuel : nat) (A B : list float) (W : Z) (dpA dpB : table) :
  1 <= W <= FRECHET_WINDOW ->
  Z.of_nat (length A) = W -> Z.of_nat (length B) = W ->
  finite_curve A = true -> finite_curve B = true ->
  wf_table dpA = true -> wf_table dpB = true ->
  (Z.to_nat (2 * W) <= fuel)%nat ->
  exists r,
    value (frechetEngine fuel A B W dpA) = Ok r /\
    value (frechetEngine fuel B A W dpB) = Ok r.
Proof.
  intros HW HA HB HfA HfB HwfA HwfB Hfuel.
  destruct (frechetEngine_F fuel A B W dpA) as (dp1 & -> & _); try (done || lia).
  destruct (frechetEngine_F fuel B A W dpB) as (dp2 & -> & _); try (done || lia).
  eexists; split; [reflexivity|]. simpl. f_equal. symmetry.
  by apply F_transpose.
Qed.

Lemma frechetEngine_symmetric_witness :
  exists r,
    value (frechetEngine 6 curveA curveB 3 (dpTable setup)) = Ok r /\
    value (frechetEngine 6 curveB curveA 3 (dpTable setup)) = Ok r.
Proof.
  apply (frechetEngine_symmetric 6 curveA curveB 3 (dpTable setup) (dpTable setup));
    [unfold FRECHET_WINDOW; lia | reflexivity | reflexivity | reflexivity
    | reflexivity | reflexivity | reflexivity | simpl; lia].
Defined.

(** C7: for a curve A of W >= 1 finite samples, engine(A,A) is 0. *)
Theorem frechetEngine_identity (fuel : nat) (A : list float) (W : Z) (dp : table) :
  1 <= W <= FRECHET_WINDOW ->
  Z.of_nat (length A) = W ->
  finite_curve A = true ->
  wf_table dp = true ->
  (Z.to_nat (2 * W) <= fuel)%nat ->
  value (frechetEngine fuel A A W dp) = Ok F32.zero.
Proof.
  intros HW HA HfA Hwf Hfuel.
  destruct (frechetEngine_F fuel A A W dp) as (dp1 & -> & _); try (done || lia).
  simpl. f_equal. by apply F_diag.
Qed.

Lemma frechetEngine_identity_witness :
  value (frechetEngine 6 curveB curveB 3 (dpTable setup)) = Ok F32.zero.
Proof.
  apply (frechetEngine_identity 6 curveB 3 (dpTable setup));
    [unfold FRECHET_WINDOW; lia | reflexivity | reflexivity | reflexivity | simpl; lia].
Defined.

(** C8: on A = [1.0, 2.0, 3.0] and B = [1.0, 2.0, 5.0] with W = 3 the
    engine returns exactly 2.0, whatever the table held before. *)
Theorem frechetEngine_scenario (fuel : nat) (dp : table) :
  wf_table dp = true -> (6 <= fuel)%nat ->
  value (frechetEngine fuel curveA curveB 3 dp) = Ok (F32.of_Z 2).
Proof.
  intros Hwf Hfuel.
  destruct (frechetEngine_F fuel curveA curveB 3 dp) as (dp1 & -> & _);
    try (done || (unfold FRECHET_WINDOW; simpl; lia)).
Qed.

Lemma frechetEngine_scenario_witness :
  value (frechetEngine 6 curveA curveB 3 (dpTable setup)) = Ok (F32.of_Z 2).
Proof.
  apply (frechetEngine_scenario 6 (dpTable setup)); [reflexivity | lia].
Defined.

(** C9: a call of [frechetDP] on indices 0 <= i, j < W returns as soon as
    the fuel exceeds i + j, whatever the table holds: every recursive
    call lowers i + j, so the depth of the recursion is at most
    i + j + 1. *)
Theorem frechetDP_terminates
    (fuel : nat) (A B : list float) (W i j : Z) (dp : table) :
  W <= FRECHET_WINDOW ->
  W <= Z.of_nat (length A) -> W <= Z.of_nat (length B) ->
  wf_table dp = true ->
  0 <= i < W -> 0 <= j < W -> (Z.to_nat (i + j) < fuel)%nat ->
  exists r dp', frechetDP fuel A B i j W dp = Ok (r, dp').
Proof.
  intros HW HA HB Hwf Hi Hj Hfuel.
  destruct (frechetDP_total A B W fuel i j dp) as (r & dp' & Hrun & _); try done.
  by exists r, dp'.
Qed.

Lemma frechetDP_terminates_witness :
  frechetDP 4 curveA curveB 2 2 3 unset_table = OutOfFuel /\
  exists r dp', frechetDP 5 curveA curveB 2 2 3 unset_table = Ok (r, dp').
Proof.
  split; [vm_compute; reflexivity|].
  apply (frechetDP_terminates 5 curveA curveB 3 2 2 unset_table);
    [unfold FRECHET_WINDOW; lia | simpl; lia | simpl; lia | reflexivity
    | lia | lia | simpl; lia].
Defined.

Lemma sampled_window (input : nat -> list Z) (n : nat) (st : state) (W ch : Z) (c : list float) :
  sampled_inv input n st ->
  1 <= W <= FRECHET_WINDOW -> W <= Z.of_nat n + 1 -> 0 <= ch < NUM_CHANNELS ->
  length c = Z.to_nat W ->
  (forall i x, 0 <= i < W ->
     (c !! Z.to_nat i = Some x <->
      get2 (channelData st) ch (windowIndex (dataIndex st) W i) = Ok x)) ->
  c = recent input n W ch.
Proof.
  intros (Hwf & Hdi & Hhist) HW Hn Hch Hlen Hc.
  apply wf_state_spec in Hwf as (_ & _ & Hdi' & _).
  apply list_eq. intros k. unfold recent. rewrite list_lookup_fmap.
  destruct (decide (k < Z.to_nat W)%nat) as [Hk|Hk].
  - rewrite lookup_seq_lt by done. simpl.
    specialize (Hc (Z.of_nat k) (voltage (rawOf (input (n + 1 - Z.to_nat W + k)%nat) ch))).
    rewrite Nat2Z.id in Hc. apply Hc; [lia|].
    destruct (windowIndex_bounds (dataIndex st) W (Z.of_nat k)) as (_ & _ & ->);
      [done|lia|lia|].
    rewrite Hdi, Zminus_mod_idemp_l.
    replace (Z.of_nat n - (W - 1 - Z.of_nat k))
      with (Z.of_nat (n + 1 - Z.to_nat W + k)) by lia.
    apply Hhist; [lia| unfold HISTORY_SIZE, FRECHET_WINDOW in *; lia |done].
  - rewrite lookup_seq_ge by lia. simpl. apply lookup_ge_None. lia.
Qed.

(** C3: once tick [n] has sampled, the curve extracted for an effective
    window W (at least 1, at most the samples collected) is made of the W
    most recent samples, the one written W-1 ticks ago first and the one
    of tick [n] last; every ring-buffer index is the remainder of a
    non-negative number and lies inside the buffer. *)
Theorem extractWindow_most_recent
    (fuel : nat) (input : nat -> list Z) (n : nat) (ch1 ch2 windowSize : Z) :
  (forall t, NUM_CHANNELS <= Z.of_nat (length (input t))) ->
  (enough_fuel <= fuel)%nat ->
  0 <= ch1 < NUM_CHANNELS -> 0 <= ch2 < NUM_CHANNELS ->
  1 <= actualWindow windowSize -> actualWindow windowSize <= Z.of_nat n + 1 ->
  exists st st1,
    run fuel input n setup = Ok st /\
    sampleChannels (input n) st = Ok st1 /\
    extractWindow (channelData st1) (dataIndex st1) ch1 ch2 (actualWindow windowSize)
    = Ok (recent input n (actualWindow windowSize) ch1,
          recent input n (actualWindow windowSize) ch2) /\
    forall i, 0 <= i < actualWindow windowSize ->
      0 <= dataIndex st1 - actualWindow windowSize + 1 + i + HISTORY_SIZE /\
      0 <= windowIndex (dataIndex st1) (actualWindow windowSize) i < HISTORY_SIZE /\
      windowIndex (dataIndex st1) (actualWindow windowSize) i
      = (Z.of_nat n - (actualWindow windowSize - 1 - i)) mod HISTORY_SIZE.
Proof.
  intros Hlen Hfuel Hch1 Hch2 HW1 HWn.
  pose proof (actualWindow_le windowSize) as HW.
  destruct (run_hist fuel input n Hlen Hfuel) as (st & Hrun & Hinv).
  destruct (sampleChannels_hist input n st Hinv (Hlen n)) as (st1 & Hs & Hinv1 & _).
  exists st, st1. split; [done|]. split; [done|].
  pose proof Hinv1 as (Hwf1 & Hdi1 & _).
  apply wf_state_spec in Hwf1 as (Hcd & _ & Hdi & _).
  destruct (extractWindow_spec (channelData st1) (dataIndex st1) ch1 ch2
              (actualWindow windowSize)) as (c1 & c2 & -> & Hl1 & Hl2 & Hc); [done..|].
  split.
  - f_equal. f_equal.
    + apply (sampled_window input n st1); try done. intros i x Hi. by apply Hc.
    + apply (sampled_window input n st1); try done. intros i x Hi. by apply Hc.
  - intros i Hi.
    destruct (windowIndex_bounds (dataIndex st1) (actualWindow windowSize) i)
      as (H1 & H2 & H3); [done..|].
    split; [done|]. split; [done|].
    by rewrite H3, Hdi1, Zminus_mod_idemp_l.
Qed.

Lemma extractWindow_most_recent_witness :
  exists st st1,
    run enough_fuel demo_input 12 setup = Ok st /\
    sampleChannels (demo_input 12) st = Ok st1 /\
    extractWindow (channelData st1) (dataIndex st1) 0 1 (actualWindow 5)
    = Ok (recent demo_input 12 (actualWindow 5) 0,
          recent demo_input 12 (actualWindow 5) 1) /\
    forall i, 0 <= i < actualWindow 5 ->
      0 <= dataIndex st1 - actualWindow 5 + 1 + i + HISTORY_SIZE /\
      0 <= windowIndex (dataIndex st1) (actualWindow 5) i < HISTORY_SIZE /\
      windowIndex (dataIndex st1) (actualWindow 5) i
      = (Z.of_nat 12 - (actualWindow 5 - 1 - i)) mod HISTORY_SIZE.
Proof.
  apply (extractWindow_most_recent enough_fuel demo_input 12 0 1 5);
    [intros t; simpl; unfold NUM_CHANNELS; lia | lia
    | unfold NUM_CHANNELS; lia | unfold NUM_CHANNELS; lia
    | vm_compute; discriminate | vm_compute; discriminate].
Defined.

(** C2, as the code has it: in the state a tick has just sampled,
    [discreteFrechetDistance] clamps any requested window to
    min(requestedW, FRECHET_WINDOW, HISTORY_SIZE), whatever the number of
    samples collected, extracts that many samples and never reads outside
    an array; the bound by the samples collected is applied by the
    orchestrator: until the write cursor wraps, the window it asks for is
    min(FRECHET_WINDOW, samples collected). *)
Theorem window_clamping
    (fuel : nat) (input : nat -> list Z) (n : nat) (ch1 ch2 requestedW : Z) :
  (forall t, NUM_CHANNELS <= Z.of_nat (length (input t))) ->
  (enough_fuel <= fuel)%nat ->
  INT_MIN < requestedW <= INT_MAX ->
  0 <= ch1 < NUM_CHANNELS -> 0 <= ch2 < NUM_CHANNELS ->
  exists st st1 c1 c2 r st',
    run fuel input n setup = Ok st /\
    sampleChannels (input n) st = Ok st1 /\
    extractWindow (channelData st1) (dataIndex st1) ch1 ch2 (actualWindow requestedW)
    = Ok (c1, c2) /\
    Z.of_nat (length c1) = Z.max 0 (Z.min requestedW FRECHET_WINDOW) /\
    Z.of_nat (length c2) = Z.max 0 (Z.min requestedW FRECHET_WINDOW) /\
    discreteFrechetDistance fuel ch1 ch2 requestedW st1 = Ok (r, st') /\
    (Z.of_nat n < HISTORY_SIZE ->
     actualWindow (orchestratorWindow (dataIndex st1))
     = Z.min FRECHET_WINDOW (Z.of_nat n + 1)).
Proof.
  intros Hlen Hfuel _ Hch1 Hch2.
  destruct (run_hist fuel input n Hlen Hfuel) as (st & Hrun & Hinv).
  destruct (sampleChannels_hist input n st Hinv (Hlen n))
    as (st1 & Hs & (Hwf1 & Hdi1 & _) & _).
  destruct (discreteFrechetDistance_spec fuel ch1 ch2 requestedW st1)
    as (c1 & c2 & r & dp' & Hex & Hl1 & Hl2 & _ & Hdfd & _); try done.
  exists st, st1, c1, c2, r, (set_dpTable dp' (log_call (ch1, ch2, requestedW) st1)).
  repeat (split; [done|]).
  unfold actualWindow, orchestratorWindow, FRECHET_WINDOW, HISTORY_SIZE in *.
  split; [lia|]. split; [lia|]. split; [done|].
  intros Hn. rewrite Hdi1, Z.mod_small by lia. lia.
Qed.

Lemma window_clamping_witness :
  exists st st1 c1 c2 r st',
    run enough_fuel demo_input 9 setup = Ok st /\
    sampleChannels (demo_input 9) st = Ok st1 /\
    extractWindow (channelData st1) (dataIndex st1) 0 1 (actualWindow 50)
    = Ok (c1, c2) /\
    Z.of_nat (length c1) = Z.max 0 (Z.min 50 FRECHET_WINDOW) /\
    Z.of_nat (length c2) = Z.max 0 (Z.min 50 FRECHET_WINDOW) /\
    discreteFrechetDistance enough_fuel 0 1 50 st1 = Ok (r, st') /\
    (Z.of_nat 9 < HISTORY_SIZE ->
     actualWindow (orchestratorWindow (dataIndex st1))
     = Z.min FRECHET_WINDOW (Z.of_nat 9 + 1)).
Proof.
  apply (window_clamping enough_fuel demo_input 9 0 1 50);
    [intros t; simpl; unfold NUM_CHANNELS; lia | lia
    | unfold INT_MIN, INT_MAX; lia
    | unfold NUM_CHANNELS; lia | unfold NUM_CHANNELS; lia].
Defined.

(** C2, as stated, fails: with 10 samples collected (write cursor 9) a
    request of 50 gives the effective window 20, not 10, and 20 samples
    are extracted. *)
Lemma window_not_bounded_by_samples :
  (st ← run enough_fuel demo_input 9 setup;
   st1 ← sampleChannels (demo_input 9) st;
   '(c1, c2) ← extractWindow (channelData st1) (dataIndex st1) 0 1 (actualWindow 50);
   Ok (dataIndex st1 + 1, actualWindow 50, length c1))
  = Ok (10, 20, 20%nat)
  /\ actualWindow 50 <> Z.min 50 (Z.min FRECHET_WINDOW 10).
Proof. split; [vm_compute; reflexivity | vm_compute; discriminate]. Qed.

(** C4: when the orchestrator's window is below 3, every entry of
    [frechetDistances] becomes 0.0, [discreteFrechetDistance] is not
    invoked and the table is left untouched. *)
Theorem low_data_short_circuit (fuel : nat) (st : state) :
  wf_state st = true ->
  orchestratorWindow (dataIndex st) < 3 ->
  exists st',
    calculateDiscreteFrechetDistances fuel st = Ok st' /\
    frechetDistances st' = [F32.zero; F32.zero; F32.zero; F32.zero] /\
    engineCalls st' = engineCalls st /\
    dpTable st' = dpTable st.
Proof.
  intros Hwf Hlow.
  rewrite calculateDiscreteFrechetDistances_low by done.
  eexists; split; [reflexivity|]. done.
Qed.

Lemma low_data_short_circuit_witness :
  exists st',
    calculateDiscreteFrechetDistances 0 setup = Ok st' /\
    frechetDistances st' = [F32.zero; F32.zero; F32.zero; F32.zero] /\
    engineCalls st' = engineCalls setup /\
    dpTable st' = dpTable setup.
Proof.
  apply (low_data_short_circuit 0 setup); [reflexivity | vm_compute; reflexivity].
Defined.

(** C5 fails on the code: the count used for the window is
    [dataIndex + 1], and [dataIndex] wraps.  On every tick whose number is
    0 or 1 modulo HISTORY_SIZE, also after the buffer has filled, the
    window is below 3 and the tick leaves four results 0.0. *)
Theorem window_collapses_at_wrap (fuel : nat) (input : nat -> list Z) (n : nat) :
  (forall t, NUM_CHANNELS <= Z.of_nat (length (input t))) ->
  (enough_fuel <= fuel)%nat ->
  Z.of_nat n mod HISTORY_SIZE < 2 ->
  exists st st1 st',
    run fuel input n setup = Ok st /\
    sampleChannels (input n) st = Ok st1 /\
    orchestratorWindow (dataIndex st1) = Z.of_nat n mod HISTORY_SIZE + 1 /\
    tick fuel (input n) st = Ok st' /\
    frechetDistances st' = [F32.zero; F32.zero; F32.zero; F32.zero] /\
    engineCalls st' = engineCalls st.
Proof.
  intros Hlen Hfuel Hn.
  destruct (run_hist fuel input n Hlen Hfuel) as (st & Hrun & Hinv).
  destruct (sampleChannels_hist input n st Hinv (Hlen n))
    as (st1 & Hs & (Hwf1 & Hdi1 & _) & _ & _ & Hcalls).
  exists st, st1. eexists. split; [done|]. split; [done|].
  pose proof (Z.mod_pos_bound (Z.of_nat n) HISTORY_SIZE eq_refl) as Hb.
  assert (Hw : orchestratorWindow (dataIndex st1) = Z.of_nat n mod HISTORY_SIZE + 1).
  { rewrite Hdi1. unfold orchestratorWindow, FRECHET_WINDOW. lia. }
  split; [done|]. unfold tick. rewrite Hs, bind_Ok.
  rewrite calculateDiscreteFrechetDistances_low by (done || lia).
  rewrite bind_Ok. split; [reflexivity|]. split; [reflexivity|].
  by cbn [set_dataIndex set_frechetDistances engineCalls].
Qed.

Lemma window_collapses_at_wrap_witness :
  exists st st1 st',
    run enough_fuel demo_input 50 setup = Ok st /\
    sampleChannels (demo_input 50) st = Ok st1 /\
    orchestratorWindow (dataIndex st1) = Z.of_nat 50 mod HISTORY_SIZE + 1 /\
    tick enough_fuel (demo_input 50) st = Ok st' /\
    frechetDistances st' = [F32.zero; F32.zero; F32.zero; F32.zero] /\
    engineCalls st' = engineCalls st.
Proof.
  apply (window_collapses_at_wrap enough_fuel demo_input 50);
    [intros t; simpl; unfold NUM_CHANNELS; lia | lia | vm_compute; reflexivity].
Defined.

(** C10: two invocations of [discreteFrechetDistance] with equal channel
    data, equal write cursor and equal effective window return the same
    value, whatever either table held: the reset leaves every cell of the
    active region at -1.0. *)
Theorem discreteFrechetDistance_deterministic
    (fuel : nat) (ch1 ch2 w1 w2 : Z) (st1 st2 : state) :
  INT_MIN < w1 <= INT_MAX -> INT_MIN < w2 <= INT_MAX ->
  wf_state st1 = true -> wf_state st2 = true ->
  channelData st1 = channelData st2 -> dataIndex st1 = dataIndex st2 ->
  actualWindow w1 = actualWindow w2 ->
  0 <= ch1 < NUM_CHANNELS -> 0 <= ch2 < NUM_CHANNELS ->
  (enough_fuel <= fuel)%nat ->
  (exists r st1' st2',
     discreteFrechetDistance fuel ch1 ch2 w1 st1 = Ok (r, st1') /\
     discreteFrechetDistance fuel ch1 ch2 w2 st2 = Ok (r, st2')) /\
  (exists dp1 dp2,
     initDpTable (actualWindow w1) (dpTable st1) = Ok dp1 /\
     initDpTable (actualWindow w2) (dpTable st2) = Ok dp2 /\
     forall i j, 0 <= i < actualWindow w1 -> 0 <= j < actualWindow w1 ->
       get2 dp1 i j = Ok F32.neg_one /\ get2 dp2 i j = Ok F32.neg_one).
Proof.
  intros _ _ Hwf1 Hwf2 Hcd Hdi HW Hch1 Hch2 Hfuel. split.
  - destruct (discreteFrechetDistance_spec fuel ch1 ch2 w1 st1)
      as (a1 & b1 & r1 & dp1 & Hex1 & _ & _ & _ & Hrun1 & _ & Hr1); try done.
    destruct (discreteFrechetDistance_spec fuel ch1 ch2 w2 st2)
      as (a2 & b2 & r2 & dp2 & Hex2 & _ & _ & _ & Hrun2 & _ & Hr2); try done.
    rewrite <- Hcd, <- Hdi, <- HW in Hex2. rewrite Hex1 in Hex2.
    injection Hex2 as <- <-. rewrite <- HW in Hr2. rewrite <- Hr1 in Hr2. subst r2.
    eauto.
  - apply wf_state_spec in Hwf1 as (_ & _ & _ & Hdp1).
    apply wf_state_spec in Hwf2 as (_ & _ & _ & Hdp2).
    destruct (initDpTable_unset (actualWindow w1) (dpTable st1))
      as (dp1 & H1 & _ & Hu1); [apply actualWindow_le|done|].
    destruct (initDpTable_unset (actualWindow w2) (dpTable st2))
      as (dp2 & H2 & _ & Hu2); [apply actualWindow_le|done|].
    exists dp1, dp2. split; [done|]. split; [done|].
    intros i j Hi Hj. split; [by apply Hu1|]. apply Hu2; lia.
Qed.

Lemma discreteFrechetDistance_deterministic_witness :
  (exists r st1' st2',
     discreteFrechetDistance enough_fuel 0 1 20 demo_state = Ok (r, st1') /\
     discreteFrechetDistance enough_fuel 0 1 50 dirty_state = Ok (r, st2')) /\
  (exists dp1 dp2,
     initDpTable (actualWindow 20) (dpTable demo_state) = Ok dp1 /\
     initDpTable (actualWindow 50) (dpTable dirty_state) = Ok dp2 /\
     forall i j, 0 <= i < actualWindow 20 -> 0 <= j < actualWindow 20 ->
       get2 dp1 i j = Ok F32.neg_one /\ get2 dp2 i j = Ok F32.neg_one).
Proof.
  apply (discreteFrechetDistance_deterministic enough_fuel 0 1 20 50 demo_state dirty_state);
    [unfold INT_MIN, INT_MAX; lia | unfold INT_MIN, INT_MAX; lia
    | vm_compute; reflexivity | vm_compute; reflexivity | reflexivity | reflexivity
    | reflexivity | unfold NUM_CHANNELS; lia | unfold NUM_CHANNELS; lia | lia].
Defined.

(** ** The samples the sketch stores are finite *)

(** Every raw value of a converter of at most 12 bits becomes a finite,
    non-negative voltage. *)
Lemma voltage_finite (rawValue : Z) :
  0 <= rawValue < 4096 -> F32.is_finite (voltage rawValue) = true.
Proof.
  intros H.
  assert (Hall : forallb (fun r => F32.is_finite (voltage r)) (seqZ 0 4096) = true)
    by (vm_compute; reflexivity).
  rewrite forallb_forall in Hall. apply Hall, list_elem_of_In, elem_of_seqZ. lia.
Qed.

Lemma recent_finite (input : nat -> list Z) (n : nat) (W ch : Z) :
  (forall t, 0 <= rawOf (input t) ch < 4096) ->
  finite_curve (recent input n W ch) = true.
Proof.
  intros Hraw. unfold finite_curve, recent. apply forallb_forall.
  intros x [k [<- _]]%in_map_iff. apply voltage_finite, Hraw.
Qed.

(** * Further properties of the sketch *)

(** ** Comparison of non-negative floats *)

Lemma nonneg_le_lt (a b : float) :
  F32.nonneg a = true -> F32.nonneg b = true ->
  SFleb a b = negb (SFltb b a).
Proof.
  destruct a as [[]|[]| |[] m1 e1], b as [[]|[]| |[] m2 e2]; try discriminate;
    intros _ _; try reflexivity.
  unfold SFleb, SFltb, SFcompare.
  fold (Pos.compare m1 m2). fold (Pos.compare m2 m1).
  rewrite (Z.compare_antisym e1 e2), (Pos.compare_antisym m1 m2).
  destruct (e1 ?= e2); try reflexivity. by destruct (m1 ?= m2)%positive.
Qed.

Lemma nonneg_le_refl (a : float) : F32.nonneg a = true -> SFleb a a = true.
Proof.
  intros Ha. rewrite nonneg_le_lt by done.
  destruct (nonneg_trichotomy a a Ha Ha) as [[H1 H2]|[[_ H]|[H1 H2]]];
    by (congruence || rewrite H).
Qed.

Lemma nonneg_le_trans (a b c : float) :
  F32.nonneg a = true -> F32.nonneg b = true -> F32.nonneg c = true ->
  SFleb a b = true -> SFleb b c = true -> SFleb a c = true.
Proof.
  intros Ha Hb Hc. rewrite !nonneg_le_lt by done. rewrite !negb_true_iff.
  intros Hba Hcb.
  destruct (nonneg_trichotomy c a Hc Ha) as [[Hca _]|[[_ H]|[_ H]]]; try done.
  destruct (nonneg_trichotomy c b Hc Hb) as [[H _]|[[Heq _]|[Hbc _]]].
  - congruence.
  - subst. congruence.
  - rewrite (nonneg_lt_trans b c a) in Hba by done. discriminate.
Qed.

Lemma le_max_l (a b : float) :
  F32.nonneg a = true -> F32.nonneg b = true -> SFleb a (max a b) = true.
Proof.
  intros Ha Hb. unfold max, F32.gt. destruct (SFltb b a) eqn:E.
  - by apply nonneg_le_refl.
  - by rewrite nonneg_le_lt, E.
Qed.

Lemma le_max_r (a b : float) :
  F32.nonneg a = true -> F32.nonneg b = true -> SFleb b (max a b) = true.
Proof.
  intros Ha Hb. unfold max, F32.gt. destruct (SFltb b a) eqn:E.
  - rewrite nonneg_le_lt by done.
    destruct (nonneg_trichotomy a b Ha Hb) as [[_ H]|[[_ H]|[_ H]]];
      by (congruence || rewrite H).
  - by apply nonneg_le_refl.
Qed.

Lemma min_le_l (a b : float) :
  F32.nonneg a = true -> F32.nonneg b = true -> SFleb (min a b) a = true.
Proof.
  intros Ha Hb. unfold min, F32.lt. destruct (SFltb a b) eqn:E.
  - by apply nonneg_le_refl.
  - by rewrite nonneg_le_lt, E.
Qed.

Lemma min_le_r (a b : float) :
  F32.nonneg a = true -> F32.nonneg b = true -> SFleb (min a b) b = true.
Proof.
  intros Ha Hb. unfold min, F32.lt. destruct (SFltb a b) eqn:E.
  - rewrite nonneg_le_lt by done.
    destruct (nonneg_trichotomy a b Ha Hb) as [[_ H]|[[_ H]|[_ H]]];
      by (congruence || rewrite H).
  - by apply nonneg_le_refl.
Qed.

(** [max] and [min] return one of their arguments. *)
Lemma max_cases (a b : float) : max a b = a \/ max a b = b.
Proof. unfold max. destruct (F32.gt a b); auto. Qed.

Lemma min_cases (a b : float) : min a b = a \/ min a b = b.
Proof. unfold min. destruct (F32.lt a b); auto. Qed.

(** ** Bounds on the recurrence *)

(** Every cell is the distance of some pair of points met so far. *)
Lemma F_attained (A B : list float) (i : nat) : forall j,
  exists k l, (k <= i)%nat /\ (l <= j)%nat /\
    Spec.F A B i j = euclideanDistance (Spec.pt A k) (Spec.pt B l).
Proof.
  induction i as [|i IHi]; induction j as [|j IHj].
  - by exists 0%nat, 0%nat.
  - rewrite F_0_S. destruct (max_cases (Spec.F A B 0 j)
      (Spec.d (Spec.pt A 0) (Spec.pt B (S j)))) as [-> | ->].
    + destruct IHj as (k & l & ? & ? & ->). exists k, l. repeat split; (done || lia).
    + by exists 0%nat, (S j).
  - rewrite F_S_0. destruct (max_cases (Spec.F A B i 0)
      (Spec.d (Spec.pt A (S i)) (Spec.pt B 0))) as [-> | ->].
    + destruct (IHi 0%nat) as (k & l & ? & ? & ->). exists k, l.
      repeat split; (done || lia).
    + by exists (S i), 0%nat.
  - rewrite F_S_S.
    destruct (max_cases
      (Spec.min3 (Spec.F A B i (S j)) (Spec.F A B i j) (Spec.F A B (S i) j))
      (Spec.d (Spec.pt A (S i)) (Spec.pt B (S j)))) as [-> | ->];
      [|by exists (S i), (S j)].
    rewrite !min3_min.
    destruct (min_cases (Spec.F A B i (S j))
      (min (Spec.F A B i j) (Spec.F A B (S i) j))) as [-> | ->].
    { destruct (IHi (S j)) as (k & l & ? & ? & ->). exists k, l.
      repeat split; (done || lia). }
    destruct (min_cases (Spec.F A B i j) (Spec.F A B (S i) j)) as [-> | ->].
    + destruct (IHi j) as (k & l & ? & ? & ->). exists k, l.
      repeat split; (done || lia).
    + destruct IHj as (k & l & ? & ? & ->). exists k, l.
      repeat split; (done || lia).
Qed.

Section Bounds.

Variables A B : list float.
Hypothesis HA : finite_curve A = true.
Hypothesis HB : finite_curve B = true.

Lemma min3_le (a b c x : float) (which : nat) :
  F32.nonneg a = true -> F32.nonneg b = true -> F32.nonneg c = true ->
  F32.nonneg x = true ->
  SFleb (match which with 0%nat => a | 1%nat => b | _ => c end) x = true ->
  SFleb (Spec.min3 a b c) x = true.
Proof.
  intros Ha Hb Hc Hx H. rewrite !min3_min.
  destruct which as [|[|which]].
  - eapply nonneg_le_trans; [| |done|by apply min_le_l; auto using min_nonneg|done];
      auto using min_nonneg.
  - eapply (nonneg_le_trans _ (min b c));
      [auto using min_nonneg..|by apply min_le_r; auto using min_nonneg|].
    eapply nonneg_le_trans; [| |done|by apply min_le_l|done]; auto using min_nonneg.
  - eapply (nonneg_le_trans _ (min b c));
      [auto using min_nonneg..|by apply min_le_r; auto using min_nonneg|].
    eapply nonneg_le_trans; [| |done|by apply min_le_r|done]; auto using min_nonneg.
Qed.

Lemma le_min3 (a b c x : float) :
  SFleb x a = true -> SFleb x b = true -> SFleb x c = true ->
  SFleb x (Spec.min3 a b c) = true.
Proof.
  intros Ha Hb Hc. rewrite !min3_min.
  destruct (min_cases a (min b c)) as [-> | ->]; [done|].
  by destruct (min_cases b c) as [-> | ->].
Qed.

(** A cell is at least the distance of its own pair of points. *)
Lemma F_ge_d i j :
  SFleb (euclideanDistance (Spec.pt A i) (Spec.pt B j)) (Spec.F A B i j) = true.
Proof using HA HB.
  pose proof (d_pt_nonneg A B HA HB) as Hd.
  pose proof (F_nonneg A B HA HB) as HF.
  change euclideanDistance with Spec.d.
  destruct i as [|i], j as [|j].
  - rewrite F_0_0. apply nonneg_le_refl, Hd.
  - rewrite F_0_S. apply le_max_r; auto.
  - rewrite F_S_0. apply le_max_r; auto.
  - rewrite F_S_S. apply le_max_r; auto using min3_nonneg.
Qed.

(** Every cell is at least the distance of the two first points. *)
Lemma F_ge_start i : forall j, SFleb (Spec.F A B 0 0) (Spec.F A B i j) = true.
Proof using HA HB.
  pose proof (d_pt_nonneg A B HA HB) as Hd.
  pose proof (F_nonneg A B HA HB) as HF.
  induction i as [|i IHi]; induction j as [|j IHj].
  - apply nonneg_le_refl, HF.
  - rewrite (F_0_S A B j).
    eapply nonneg_le_trans; [| |apply max_nonneg|exact IHj|apply le_max_l]; auto.
  - rewrite (F_S_0 A B i).
    eapply nonneg_le_trans; [| |apply max_nonneg|exact (IHi 0%nat)|apply le_max_l]; auto.
  - rewrite (F_S_S A B i j).
    eapply nonneg_le_trans;
      [| |apply max_nonneg|apply le_min3|apply le_max_l]; auto using min3_nonneg.
Qed.

(** The diagonal cell is at most the largest distance of two points of
    equal index. *)
Lemma F_le_diag i :
  exists k, (k <= i)%nat /\
    SFleb (Spec.F A B i i) (euclideanDistance (Spec.pt A k) (Spec.pt B k)) = true.
Proof using HA HB.
  pose proof (d_pt_nonneg A B HA HB) as Hd.
  pose proof (F_nonneg A B HA HB) as HF.
  change euclideanDistance with Spec.d.
  induction i as [|i (k & Hk & IH)].
  - exists 0%nat. split; [done|]. rewrite F_0_0. apply nonneg_le_refl, Hd.
  - rewrite F_S_S.
    destruct (max_cases
      (Spec.min3 (Spec.F A B i (S i)) (Spec.F A B i i) (Spec.F A B (S i) i))
      (Spec.d (Spec.pt A (S i)) (Spec.pt B (S i)))) as [-> | ->].
    + exists k. split; [lia|]. by apply (min3_le _ _ _ _ 1); auto.
    + exists (S i). split; [done|]. apply nonneg_le_refl, Hd.
Qed.

End Bounds.

(** ** The table the engine leaves *)

Lemma get2_inv (g : list (list float)) (i j : Z) (v : float) :
  get2 g i j = Ok v -> 0 <= i /\ 0 <= j.
Proof.
  unfold get2. intros (row & Hrow & Hv)%bind_Ok_inv.
  apply arr_get_inv in Hrow as [? _]. apply arr_get_inv in Hv as [? _]. lia.
Qed.

Section Fill.

Variables (A B : list float) (W : Z).
Hypothesis HW : W <= FRECHET_WINDOW.
Hypothesis HA : W <= Z.of_nat (length A).
Hypothesis HB : W <= Z.of_nat (length B).

Lemma extends_refl dp i j : extends A B dp dp i j.
Proof. by split. Qed.

Lemma extends_trans dp1 dp2 dp3 i1 j1 i2 j2 i j :
  i1 <= i -> j1 <= j -> i2 <= i -> j2 <= j ->
  extends A B dp1 dp2 i1 j1 -> extends A B dp2 dp3 i2 j2 ->
  extends A B dp1 dp3 i j.
Proof.
  intros ? ? ? ? [Hm1 Hf1] [Hm2 Hf2]. split.
  - intros i' j' Hc. by apply Hm2, Hm1.
  - intros i' j' Hi' Hj' Hout. rewrite Hf2, Hf1; (done || lia).
Qed.

Lemma fill_set dp i j :
  fill_inv A B W dp -> 0 <= i < W -> 0 <= j < W ->
  (forall i' j', 0 <= i' <= i -> 0 <= j' <= j -> (i', j') <> (i, j) ->
     get2 dp i' j' = Ok (Spec.F A B (Z.to_nat i') (Z.to_nat j'))) ->
  exists dp',
    set2 dp i j (Spec.F A B (Z.to_nat i) (Z.to_nat j)) = Ok dp' /\
    get2 dp' i j = Ok (Spec.F A B (Z.to_nat i) (Z.to_nat j)) /\
    fill_inv A B W dp' /\ rect_filled A B dp' i j /\ extends A B dp dp' i j.
Proof using HW.
  intros [Hwf Hcells] Hi Hj Hrect.
  destruct (set2_Ok _ _ dp i j (Spec.F A B (Z.to_nat i) (Z.to_nat j)) Hwf)
    as (dp' & Hset & Hwf' & Hget & Hother); [lia..|].
  assert (Hmono : forall i' j',
    get2 dp i' j' = Ok (Spec.F A B (Z.to_nat i') (Z.to_nat j')) ->
    get2 dp' i' j' = Ok (Spec.F A B (Z.to_nat i') (Z.to_nat j'))).
  { intros i' j' H. destruct (decide ((i', j') = (i, j))) as [[= -> ->]|Hne]; [done|].
    pose proof (get2_inv _ _ _ _ H) as [? ?]. by rewrite Hother. }
  assert (Hr : rect_filled A B dp' i j).
  { intros i' j' Hi' Hj'.
    destruct (decide ((i', j') = (i, j))) as [[= -> ->]|Hne]; [done|].
    apply Hmono. by apply Hrect. }
  exists dp'. split; [done|]. split; [done|]. split; [|split; [done|]].
  - split; [done|]. intros i1 j1 Hi1 Hj1.
    destruct (decide ((i1, j1) = (i, j))) as [[= -> ->]|Hne]; [by right|].
    destruct (Hcells i1 j1 Hi1 Hj1) as [Hu|Hf].
    + left. rewrite Hother; (done || lia).
    + right. intros i' j' Hi' Hj'. by apply Hmono, Hf.
  - split; [done|]. intros i' j' Hi' Hj' Hout. apply Hother; [|done..].
    intros [= -> ->]. lia.
Qed.

Lemma frechetDP_fill fuel : forall i j dp,
  0 <= i < W -> 0 <= j < W -> (Z.to_nat (i + j) < fuel)%nat ->
  fill_inv A B W dp ->
  exists dp',
    frechetDP fuel A B i j W dp = Ok (Spec.F A B (Z.to_nat i) (Z.to_nat j), dp') /\
    fill_inv A B W dp' /\ rect_filled A B dp' i j /\ extends A B dp dp' i j.
Proof using HW HA HB.
  induction fuel as [|fuel IH]; intros i j dp Hi Hj Hfuel Hinv; [lia|].
  cbn [frechetDP].
  destruct (Z.ltb_spec i 0); [lia|]. destruct (Z.ltb_spec j 0); [lia|].
  cbn [orb].
  destruct (get2_Ok _ _ dp i j (proj1 Hinv)) as [memo Hmemo]; [lia..|].
  rewrite Hmemo, bind_Ok.
  destruct (F32.ge memo F32.zero) eqn:Hge.
  { destruct (proj2 Hinv i j Hi Hj) as [Hc|Hc].
    - rewrite Hc in Hmemo. injection Hmemo as <-. discriminate.
    - rewrite (Hc i j) in Hmemo by lia. injection Hmemo as <-.
      exists dp. split; [done|]. split; [done|]. split; [done|apply extends_refl]. }
  rewrite (pt_get A i), (pt_get B j), !bind_Ok by lia.
  change (euclideanDistance ?x ?y) with (Spec.d x y).
  assert (Hfin : forall dp1 v i1 j1,
    v = Spec.F A B (Z.to_nat i) (Z.to_nat j) -> fill_inv A B W dp1 ->
    i1 <= i -> j1 <= j -> extends A B dp dp1 i1 j1 ->
    (forall i' j', 0 <= i' <= i -> 0 <= j' <= j -> (i', j') <> (i, j) ->
       get2 dp1 i' j' = Ok (Spec.F A B (Z.to_nat i') (Z.to_nat j'))) ->
    exists dp',
      (dp'0 ← set2 dp1 i j v; v0 ← get2 dp'0 i j; Ok (v0, dp'0))
      = Ok (Spec.F A B (Z.to_nat i) (Z.to_nat j), dp') /\
      fill_inv A B W dp' /\ rect_filled A B dp' i j /\ extends A B dp dp' i j).
  { intros dp1 v i1 j1 -> Hinv1 Hi1 Hj1 Hext Hrect.
    destruct (fill_set dp1 i j Hinv1 Hi Hj Hrect)
      as (dp' & -> & Hget & Hinv' & Hr' & Hext').
    rewrite bind_Ok, Hget, bind_Ok. exists dp'. repeat (split; [done|]).
    by apply (extends_trans dp dp1 dp' i1 j1 i j i j). }
  destruct (Z.eqb_spec i 0) as [Hi0|Hi0]; destruct (Z.eqb_spec j 0) as [Hj0|Hj0];
    destruct (Z.gtb_spec i 0); destruct (Z.gtb_spec j 0); try lia;
    subst; cbn [andb].
  - apply (Hfin dp _ 0 0); [reflexivity|done|lia|lia|apply extends_refl|].
    intros i' j' Hi' Hj' Hne. exfalso. apply Hne. f_equal; lia.
  - destruct (IH 0 (j - 1) dp) as (dp1 & -> & Hinv1 & Hr1 & He1); [lia..|done|].
    rewrite bind_Ok. apply (Hfin dp1 _ 0 (j - 1)); [|done|lia|lia|done|].
    + replace (Z.to_nat j) with (S (Z.to_nat (j - 1))) by lia. by rewrite F_0_S.
    + intros i' j' Hi' Hj' Hne. apply Hr1; [lia|].
      destruct (decide (j' = j)) as [->|]; [|lia].
      exfalso. apply Hne. f_equal. lia.
  - destruct (IH (i - 1) 0 dp) as (dp1 & -> & Hinv1 & Hr1 & He1); [lia..|done|].
    rewrite bind_Ok. apply (Hfin dp1 _ (i - 1) 0); [|done|lia|lia|done|].
    + replace (Z.to_nat i) with (S (Z.to_nat (i - 1))) by lia. by rewrite F_S_0.
    + intros i' j' Hi' Hj' Hne. apply Hr1; [|lia].
      destruct (decide (i' = i)) as [->|]; [|lia].
      exfalso. apply Hne. f_equal. lia.
  - destruct (IH (i - 1) j dp) as (dp1 & -> & Hinv1 & Hr1 & He1); [lia..|done|].
    rewrite bind_Ok.
    destruct (IH (i - 1) (j - 1) dp1) as (dp2 & -> & Hinv2 & Hr2 & He2); [lia..|done|].
    rewrite bind_Ok.
    destruct (IH i (j - 1) dp2) as (dp3 & -> & Hinv3 & Hr3 & He3); [lia..|done|].
    rewrite bind_Ok.
    apply (Hfin dp3 _ i j); [|done|lia|lia| |].
    + replace (Z.to_nat i) with (S (Z.to_nat (i - 1))) by lia.
      replace (Z.to_nat j) with (S (Z.to_nat (j - 1))) by lia.
      by rewrite F_S_S, min3_min.
    + apply (extends_trans dp dp2 dp3 i j i (j - 1)); [lia..| |done].
      by apply (extends_trans dp dp1 dp2 (i - 1) j (i - 1) (j - 1)); [lia..| |].
    + intros i' j' Hi' Hj' Hne.
      destruct (decide (j' = j)) as [->|].
      * destruct (decide (i' = i)) as [->|]; [by exfalso; apply Hne|].
        apply (proj1 He3), (proj1 He2), Hr1; lia.
      * apply Hr3; lia.
Qed.

End Fill.

Lemma initDpTable_frame (W : Z) (dp : table) :
  W <= FRECHET_WINDOW -> wf_table dp = true ->
  exists dp0,
    initDpTable W dp = Ok dp0 /\
    forall i j, 0 <= i -> 0 <= j -> ~ (i < W /\ j < W) -> get2 dp0 i j = get2 dp i j.
Proof.
  intros HW Hwf. unfold initDpTable.
  pose (P := fun (_ : Z) (t : table) =>
    wf_table t = true /\
    forall i j, 0 <= i -> 0 <= j -> ~ (i < W /\ j < W) -> get2 t i j = get2 dp i j).
  destruct (for_loop_inv P
    (fun i t => for_loop (Z.to_nat W) 0 (fun j t => set2 t i j F32.neg_one) t)
    (Z.to_nat W) 0 dp) as (dp0 & Hrun & _ & Hframe).
  - by split.
  - intros i t Hi Ht.
    destruct (for_loop_inv P (fun j t => set2 t i j F32.neg_one) (Z.to_nat W) 0 t)
      as (t' & Hrun' & Ht'); [done| |by exists t'].
    intros j t1 Hj [Hwf1 Hf1].
    destruct (set2_Ok _ _ t1 i j F32.neg_one Hwf1) as (t2 & -> & Hwf2 & _ & Hother);
      [lia..|].
    exists t2. split; [done|]. split; [done|].
    intros i' j' Hi' Hj' Hout. rewrite Hother; [by apply Hf1| |lia..].
    intros [= -> ->]. lia.
  - by exists dp0.
Qed.

(** ** The orchestrator with enough data *)

Lemma wf_state_step (st : state) (dp' : table) (fd' : list float) (c : Z * Z * Z) :
  wf_state st = true -> wf_table dp' = true ->
  length fd' = Z.to_nat NUM_CHANNELS ->
  wf_state (set_frechetDistances fd' (set_dpTable dp' (log_call c st))) = true.
Proof.
  intros (Hcd & Hfd & Hdi & Hdp)%wf_state_spec Hdp' Hfd'.
  by apply wf_state_spec.
Qed.

Lemma discreteFrechetDistance_value (fuel : nat) (ch1 ch2 W : Z) (st : state) :
  wf_state st = true ->
  0 <= ch1 < NUM_CHANNELS -> 0 <= ch2 < NUM_CHANNELS ->
  (enough_fuel <= fuel)%nat ->
  1 <= W <= FRECHET_WINDOW ->
  exists dp',
    discreteFrechetDistance fuel ch1 ch2 W st
    = Ok (windowDistance (channelData st) (dataIndex st) ch1 ch2 W,
          set_dpTable dp' (log_call (ch1, ch2, W) st)) /\
    wf_table dp' = true.
Proof.
  intros Hwf Hch1 Hch2 Hfuel HW.
  destruct (discreteFrechetDistance_spec fuel ch1 ch2 W st)
    as (c1 & c2 & r & dp' & Hex & _ & _ & _ & Hrun & Hwf' & Hr); try done.
  assert (HaW : actualWindow W = W)
    by (unfold actualWindow, FRECHET_WINDOW, HISTORY_SIZE in *; lia).
  rewrite HaW in *. exists dp'. split; [|done].
  rewrite Hrun. unfold windowDistance. rewrite Hex, Hr.
  destruct (Z.ltb_spec W 1); [lia|done].
Qed.

Lemma orchestrator_step (fuel : nat) (ch W : Z) (st : state) :
  wf_state st = true -> 0 <= ch < NUM_CHANNELS - 1 ->
  (enough_fuel <= fuel)%nat -> 1 <= W <= FRECHET_WINDOW ->
  exists dp',
    ('(d, st1) ← discreteFrechetDistance fuel ch (ch + 1) W st;
     fd ← arr_set (frechetDistances st1) ch d;
     Ok (set_frechetDistances fd st1))
    = Ok (mkState (channelData st)
            (<[Z.to_nat ch := windowDistance (channelData st) (dataIndex st) ch (ch + 1) W]>
               (frechetDistances st))
            (dataIndex st) dp' (engineCalls st ++ [(ch, ch + 1, W)])) /\
    wf_table dp' = true.
Proof.
  intros Hwf Hch Hfuel HW.
  destruct (discreteFrechetDistance_value fuel ch (ch + 1) W st)
    as (dp' & -> & Hdp'); [done|unfold NUM_CHANNELS in *; lia..|done|done|].
  rewrite bind_Ok. cbn [set_dpTable log_call frechetDistances].
  apply wf_state_spec in Hwf as (Hcd & Hfd & Hdi & Hdp).
  rewrite arr_set_Ok by (rewrite Hfd; unfold NUM_CHANNELS in *; lia).
  rewrite bind_Ok. by exists dp'.
Qed.

Lemma calculateDiscreteFrechetDistances_high (fuel : nat) (st : state) :
  wf_state st = true -> (enough_fuel <= fuel)%nat ->
  3 <= orchestratorWindow (dataIndex st) ->
  let W := orchestratorWindow (dataIndex st) in
  let wd := fun ch => windowDistance (channelData st) (dataIndex st) ch (ch + 1) W in
  exists dp',
    calculateDiscreteFrechetDistances fuel st
    = Ok (mkState (channelData st) [wd 0; wd 1; wd 2; F32.zero] (dataIndex st) dp'
            (engineCalls st ++ [(0, 1, W); (1, 2, W); (2, 3, W)])) /\
    wf_table dp' = true.
Proof.
  intros Hwf Hfuel Hhigh W wd.
  assert (HW : 1 <= W <= FRECHET_WINDOW)
    by (unfold W, orchestratorWindow, FRECHET_WINDOW in *; lia).
  unfold calculateDiscreteFrechetDistances. fold W.
  destruct (Z.ltb_spec W 3); [lia|].
  change (Z.to_nat (NUM_CHANNELS - 1)) with 3%nat. cbn [for_loop].
  pose proof Hwf as (Hcd & Hfd & Hdi & Hdp)%wf_state_spec.
  unfold wd. clearbody W. clear wd.
  destruct st as [cd fd di dp calls].
  cbn [frechetDistances channelData dataIndex dpTable] in *.
  destruct fd as [|a [|b [|c [|d [|]]]]]; try discriminate. clear Hfd.
  destruct (orchestrator_step fuel 0 W (mkState cd [a; b; c; d] di dp calls))
    as (dp1 & -> & Hdp1); [done|done|done|done|].
  rewrite bind_Ok. cbn [channelData frechetDistances dataIndex engineCalls].
  match goal with |- context [discreteFrechetDistance fuel (0 + 1) _ W ?s] =>
    destruct (orchestrator_step fuel (0 + 1) W s) as (dp2 & -> & Hdp2);
      [by apply wf_state_spec|done|done|done|]
  end.
  rewrite bind_Ok. cbn [channelData frechetDistances dataIndex engineCalls].
  match goal with |- context [discreteFrechetDistance fuel (0 + 1 + 1) _ W ?s] =>
    destruct (orchestrator_step fuel (0 + 1 + 1) W s) as (dp3 & -> & Hdp3);
      [by apply wf_state_spec|done|done|done|]
  end.
  rewrite !bind_Ok. cbn [channelData frechetDistances dataIndex engineCalls].
  rewrite arr_set_Ok by done. rewrite bind_Ok.
  exists dp3. split; [|done].
  cbn -[windowDistance]. by rewrite <- !app_assoc.
Qed.

(** ** Distances of the sampled windows *)

Lemma windowDistance_recent (input : nat -> list Z) (n : nat) (st : state) (W ch1 ch2 : Z) :
  sampled_inv input n st ->
  1 <= W <= FRECHET_WINDOW -> W <= Z.of_nat n + 1 ->
  0 <= ch1 < NUM_CHANNELS -> 0 <= ch2 < NUM_CHANNELS ->
  windowDistance (channelData st) (dataIndex st) ch1 ch2 W
  = Spec.F (recent input n W ch1) (recent input n W ch2)
           (Z.to_nat (W - 1)) (Z.to_nat (W - 1)).
Proof.
  intros Hinv HW Hn Hch1 Hch2. pose proof Hinv as (Hwf & _).
  apply wf_state_spec in Hwf as (Hcd & _ & Hdi & _).
  unfold windowDistance.
  destruct (extractWindow_spec (channelData st) (dataIndex st) ch1 ch2 W)
    as (c1 & c2 & -> & Hl1 & Hl2 & Hc); [done..|lia|].
  rewrite (sampled_window input n st W ch1 c1), (sampled_window input n st W ch2 c2);
    try done; intros i x Hi; by apply Hc.
Qed.

Lemma tick_high (fuel : nat) (input : nat -> list Z) (n : nat) :
  (forall t, NUM_CHANNELS <= Z.of_nat (length (input t))) ->
  (enough_fuel <= fuel)%nat ->
  2 <= Z.of_nat n mod HISTORY_SIZE ->
  let W := Z.min 20 (Z.of_nat n mod HISTORY_SIZE + 1) in
  let dist := fun a b =>
    Spec.F (recent input n W a) (recent input n W b)
           (Z.to_nat (W - 1)) (Z.to_nat (W - 1)) in
  exists st st',
    run fuel input n setup = Ok st /\
    tick fuel (input n) st = Ok st' /\
    frechetDistances st' = [dist 0 1; dist 1 2; dist 2 3; F32.zero] /\
    engineCalls st' = engineCalls st ++ [(0, 1, W); (1, 2, W); (2, 3, W)].
Proof.
  intros Hlen Hfuel Hn W dist.
  destruct (run_hist fuel input n Hlen Hfuel) as (st & Hrun & Hinv).
  destruct (sampleChannels_hist input n st Hinv (Hlen n))
    as (st1 & Hs & Hinv1 & _ & _ & Hcalls).
  pose proof Hinv1 as (Hwf1 & Hdi1 & _).
  pose proof (Z.mod_pos_bound (Z.of_nat n) HISTORY_SIZE eq_refl) as Hb.
  pose proof (Z.mod_le (Z.of_nat n) HISTORY_SIZE) as Hle.
  assert (HoW : orchestratorWindow (dataIndex st1) = W).
  { rewrite Hdi1. unfold orchestratorWindow, W, FRECHET_WINDOW. lia. }
  assert (HW : 1 <= W <= FRECHET_WINDOW /\ W <= Z.of_nat n + 1).
  { unfold W, FRECHET_WINDOW, HISTORY_SIZE in *. lia. }
  destruct (calculateDiscreteFrechetDistances_high fuel st1 Hwf1 Hfuel)
    as (dp' & Hcalc & _); [rewrite HoW; unfold W; lia|].
  rewrite HoW in Hcalc.
  exists st. eexists. split; [done|]. unfold tick. rewrite Hs, bind_Ok, Hcalc, bind_Ok.
  split; [reflexivity|]. cbn [set_dataIndex frechetDistances engineCalls].
  rewrite Hcalls. split; [|done]. unfold dist.
  by rewrite !(windowDistance_recent input n st1)
    by (done || lia || unfold NUM_CHANNELS; lia).
Qed.

Lemma tick_low (fuel : nat) (input : nat -> list Z) (n : nat) :
  (forall t, NUM_CHANNELS <= Z.of_nat (length (input t))) ->
  (enough_fuel <= fuel)%nat ->
  Z.of_nat n mod HISTORY_SIZE < 2 ->
  exists st st',
    run fuel input n setup = Ok st /\
    tick fuel (input n) st = Ok st' /\
    frechetDistances st' = [F32.zero; F32.zero; F32.zero; F32.zero].
Proof.
  intros Hlen Hfuel Hn.
  destruct (run_hist fuel input n Hlen Hfuel) as (st & Hrun & Hinv).
  destruct (sampleChannels_hist input n st Hinv (Hlen n))
    as (st1 & Hs & (Hwf1 & Hdi1 & _) & _).
  exists st. eexists. split; [done|]. unfold tick. rewrite Hs, bind_Ok.
  pose proof (Z.mod_pos_bound (Z.of_nat n) HISTORY_SIZE eq_refl) as Hb.
  rewrite calculateDiscreteFrechetDistances_low;
    [|done|rewrite Hdi1; unfold orchestratorWindow, FRECHET_WINDOW; lia].
  rewrite bind_Ok. split; reflexivity.
Qed.

(** ** Signs of sums, products, quotients and square roots *)

Section Signs.

Variables prec emax : Z.

Lemma binary_round_aux_nonneg m e l :
  0 <= m -> F32.nonneg (binary_round_aux prec emax false m e l) = true.
Proof.
  intros H. unfold binary_round_aux.
  pose proof (shr_fexp_nonneg prec emax m e l H) as H1.
  destruct (shr_fexp prec emax m e l) as [mrs' e'] eqn:E1. simpl in H1.
  pose proof (shr_fexp_nonneg prec emax _ e' loc_Exact
                (round_nearest_even_nonneg _ (loc_of_shr_record mrs') H1)) as H2.
  destruct (shr_fexp prec emax _ e' loc_Exact) as [mrs'' e''] eqn:E2. simpl in H2.
  destruct (shr_m mrs'') as [|p|p]; [done| |lia].
  by destruct (e'' <=? emax - prec).
Qed.

Lemma SFmul_self_nonneg x :
  F32.is_finite x = true -> F32.nonneg (SFmul prec emax x x) = true.
Proof.
  destruct x as [[]|[]| |[] m e]; try discriminate; intros _; try done;
    by apply binary_round_aux_nonneg.
Qed.

Lemma SFadd_nonneg x y :
  F32.nonneg x = true -> F32.nonneg y = true ->
  F32.nonneg (SFadd prec emax x y) = true.
Proof.
  destruct x as [[]|[]| |[] m1 e1], y as [[]|[]| |[] m2 e2]; try discriminate;
    intros _ _; try done.
  cbn [SFadd cond_Zopp]. unfold binary_normalize.
  destruct (shl_align m1 e1 (Z.min e1 e2)) as [a ?], (shl_align m2 e2 (Z.min e1 e2)) as [b ?].
  cbn [fst]. change (Z.pos a + Z.pos b) with (Z.pos (a + b)).
  unfold binary_round. destruct (shl_align (a + b) _ _) as [mz ez].
  by apply binary_round_aux_nonneg.
Qed.

Lemma SFdiv_nonneg x m e :
  F32.nonneg x = true ->
  F32.nonneg (SFdiv prec emax x (S754_finite false m e)) = true.
Proof.
  destruct x as [[]|[]| |[] m1 e1]; try discriminate; intros _; try done.
  cbn [SFdiv xorb]. unfold SFdiv_core_binary.
  set (s := _ - _ - _).
  set (m' := match s with Z.pos _ => Z.shiftl (Z.pos m1) s | 0 => Z.pos m1 | Z.neg _ => 0 end).
  assert (Hm' : 0 <= m').
  { unfold m'. destruct s; try lia. by apply Z.shiftl_nonneg. }
  pose proof (Z.div_pos m' (Z.pos m) Hm' eq_refl) as Hq. unfold Z.div in Hq.
  destruct (Z.div_eucl m' (Z.pos m)) as [q r].
  by apply binary_round_aux_nonneg.
Qed.

Lemma SFsqrt_nonneg x :
  F32.nonneg x = true -> F32.nonneg (SFsqrt prec emax x) = true.
Proof.
  destruct x as [[]|[]| |[] m1 e1]; try discriminate; intros _; try done.
  cbn [SFsqrt]. unfold SFsqrt_core_binary.
  set (m' := match _ with Z.pos _ => _ | 0 => Z.pos m1 | Z.neg _ => 0 end).
  pose proof (Z.sqrtrem_sqrt m') as Hq. pose proof (Z.sqrt_nonneg m') as Hs.
  destruct (Z.sqrtrem m') as [q r]. simpl in Hq. subst q.
  by apply binary_round_aux_nonneg.
Qed.

End Signs.

Lemma rmsOf_nonneg (vs : list float) :
  finite_curve vs = true -> F32.nonneg (rmsOf vs) = true.
Proof.
  intros Hvs. unfold rmsOf, FArith.sqrt, FArith.div.
  apply SFsqrt_nonneg. change (F32.of_Z 5) with (S754_finite false 10485760 (-21)).
  apply SFdiv_nonneg.
  assert (H : forall acc, F32.nonneg acc = true ->
    F32.nonneg (fold_left (fun acc v => FArith.add acc (FArith.mul v v)) vs acc) = true).
  { induction vs as [|v vs IH]; intros acc Hacc; [done|]. simpl.
    apply andb_true_iff in Hvs as [Hv Hvs]. apply IH; [done|].
    apply SFadd_nonneg; [done|]. by apply SFmul_self_nonneg. }
  by apply H.
Qed.

(** ** [calculateRMS] *)

Lemma backIndex_bounds (H di i : Z) :
  0 <= di < H -> 0 <= i <= H ->
  0 <= di - i + H /\ 0 <= backIndex H di i < H /\
  backIndex H di i = (di - i) mod H.
Proof.
  intros Hdi Hi. unfold backIndex. split; [lia|].
  rewrite Z.rem_mod_nonneg by lia. split; [apply Z.mod_pos_bound; lia|].
  replace (di - i + H) with (di - i + 1 * H) by lia. apply Z_mod_plus_full.
Qed.

Lemma rmsWindow_get (H : Z) (cd : list (list float)) (di ch i : Z) :
  5 <= H -> wf_grid NUM_CHANNELS H cd = true -> 0 <= di < H ->
  0 <= ch < NUM_CHANNELS -> 0 <= i < 5 ->
  get2 cd ch (backIndex H di i)
  = Ok (default F32.zero (rmsWindow H cd di ch !! Z.to_nat i)).
Proof.
  intros HH Hwf Hdi Hch Hi.
  destruct (backIndex_bounds H di i) as (_ & Hb & _); [lia..|].
  destruct (get2_Ok _ _ cd ch (backIndex H di i) Hwf) as [v Hv]; [lia..|].
  rewrite Hv. f_equal. unfold rmsWindow.
  rewrite list_lookup_fmap, lookup_seqZ_lt by lia. simpl.
  replace (0 + Z.of_nat (Z.to_nat i)) with i by lia. by rewrite Hv.
Qed.

Lemma rmsWindow_length H cd di ch : length (rmsWindow H cd di ch) = 5%nat.
Proof. reflexivity. Qed.

Lemma sumSquares_loop (H : Z) (cd : list (list float)) (di ch : Z) (vs : list float) :
  forall (i0 : Z) (acc : float),
  (forall k, (k < length vs)%nat ->
     get2 cd ch (backIndex H di (i0 + Z.of_nat k)) = Ok (default F32.zero (vs !! k))) ->
  for_loop (length vs) i0
    (fun i sumSquares =>
       value ← get2 cd ch (backIndex H di i);
       Ok (FArith.add sumSquares (FArith.mul value value))) acc
  = Ok (fold_left (fun acc v => FArith.add acc (FArith.mul v v)) vs acc).
Proof.
  induction vs as [|v vs IH]; intros i0 acc Hget; [done|].
  cbn [length for_loop fold_left].
  pose proof (Hget 0%nat ltac:(simpl; lia)) as H0.
  rewrite Z.add_0_r in H0. rewrite H0, !bind_Ok. simpl. apply IH.
  intros k Hk. specialize (Hget (S k) ltac:(simpl; lia)).
  by replace (i0 + 1 + Z.of_nat k) with (i0 + Z.of_nat (S k)) by lia.
Qed.

Lemma calculateRMS_spec (H : Z) (cd : list (list float)) (di : Z) (rms : list float) :
  5 <= H -> wf_grid NUM_CHANNELS H cd = true -> 0 <= di < H ->
  length rms = Z.to_nat NUM_CHANNELS ->
  calculateRMS H cd di rms
  = Ok (map (fun ch => rmsOf (rmsWindow H cd di ch)) (seqZ 0 NUM_CHANNELS)).
Proof.
  intros HH Hwf Hdi Hlen. unfold calculateRMS.
  pose (P := fun (k : Z) (r : list float) =>
    length r = Z.to_nat NUM_CHANNELS /\
    forall ch, 0 <= ch < NUM_CHANNELS ->
      r !! Z.to_nat ch =
      if ch <? k then Some (rmsOf (rmsWindow H cd di ch)) else rms !! Z.to_nat ch).
  edestruct (for_loop_inv P) as (r & -> & Hl & Hr); cycle 2.
  - f_equal. apply list_eq. intros k.
    destruct (decide (k < 4)%nat) as [Hk|Hk].
    + specialize (Hr (Z.of_nat k) ltac:(unfold NUM_CHANNELS; lia)).
      rewrite Nat2Z.id in Hr. rewrite Hr.
      destruct (Z.ltb_spec (Z.of_nat k) (0 + Z.of_nat (Z.to_nat NUM_CHANNELS)));
        [|unfold NUM_CHANNELS in *; lia].
      rewrite list_lookup_fmap, lookup_seqZ_lt by (unfold NUM_CHANNELS; lia).
      simpl. by rewrite Z.add_0_l.
    + change (Z.to_nat NUM_CHANNELS) with 4%nat in Hl.
      rewrite (lookup_ge_None_2 r) by lia.
      rewrite lookup_ge_None_2; [done|].
      rewrite length_fmap, length_seqZ. unfold NUM_CHANNELS. lia.
  - split; [done|]. intros ch Hch. destruct (Z.ltb_spec ch 0); [lia|done].
  - intros k r Hk [Hl Hr]. cbn beta.
    replace (Z.to_nat (Z.min 5 H)) with (length (rmsWindow H cd di k))
      by (rewrite rmsWindow_length; lia).
    rewrite sumSquares_loop; cycle 1.
    { intros i Hi. rewrite rmsWindow_length in Hi. rewrite Z.add_0_l.
      rewrite (rmsWindow_get H cd di k (Z.of_nat i)) by (done || lia).
      by rewrite Nat2Z.id. }
    change (Z.to_nat NUM_CHANNELS) with 4%nat in Hl.
    rewrite bind_Ok, arr_set_Ok by (unfold NUM_CHANNELS in *; lia).
    eexists; split; [reflexivity|]. split; [by rewrite length_insert|].
    intros ch Hch. replace (Z.min 5 H) with 5 by lia.
    destruct (decide (ch = k)) as [->|Hne].
    + rewrite list_lookup_insert_eq by (unfold NUM_CHANNELS in *; lia).
      destruct (Z.ltb_spec k (k + 1)); [done|lia].
    + rewrite list_lookup_insert_ne by lia. rewrite Hr by done.
      destruct (Z.ltb_spec ch k), (Z.ltb_spec ch (k + 1)); (done || lia).
Qed.

(** ** [loop] *)

Lemma usub_elapsed (t0 e : Z) :
  0 <= e < ULONG_RANGE -> usub ((t0 + e) mod ULONG_RANGE) t0 = e.
Proof.
  intros He. unfold usub. rewrite Zminus_mod_idemp_l.
  replace (t0 + e - t0) with e by lia. by apply Z.mod_small.
Qed.

(** A due iteration of [loop] is a [tick] on the globals of [state]. *)
Lemma loop_due (fuel : nat) (inp : loop_input) (sk : sketch) :
  wf_state (core sk) = true ->
  length (instantRMS sk) = Z.to_nat NUM_CHANNELS ->
  NUM_CHANNELS <= Z.of_nat (length (analog_in inp)) ->
  (enough_fuel <= fuel)%nat ->
  SAMPLE_RATE_MS <= usub (millis_entry inp) (lastSample sk) ->
  exists st1 st' d a,
    sampleChannels (analog_in inp) (core sk) = Ok st1 /\
    tick fuel (analog_in inp) (core sk) = Ok st' /\
    frechetDistances st' !! 2%nat = Some d /\
    a = match serial_in inp with
        | Some cmd => if Ascii.eqb cmd "s" then negb (autoOutput sk) else autoOutput sk
        | None => autoOutput sk
        end /\
    loop fuel inp sk
    = Ok (mkSketch st'
            (map (fun ch => rmsOf (rmsWindow HISTORY_SIZE (channelData st1) (dataIndex st1) ch))
                 (seqZ 0 NUM_CHANNELS))
            (millis_entry inp) a,
          match serial_in inp with
          | Some cmd =>
            if Ascii.eqb cmd "s"
            then [Print "# Auto output "; Println (if a then "ON" else "OFF")]
            else []
          | None => []
          end ++
          if a then [PrintULong (millis_output inp); Print " "; PrintFloat d 6; Println ""]
          else []).
Proof.
  intros Hwf Hrms Hlen Hfuel Hdue.
  destruct (sampleChannels_spec (analog_in inp) (core sk) Hwf Hlen)
    as (cd' & Hs & Hcd' & _).
  pose proof Hwf as (Hcd & Hfd & Hdi & Hdp)%wf_state_spec.
  set (st1 := set_channelData cd' (core sk)) in *.
  assert (Hwf1 : wf_state st1 = true) by by apply wf_state_spec.
  destruct (calculateDiscreteFrechetDistances_spec fuel st1 Hwf1 Hfuel)
    as (st2 & Hcalc & Hwf2 & Hcd2 & Hdi2).
  pose proof Hwf2 as (_ & Hfd2 & _)%wf_state_spec.
  destruct (lookup_lt_is_Some_2 (frechetDistances st2) 2) as [d Hd];
    [rewrite Hfd2; unfold NUM_CHANNELS; lia|].
  exists st1, (set_dataIndex (Z.rem (dataIndex st2 + 1) HISTORY_SIZE) st2), d.
  eexists. split; [done|]. split; [by unfold tick; rewrite Hs, bind_Ok, Hcalc|].
  split; [done|]. split; [reflexivity|].
  unfold loop. destruct (Z.leb_spec SAMPLE_RATE_MS (usub (millis_entry inp) (lastSample sk)));
    [|lia].
  assert (Hout : outputMathematicalValues (millis_output inp) st2
                 = Ok [PrintULong (millis_output inp); Print " "; PrintFloat d 6; Println ""]).
  { unfold outputMathematicalValues, arr_get. change (NUM_CHANNELS - 2) with 2.
    simpl (0 <=? 2). change (Z.to_nat 2) with 2%nat. by rewrite Hd. }
  assert (Hr : calculateRMS HISTORY_SIZE (channelData st1) (dataIndex st1) (instantRMS sk)
               = Ok (map (fun ch => rmsOf (rmsWindow HISTORY_SIZE (channelData st1)
                                             (dataIndex st1) ch)) (seqZ 0 NUM_CHANNELS))).
  { apply calculateRMS_spec; (done || (unfold HISTORY_SIZE; lia)). }
  destruct (serial_in inp) as [cmd|]; [destruct (Ascii.eqb cmd "s")|];
    rewrite Hs, bind_Ok, Hr, bind_Ok, Hcalc, bind_Ok;
    destruct (autoOutput sk); cbn [negb]; rewrite ?Hout, ?bind_Ok; reflexivity.
Qed.

(** An iteration that is not due leaves everything but [autoOutput]. *)
Lemma loop_not_due (fuel : nat) (inp : loop_input) (sk : sketch) :
  usub (millis_entry inp) (lastSample sk) < SAMPLE_RATE_MS ->
  exists a out,
    loop fuel inp sk = Ok (mkSketch (core sk) (instantRMS sk) (lastSample sk) a, out).
Proof.
  intros Hnot. unfold loop.
  destruct (Z.leb_spec SAMPLE_RATE_MS (usub (millis_entry inp) (lastSample sk))); [lia|].
  destruct (serial_in inp) as [cmd|]; [destruct (Ascii.eqb cmd "s")|]; eauto.
Qed.

(** ** Sampling and correlation in the Gantt sketches *)

Lemma sampleInto_spec (H : Z) (analogRead : list Z) (di : Z) (cd : list (list float)) :
  wf_grid NUM_CHANNELS H cd = true -> 0 <= di < H ->
  NUM_CHANNELS <= Z.of_nat (length analogRead) ->
  exists cd',
    sampleInto analogRead di cd = Ok cd' /\
    wf_grid NUM_CHANNELS H cd' = true /\
    forall ch idx, 0 <= ch < NUM_CHANNELS -> 0 <= idx ->
      get2 cd' ch idx =
      if idx =? di then Ok (voltage (rawOf analogRead ch)) else get2 cd ch idx.
Proof.
  intros Hcd Hdi Hlen. unfold sampleInto.
  pose (P := fun (k : Z) (cd' : list (list float)) =>
    wf_grid NUM_CHANNELS H cd' = true /\
    forall ch idx, 0 <= ch -> 0 <= idx ->
      get2 cd' ch idx =
      if (ch <? k) && (idx =? di) then Ok (voltage (rawOf analogRead ch))
      else get2 cd ch idx).
  edestruct (for_loop_inv P) as (cd' & Hrun & Hwf' & Hcells); cycle 2.
  - exists cd'. split; [done|]. split; [done|].
    intros ch idx Hch Hidx. rewrite Hcells by lia.
    destruct (Z.ltb_spec ch (0 + Z.of_nat (Z.to_nat NUM_CHANNELS))); [done|lia].
  - split; [done|]. intros ch idx Hch Hidx.
    destruct (Z.ltb_spec ch 0); [lia|done].
  - intros k cd1 Hk [Hwf1 Hc1]. cbn beta.
    destruct (arr_get_Ok analogRead k) as (rawValue & -> & Hraw); [lia|].
    rewrite bind_Ok.
    destruct (set2_Ok _ _ cd1 k di (voltage rawValue) Hwf1)
      as (cd2 & -> & Hwf2 & Hget & Hother); [lia..|].
    exists cd2. split; [done|]. split; [done|].
    intros ch idx Hch Hidx.
    destruct (decide ((ch, idx) = (k, di))) as [[= -> ->]|Hne].
    + rewrite Hget. destruct (Z.ltb_spec k (k + 1)); [|lia].
      rewrite Z.eqb_refl. simpl. unfold rawOf. by rewrite Hraw.
    + rewrite Hother, Hc1 by (done || lia).
      destruct (Z.ltb_spec ch k), (Z.ltb_spec ch (k + 1)), (Z.eqb_spec idx di);
        simpl; try done; try lia.
      exfalso. apply Hne. f_equal; lia.
Qed.

Lemma for_loop_ok {St : Type} (body : Z -> St -> result St) (n : nat) (i : Z) (s : St) :
  (forall k s, i <= k < i + Z.of_nat n -> exists s', body k s = Ok s') ->
  exists s', for_loop n i body s = Ok s'.
Proof.
  intros Hbody.
  destruct (for_loop_inv (fun _ _ => True) body n i s I) as (s' & Hs & _).
  - intros k s0 Hk _. destruct (Hbody k s0 Hk) as [s1 H1]. by exists s1.
  - by exists s'.
Qed.

Section Correlation.

Variables (H : Z) (cd : list (list float)) (di : Z).
Hypothesis HH : 10 <= H.
Hypothesis Hcd : wf_grid NUM_CHANNELS H cd = true.
Hypothesis Hdi : 0 <= di < H.

Lemma corr_get (ch i : Z) :
  0 <= ch < NUM_CHANNELS -> 0 <= i < 10 ->
  exists v, get2 cd ch (backIndex H di i) = Ok v.
Proof using HH Hcd Hdi.
  intros Hch Hi.
  destruct (backIndex_bounds H di i) as (_ & Hb & _); [lia..|].
  by apply (get2_Ok _ _ cd ch _ Hcd).
Qed.

(** [calculateCorrelation] never fails, writes one entry per pair and
    leaves the entry of the last channel alone. *)
Lemma calculateCorrelation_spec (corr : list float) :
  length corr = Z.to_nat NUM_CHANNELS ->
  exists corr',
    calculateCorrelation H cd di corr = Ok corr' /\
    length corr' = Z.to_nat NUM_CHANNELS /\
    corr' !! 3%nat = corr !! 3%nat.
Proof using HH Hcd Hdi.
  intros Hlen. unfold calculateCorrelation.
  pose (P := fun (k : Z) (c : list float) =>
    length c = Z.to_nat NUM_CHANNELS /\ c !! 3%nat = corr !! 3%nat).
  edestruct (for_loop_inv P) as (c & Hrun & Hl & H3); cycle 2.
  - by exists c.
  - done.
  - intros k c Hk [Hl H3]. cbn beta.
    change (Z.to_nat (NUM_CHANNELS - 1)) with 3%nat in Hk.
    replace (Z.min 10 H) with 10 by lia.
    edestruct (for_loop_ok (St := float * float)) as ([s1 s2] & ->).
    { intros i [m1 m2] Hi.
      destruct (corr_get k i) as [x1 ->]; [unfold NUM_CHANNELS; lia|lia|].
      destruct (corr_get (k + 1) i) as [x2 ->]; [unfold NUM_CHANNELS; lia|lia|].
      rewrite !bind_Ok. eauto. }
    rewrite bind_Ok.
    edestruct (for_loop_ok (St := float * float * float)) as ([[num v1] v2] & ->).
    { intros i [[num v1] v2] Hi.
      destruct (corr_get k i) as [x1 ->]; [unfold NUM_CHANNELS; lia|lia|].
      destruct (corr_get (k + 1) i) as [x2 ->]; [unfold NUM_CHANNELS; lia|lia|].
      rewrite !bind_Ok. eauto. }
    rewrite bind_Ok. change (Z.to_nat NUM_CHANNELS) with 4%nat in Hl.
    destruct (F32.gt v1 F32.zero && F32.gt v2 F32.zero);
      rewrite arr_set_Ok by lia; (eexists; split; [reflexivity|]);
      (split; [by rewrite length_insert|]);
      rewrite list_lookup_insert_ne by lia; done.
Qed.

(** When the ten samples of one of the two channels are all 0.0, the
    variance test fails and the correlation is set to 0. *)
Lemma calculateCorrelation_flat (corr : list float) (ch z : Z) :
  length corr = Z.to_nat NUM_CHANNELS ->
  0 <= ch < NUM_CHANNELS - 1 ->
  z = ch \/ z = ch + 1 ->
  (forall i, 0 <= i < 10 -> get2 cd z (backIndex H di i) = Ok F32.zero) ->
  exists corr',
    calculateCorrelation H cd di corr = Ok corr' /\
    corr' !! Z.to_nat ch = Some F32.zero.
Proof using HH Hcd Hdi.
  intros Hlen Hch Hz Hzero. unfold calculateCorrelation.
  pose (P := fun (k : Z) (c : list float) =>
    length c = Z.to_nat NUM_CHANNELS /\
    (ch < k -> c !! Z.to_nat ch = Some F32.zero)).
  edestruct (for_loop_inv P) as (c & Hrun & Hl & Hc); cycle 2.
  - exists c. split; [done|]. apply Hc.
    change (Z.to_nat (NUM_CHANNELS - 1)) with 3%nat. unfold NUM_CHANNELS in *. lia.
  - split; [done|]. lia.
  - intros k c Hk [Hl Hc]. cbn beta.
    change (Z.to_nat (NUM_CHANNELS - 1)) with 3%nat in Hk.
    replace (Z.min 10 H) with 10 by lia.
    change (Z.to_nat NUM_CHANNELS) with 4%nat in Hl.
    (* the sums: the sum over the flat channel is +0 *)
    pose (Q1 := fun (_ : Z) (s : float * float) =>
      k = ch -> (z = ch -> s.1 = F32.zero) /\ (z = ch + 1 -> s.2 = F32.zero)).
    edestruct (for_loop_inv Q1) as ([s1 s2] & -> & Hs); cycle 2; [|done|].
    2:{ intros i [m1 m2] Hi HQ.
        destruct (corr_get k i) as [x1 Hx1]; [unfold NUM_CHANNELS; lia|lia|].
        destruct (corr_get (k + 1) i) as [x2 Hx2]; [unfold NUM_CHANNELS; lia|lia|].
        rewrite Hx1, Hx2, !bind_Ok. eexists; split; [reflexivity|].
        unfold Q1 in HQ |- *. cbn [fst snd] in HQ |- *.
        intros ->. specialize (HQ eq_refl) as [HQ1 HQ2].
        split; intros ->.
        - rewrite Hzero in Hx1 by lia. injection Hx1 as <-. by rewrite HQ1.
        - rewrite Hzero in Hx2 by lia. injection Hx2 as <-. by rewrite HQ2. }
    rewrite bind_Ok. unfold Q1 in Hs. cbn [fst snd] in Hs.
    pose (Q2 := fun (_ : Z) (s : float * float * float) =>
      k = ch -> (z = ch -> s.1.2 = F32.zero) /\ (z = ch + 1 -> s.2 = F32.zero)).
    edestruct (for_loop_inv Q2) as ([[num v1] v2] & -> & Hv); cycle 2; [|done|].
    2:{ intros i [[num v1] v2] Hi HQ.
        destruct (corr_get k i) as [x1 Hx1]; [unfold NUM_CHANNELS; lia|lia|].
        destruct (corr_get (k + 1) i) as [x2 Hx2]; [unfold NUM_CHANNELS; lia|lia|].
        rewrite Hx1, Hx2, !bind_Ok. eexists; split; [reflexivity|].
        unfold Q2 in HQ |- *. cbn [fst snd] in HQ |- *.
        intros ->. specialize (HQ eq_refl) as [HQ1 HQ2].
        specialize (Hs eq_refl) as [Hs1 Hs2].
        split; intros ->.
        - rewrite Hzero in Hx1 by lia. injection Hx1 as <-.
          by rewrite HQ1, Hs1.
        - rewrite Hzero in Hx2 by lia. injection Hx2 as <-.
          by rewrite HQ2, Hs2. }
    rewrite bind_Ok. unfold Q2 in Hv. cbn [fst snd] in Hv.
    destruct (decide (k = ch)) as [->|Hne].
    + assert (Hfalse : F32.gt v1 F32.zero && F32.gt v2 F32.zero = false).
      { destruct (Hv eq_refl) as [Hv1 Hv2]. destruct Hz as [->| ->].
        - by rewrite Hv1.
        - rewrite Hv2 by done. apply andb_false_r. }
      rewrite Hfalse, arr_set_Ok by lia.
      eexists; split; [reflexivity|]. split; [by rewrite length_insert|].
      intros _. rewrite list_lookup_insert_eq by lia. done.
    + destruct (F32.gt v1 F32.zero && F32.gt v2 F32.zero);
        rewrite arr_set_Ok by lia; (eexists; split; [reflexivity|]);
        (split; [by rewrite length_insert|]); intros Hlt;
        rewrite list_lookup_insert_ne by lia; apply Hc; lia.
Qed.

End Correlation.

(** ** The chart of the Gantt sketches *)

Lemma wf_gantt_spec (g : GanttData) :
  wf_gantt g = true <->
  wf_grid NUM_CHANNELS GANTT_HISTORY (gantt_correlation g) = true /\
  wf_grid NUM_CHANNELS GANTT_HISTORY (gantt_rms g) = true /\
  length (gantt_timestamps g) = Z.to_nat GANTT_HISTORY /\
  0 <= gantt_index g < GANTT_HISTORY.
Proof.
  unfold wf_gantt. rewrite !andb_true_iff, Nat.eqb_eq, Z.leb_le, Z.ltb_lt. tauto.
Qed.

Lemma wf_gstate_spec (H : Z) (gs : gstate) :
  wf_gstate H gs = true <->
  wf_grid NUM_CHANNELS H (gs_channelData gs) = true /\
  length (gs_instantRMS gs) = Z.to_nat NUM_CHANNELS /\
  length (gs_correlation gs) = Z.to_nat NUM_CHANNELS /\
  wf_gantt (gs_gantt gs) = true /\
  0 <= gs_dataIndex gs < H.
Proof.
  unfold wf_gstate. rewrite !andb_true_iff, !Nat.eqb_eq, Z.leb_le, Z.ltb_lt. tauto.
Qed.

Lemma updateGantt_spec (millis : Z) (corr rms : list float) (g : GanttData) :
  wf_gantt g = true ->
  length corr = Z.to_nat NUM_CHANNELS -> length rms = Z.to_nat NUM_CHANNELS ->
  exists g',
    updateGantt millis corr rms g = Ok g' /\
    wf_gantt g' = true /\
    gantt_index g' = (gantt_index g + 1) mod GANTT_HISTORY /\
    gantt_full g' = gantt_full g || (gantt_index g =? GANTT_HISTORY - 1) /\
    gantt_timestamps g' = <[Z.to_nat (gantt_index g) := millis]> (gantt_timestamps g) /\
    forall ch col, 0 <= ch < NUM_CHANNELS -> 0 <= col ->
      get2 (gantt_rms g') ch col
      = (if col =? gantt_index g then Ok (storedRMS rms ch)
         else get2 (gantt_rms g) ch col) /\
      get2 (gantt_correlation g') ch col
      = (if col =? gantt_index g then Ok (storedCorr corr ch)
         else get2 (gantt_correlation g) ch col).
Proof.
  intros (Hgc & Hgr & Hts & Hidx)%wf_gantt_spec Hcorr Hrms. unfold updateGantt.
  set (idx := gantt_index g) in *.
  pose (P := fun (k : Z) (s : list (list float) * list (list float)) =>
    wf_grid NUM_CHANNELS GANTT_HISTORY s.1 = true /\
    wf_grid NUM_CHANNELS GANTT_HISTORY s.2 = true /\
    forall ch col, 0 <= ch -> 0 <= col ->
      get2 s.2 ch col
      = (if (ch <? k) && (col =? idx) then Ok (storedRMS rms ch)
         else get2 (gantt_rms g) ch col) /\
      get2 s.1 ch col
      = (if (ch <? k) && (col =? idx) then Ok (storedCorr corr ch)
         else get2 (gantt_correlation g) ch col)).
  edestruct (for_loop_inv P) as ([gc gr] & -> & Hwc & Hwr & Hcells); cycle 2.
  - rewrite bind_Ok, arr_set_Ok, bind_Ok by lia. cbn [fst snd] in *.
    eexists; split; [reflexivity|].
    cbn [gantt_index gantt_full gantt_timestamps gantt_rms gantt_correlation].
    assert (Hrem : Z.rem (idx + 1) GANTT_HISTORY = (idx + 1) mod GANTT_HISTORY)
      by (apply Z.rem_mod_nonneg; unfold GANTT_HISTORY in *; lia).
    rewrite Hrem.
    pose proof (Z.mod_pos_bound (idx + 1) GANTT_HISTORY eq_refl) as Hb.
    split; [|split; [done|split; [|split; [done|]]]].
    + apply wf_gantt_spec.
      cbn [gantt_index gantt_full gantt_timestamps gantt_rms gantt_correlation].
      by rewrite length_insert.
    + unfold GANTT_HISTORY in *.
      destruct (gantt_full g); cbn [negb andb orb]; [done|].
      destruct (Z.eqb_spec idx (20 - 1)) as [->|Hne]; [done|].
      rewrite Z.mod_small by lia. destruct (Z.eqb_spec (idx + 1) 0); [lia|done].
    + intros ch col Hch Hcol. specialize (Hcells ch col ltac:(lia) Hcol).
      destruct (Z.ltb_spec ch (0 + Z.of_nat (Z.to_nat NUM_CHANNELS))); [done|lia].
  - repeat split; try done; destruct (Z.ltb_spec ch 0); (done || lia).
  - intros k [gc gr] Hk (Hwc & Hwr & Hcells). cbn [fst snd] in *.
    change (Z.to_nat NUM_CHANNELS) with 4%nat in *.
    assert (Hc : exists c, (if k <? NUM_CHANNELS - 1 then arr_get corr k else Ok F32.zero)
                           = Ok c /\ c = storedCorr corr k).
    { unfold storedCorr. destruct (Z.ltb_spec k (NUM_CHANNELS - 1)); [|by eexists].
      destruct (arr_get_Ok corr k) as (c & -> & ->); [lia|]. by exists c. }
    destruct Hc as (c & -> & ->). rewrite bind_Ok.
    destruct (set2_Ok _ _ gc k idx (storedCorr corr k) Hwc)
      as (gc' & -> & Hwc' & Hgetc & Hotherc); [unfold NUM_CHANNELS; lia|lia|].
    rewrite bind_Ok.
    destruct (arr_get_Ok rms k) as (r & -> & Hr); [lia|]. rewrite bind_Ok.
    destruct (set2_Ok _ _ gr k idx r Hwr)
      as (gr' & -> & Hwr' & Hgetr & Hotherr); [unfold NUM_CHANNELS; lia|lia|].
    rewrite bind_Ok. eexists; split; [reflexivity|]. unfold P. cbn [fst snd].
    split; [done|]. split; [done|].
    intros ch col Hch Hcol.
    destruct (decide ((ch, col) = (k, idx))) as [[= -> ->]|Hne].
    + rewrite Hgetc, Hgetr. destruct (Z.ltb_spec k (k + 1)); [|lia].
      rewrite Z.eqb_refl. cbn [andb]. unfold storedRMS. by rewrite Hr.
    + rewrite Hotherc, Hotherr by (done || lia).
      destruct (Hcells ch col Hch Hcol) as [-> ->].
      destruct (Z.ltb_spec ch k), (Z.ltb_spec ch (k + 1)), (Z.eqb_spec col idx);
        cbn [andb]; try done; try lia.
      exfalso. apply Hne. f_equal; lia.
Qed.

Lemma gantt_tick_spec (H millis : Z) (analogRead : list Z) (gs : gstate) :
  10 <= H -> wf_gstate H gs = true ->
  NUM_CHANNELS <= Z.of_nat (length analogRead) ->
  exists cd rms corr g,
    gantt_tick H millis analogRead gs
    = Ok (mkGstate cd rms corr g (Z.rem (gs_dataIndex gs + 1) H)) /\
    wf_grid NUM_CHANNELS H cd = true /\
    length rms = Z.to_nat NUM_CHANNELS /\
    length corr = Z.to_nat NUM_CHANNELS /\
    corr !! 3%nat = gs_correlation gs !! 3%nat /\
    updateGantt millis corr rms (gs_gantt gs) = Ok g.
Proof.
  intros HH (Hcd & Hrms & Hcorr & Hg & Hdi)%wf_gstate_spec Hlen. unfold gantt_tick.
  destruct (sampleInto_spec H analogRead (gs_dataIndex gs) (gs_channelData gs))
    as (cd & -> & Hcd' & _); [done..|].
  rewrite bind_Ok, calculateRMS_spec by (done || lia). rewrite bind_Ok.
  destruct (calculateCorrelation_spec H cd (gs_dataIndex gs) HH Hcd' Hdi
              (gs_correlation gs) Hcorr) as (corr & -> & Hcorr' & H3).
  rewrite bind_Ok.
  destruct (updateGantt_spec millis corr
              (map (fun ch => rmsOf (rmsWindow H cd (gs_dataIndex gs) ch)) (seqZ 0 NUM_CHANNELS))
              (gs_gantt gs) Hg Hcorr' eq_refl) as (g & Hup & _).
  rewrite Hup, bind_Ok. by eexists cd, _, corr, g.
Qed.

Lemma gantt_run_inv (H : Z) (millis : nat -> Z) (input : nat -> list Z) (n : nat) :
  10 <= H ->
  (forall t, NUM_CHANNELS <= Z.of_nat (length (input t))) ->
  exists gs, gantt_run H millis input n = Ok gs /\ ginv H millis input n gs.
Proof.
  intros HH Hlen. induction n as [|n (gs & Hrun & Hinv)].
  - exists (gantt_setup H). split; [done|].
    split.
    { apply wf_gstate_spec. cbn.
      rewrite !length_replicate. repeat split; try (done || lia).
      apply wf_grid_spec. rewrite length_replicate. split; [done|].
      intros i row Hrow. apply lookup_replicate in Hrow as [-> _].
      by rewrite length_replicate. }
    split; [by rewrite Z.mod_0_l by lia|]. split; [done|]. split; [done|].
    split; [done|]. intros; lia.
  - destruct Hinv as (Hwf & Hdi & Hgi & Hfull & Hc3 & Hhist).
    destruct (gantt_tick_spec H (millis n) (input n) gs HH Hwf (Hlen n))
      as (cd & rms & corr & g & Htick & Hcd & Hrms & Hcorr & H3 & Hup).
    pose proof Hwf as (_ & _ & _ & Hg & Hdib)%wf_gstate_spec.
    destruct (updateGantt_spec (millis n) corr rms (gs_gantt gs) Hg Hcorr Hrms)
      as (g' & Hup' & Hg' & Hidx' & Hfull' & Hts' & Hcells).
    rewrite Hup in Hup'. injection Hup' as <-.
    assert (Hrun' : gantt_run H millis input (S n)
                    = Ok (mkGstate cd rms corr g (Z.rem (gs_dataIndex gs + 1) H))).
    { cbn [gantt_run]. by rewrite Hrun, bind_Ok. }
    eexists; split; [exact Hrun'|].
    assert (Hrec : recorded H millis input n
                   = mkGstate cd rms corr g (Z.rem (gs_dataIndex gs + 1) H)).
    { unfold recorded. by rewrite Hrun'. }
    pose proof (Z.mod_pos_bound (Z.of_nat n) H ltac:(lia)) as HbH.
    pose proof (Z.mod_pos_bound (Z.of_nat n) GANTT_HISTORY eq_refl) as HbG.
    assert (HdiS : Z.rem (gs_dataIndex gs + 1) H = Z.of_nat (S n) mod H).
    { rewrite Hdi, Z.rem_mod_nonneg by lia.
      rewrite Nat2Z.inj_succ. unfold Z.succ.
      by rewrite (Z.add_mod (Z.of_nat n) 1), (Z.add_mod (Z.of_nat n mod H) 1),
        Z.mod_mod by lia. }
    split; [|split; [done|split; [|split; [|split]]]];
      cbn [gs_dataIndex gs_gantt gs_correlation gs_instantRMS gs_channelData].
    + apply wf_gstate_spec.
      cbn [gs_dataIndex gs_gantt gs_correlation gs_instantRMS gs_channelData].
      repeat (split; [done|]). rewrite HdiS. apply Z.mod_pos_bound. lia.
    + rewrite Hidx', Hgi, Nat2Z.inj_succ. unfold Z.succ, GANTT_HISTORY.
      by rewrite (Z.add_mod (Z.of_nat n) 1), (Z.add_mod (Z.of_nat n mod 20) 1),
        Z.mod_mod by lia.
    + rewrite Hfull', Hfull, Hgi. unfold GANTT_HISTORY in *.
      destruct (Z.leb_spec 20 (Z.of_nat n)), (Z.leb_spec 20 (Z.of_nat (S n)));
        cbn [orb]; try (done || lia).
      * assert (Z.of_nat n = 19) as -> by lia. reflexivity.
      * destruct (Z.eqb_spec (Z.of_nat n mod 20) (20 - 1)) as [Heq|Hne]; [|done].
        rewrite Z.mod_small in Heq by lia. lia.
    + by rewrite H3.
    + intros t ch Ht Hrecent Hch.
      destruct (Hcells ch (Z.of_nat t mod GANTT_HISTORY) Hch) as [Hr Hc];
        [apply Z.mod_pos_bound; done|].
      rewrite Hr, Hc, Hts', Hgi.
      destruct (Z.eqb_spec (Z.of_nat t mod GANTT_HISTORY) (Z.of_nat n mod GANTT_HISTORY))
        as [Heq|Hne].
      * assert (t = n) as ->.
        { unfold GANTT_HISTORY in *.
          assert (Hm : (Z.of_nat n - Z.of_nat t) mod 20 = 0)
            by (rewrite Zminus_mod, Heq, Z.sub_diag; reflexivity).
          rewrite Z.mod_small in Hm by lia. lia. }
        rewrite Hrec. cbn [gs_instantRMS gs_correlation].
        split; [done|]. split; [done|].
        apply wf_gantt_spec in Hg as (_ & _ & Hts & _).
        apply list_lookup_insert_eq. rewrite Hts. unfold GANTT_HISTORY.
        pose proof (Z.mod_pos_bound (Z.of_nat n) 20 eq_refl). lia.
      * assert (t <> n) by (intros ->; done).
        destruct (Hhist t ch) as (Hr0 & Hc0 & Ht0); [lia|lia|done|].
        split; [done|]. split; [done|].
        pose proof (Z.mod_pos_bound (Z.of_nat t) GANTT_HISTORY eq_refl) as Hbt.
        rewrite list_lookup_insert_ne; [done|]. unfold GANTT_HISTORY in *. lia.
Qed.

Lemma ganttEntries_min (H : Z) (millis : nat -> Z) (input : nat -> list Z)
    (n : nat) (gs : gstate) :
  ginv H millis input n gs ->
  ganttEntries (gs_gantt gs) = Z.min (Z.of_nat n) GANTT_HISTORY.
Proof.
  intros (_ & _ & Hgi & Hfull & _). unfold ganttEntries. rewrite Hfull, Hgi.
  unfold GANTT_HISTORY. destruct (Z.leb_spec 20 (Z.of_nat n)); [lia|].
  rewrite Z.mod_small by lia. lia.
Qed.

Lemma ganttIndex_slot (g : GanttData) (n : nat) (entries i : Z) :
  gantt_index g = Z.of_nat n mod GANTT_HISTORY ->
  entries = Z.min (Z.of_nat n) GANTT_HISTORY -> 0 <= i < entries ->
  0 <= gantt_index g - entries + i + GANTT_HISTORY /\
  ganttIndex g entries i
  = Z.of_nat (n - Z.to_nat entries + Z.to_nat i) mod GANTT_HISTORY.
Proof.
  intros Hgi -> Hi. unfold ganttIndex. rewrite Hgi. unfold GANTT_HISTORY in *.
  pose proof (Z.mod_pos_bound (Z.of_nat n) 20 eq_refl) as Hb.
  split; [lia|]. rewrite Z.rem_mod_nonneg by lia.
  replace (Z.of_nat n mod 20 - Z.min (Z.of_nat n) 20 + i + 20)
    with (Z.of_nat n mod 20 + (- Z.min (Z.of_nat n) 20 + i + 1 * 20)) by lia.
  rewrite Zplus_mod_idemp_l.
  replace (Z.of_nat n + (- Z.min (Z.of_nat n) 20 + i + 1 * 20))
    with (Z.of_nat (n - Z.to_nat (Z.min (Z.of_nat n) 20) + Z.to_nat i) + 1 * 20) by lia.
  apply Z_mod_plus_full.
Qed.

Lemma ganttTimeline_spec (H : Z) (millis : nat -> Z) (input : nat -> list Z)
    (n : nat) (gs : gstate) (ch : Z) :
  ginv H millis input n gs -> 0 <= ch < NUM_CHANNELS ->
  let entries := ganttEntries (gs_gantt gs) in
  ganttTimeline (gs_gantt gs) ch entries
  = Ok (expectedRow H millis input (n - Z.to_nat entries) (Z.to_nat entries) ch).
Proof.
  intros Hinv Hch entries.
  pose proof (ganttEntries_min H millis input n gs Hinv) as He. fold entries in He.
  destruct Hinv as (_ & _ & Hgi & _ & _ & Hhist).
  unfold ganttTimeline.
  replace (Z.min entries GANTT_WIDTH) with entries
    by (unfold GANTT_WIDTH, GANTT_HISTORY in *; lia).
  pose (P := fun (i : Z) (out : list serial_event) =>
    out = expectedRow H millis input (n - Z.to_nat entries) (Z.to_nat i) ch).
  edestruct (for_loop_inv P) as (out & -> & Hout); cycle 2.
  - f_equal. rewrite Hout. f_equal. lia.
  - done.
  - intros i out Hi ->. cbn beta.
    destruct (ganttIndex_slot (gs_gantt gs) n entries i Hgi He) as [_ ->];
      [unfold GANTT_HISTORY in *; lia|].
    destruct (Hhist (n - Z.to_nat entries + Z.to_nat i)%nat ch) as (Hr & Hc & _);
      [unfold GANTT_HISTORY in *; lia..|done|].
    rewrite Hc, bind_Ok, Hr, bind_Ok. eexists; split; [reflexivity|].
    unfold P, expectedRow.
    replace (Z.to_nat (i + 1)) with (S (Z.to_nat i)) by lia.
    by rewrite seq_S, map_app.
Qed.

Lemma for_step_inv {St : Type} (P : Z -> St -> Prop) (body : Z -> St -> result St)
    (stop step : Z) :
  0 < step ->
  (forall i s, i < stop -> P i s -> exists s', body i s = Ok s' /\ P (i + step) s') ->
  forall (fuel : nat) (i : Z) (s : St),
    P i s -> (Z.to_nat (stop - i) < fuel)%nat ->
    exists i' s', for_step fuel i stop step body s = Ok s' /\ P i' s' /\ stop <= i'.
Proof.
  intros Hstep Hbody. induction fuel as [|fuel IH]; intros i s HP Hfuel; [lia|].
  cbn [for_step]. destruct (Z.ltb_spec i stop) as [Hlt|Hge].
  - destruct (Hbody i s Hlt HP) as (s1 & -> & HP1). rewrite bind_Ok.
    apply IH; [done|lia].
  - by exists i, s.
Qed.

Lemma displayGanttChart_spec (H : Z) (millis : nat -> Z) (input : nat -> list Z)
    (now : Z -> Z) (n : nat) (gs : gstate) :
  ginv H millis input n gs ->
  displayGanttChart now gs = Ok (expectedChart H millis input now n gs).
Proof.
  intros Hinv.
  pose proof (ganttEntries_min H millis input n gs Hinv) as He.
  pose proof (fun ch => ganttTimeline_spec H millis input n gs ch Hinv) as Hrow.
  cbn zeta in Hrow.
  destruct Hinv as (Hwf & _ & Hgi & _ & _ & Hhist).
  apply wf_gstate_spec in Hwf as (_ & Hlr & Hlc & Hg & _).
  apply wf_gantt_spec in Hg as (_ & _ & Hlt & _).
  unfold displayGanttChart, expectedChart.
  set (entries := ganttEntries (gs_gantt gs)) in *. clearbody entries.
  assert (Hen : entries = Z.of_nat (Nat.min n 20)) by (unfold GANTT_HISTORY in He; lia).
  destruct (Nat.ltb_spec n 2) as [Hn|Hn];
    (destruct (Z.ltb_spec entries 2) as [Hlt2|Hge2]; [try lia|try lia]); [done|].
  rewrite <- Hen.
  set (base := [Println _] ++ [Print "CH |"] ++ ganttRuler entries ++ [Println "| RMS  | CORR"]).
  edestruct (for_loop_inv
    (fun k out => out = base ++ flat_map (expectedLine H millis input n gs) (seqZ 0 k)))
    as (out & -> & ->); cycle 2.
  - rewrite bind_Ok.
    set (base2 := ((_ ++ _) ++ _) ++ [Print "Time: "]).
    edestruct (for_step_inv
      (fun i out => exists k : nat, i = 5 * Z.of_nat k /\ i < entries + 5 /\
         out = base2 ++ flat_map (fun k =>
              [PrintULong (usub (now (5 * Z.of_nat k))
                                (millis (n - Nat.min n 20 + 5 * k)%nat) / 1000);
               Print "s  "]) (seq 0 k)))
      as (i' & out & -> & (k & Hi' & Hi'' & ->) & Hstop); cycle 4.
    + rewrite bind_Ok. f_equal. unfold expectedTimes.
      replace (Z.min entries GANTT_WIDTH) with entries in Hstop
        by (unfold GANTT_WIDTH; lia).
      replace (Nat.div (Nat.min n 20 + 4) 5) with k.
      2:{ clear - Hi' Hi'' Hstop Hen. apply Nat2Z.inj. rewrite Nat2Z.inj_div.
          apply Z.div_unique with (r := entries + 4 - 5 * Z.of_nat k); lia. }
      unfold base2, base. rewrite <- !app_assoc. reflexivity.
    + lia.
    + intros i out Hi (k & -> & _ & ->).
      replace (Z.min entries GANTT_WIDTH) with entries in Hi
        by (unfold GANTT_WIDTH; lia).
      cbn beta zeta.
      destruct (ganttIndex_slot (gs_gantt gs) n entries (5 * Z.of_nat k) Hgi He) as [_ ->];
        [lia|].
      set (t := (n - Z.to_nat entries + Z.to_nat (5 * Z.of_nat k))%nat).
      destruct (Hhist t 0) as (_ & _ & Hts);
        [unfold t; lia | unfold t, GANTT_HISTORY; lia | unfold NUM_CHANNELS; lia|].
      pose proof (Z.mod_pos_bound (Z.of_nat t) GANTT_HISTORY eq_refl) as Hb.
      destruct (arr_get_Ok (gantt_timestamps (gs_gantt gs)) (Z.of_nat t mod GANTT_HISTORY))
        as (x & -> & Hx); [rewrite Hlt; unfold GANTT_HISTORY in *; lia|].
      rewrite Hts in Hx. injection Hx as <-. rewrite bind_Ok.
      eexists; split; [reflexivity|]. exists (S k).
      split; [lia|]. split; [lia|].
      rewrite seq_S, flat_map_app, app_assoc. cbn [flat_map app Nat.add].
      replace t with (n - Nat.min n 20 + 5 * k)%nat by (unfold t; lia).
      reflexivity.
    + exists 0%nat. split; [lia|]. split; [lia|]. cbn [seq flat_map].
      by rewrite app_nil_r.
    + unfold GANTT_WIDTH. lia.
  - cbn [seqZ]. by rewrite app_nil_r.
  - intros k out Hk ->. change (Z.to_nat NUM_CHANNELS) with 4%nat in *.
    destruct (arr_get_Ok (gs_instantRMS gs) k) as (r & -> & Hr); [lia|].
    rewrite bind_Ok.
    assert (Hexp : seqZ 0 (k + 1) = seqZ 0 k ++ [k]).
    { rewrite seqZ_app by lia. reflexivity. }
    rewrite Hexp, flat_map_app. cbn [flat_map]. rewrite app_nil_r.
    generalize (flat_map (expectedLine H millis input n gs) (seqZ 0 k)). intros prev.
    unfold expectedLine, storedRMS. rewrite Hr.
    change (default F32.zero (Some r)) with r. cbn zeta.
    destruct (FArith.lt_double r (FArith.dec 1 2)); cbn iota.
    { eexists; split; [reflexivity|]. by rewrite app_nil_r. }
    rewrite Hrow by (unfold NUM_CHANNELS; lia). rewrite bind_Ok.
    replace (Z.to_nat entries) with (Nat.min n 20) by lia.
    unfold storedCorr.
    destruct (k <? NUM_CHANNELS - 1) eqn:Hk3.
    + destruct (arr_get_Ok (gs_correlation gs) k) as (c & -> & Hc); [lia|].
      rewrite !bind_Ok, Hc. change (default F32.zero (Some c)) with c.
      eexists; split; [reflexivity|]. rewrite <- !app_assoc. reflexivity.
    + rewrite bind_Ok.
      eexists; split; [reflexivity|]. rewrite <- !app_assoc. reflexivity.
Qed.

Lemma mediumSignalCount_bound (rms corr : list float) :
  length rms = Z.to_nat NUM_CHANNELS -> length corr = Z.to_nat NUM_CHANNELS ->
  corr !! 3%nat = Some F32.zero ->
  exists c, mediumSignalCount rms corr = Ok c /\ 0 <= c <= 3.
Proof.
  intros Hrms Hcorr H3. unfold mediumSignalCount.
  change (Z.to_nat NUM_CHANNELS) with 4%nat in *.
  destruct (for_loop_inv (fun k c => 0 <= c <= Z.min k 3)
    (fun ch count =>
       r ← arr_get rms ch;
       if FArith.gt_double r (FArith.dec 5 1) then
         c ← arr_get corr ch;
         Ok (if FArith.gt_double (F32.abs c) (FArith.dec 3 1) then count + 1 else count)
       else Ok count) 4 0 0) as (c & Hrun & Hc); [lia| |exists c; split; [done|lia]].
  intros k count Hk Hcount.
  destruct (arr_get_Ok rms k) as (r & -> & _); [lia|]. rewrite bind_Ok.
  destruct (FArith.gt_double r (FArith.dec 5 1)); [|exists count; split; [done|lia]].
  destruct (arr_get_Ok corr k) as (x & -> & Hx); [lia|]. rewrite bind_Ok.
  eexists; split; [reflexivity|].
  destruct (decide (k = 3)) as [->|Hne].
  - change (Z.to_nat 3) with 3%nat in Hx. rewrite H3 in Hx. injection Hx as <-.
    change (FArith.gt_double (F32.abs F32.zero) (FArith.dec 3 1)) with false.
    cbn iota. lia.
  - destruct (FArith.gt_double (F32.abs x) (FArith.dec 3 1)); lia.
Qed.

(** ** The window of [calculateRMS] in frechet_space.ino *)

Lemma finite_grid_get (cd : list (list float)) (ch idx : Z) (v : float) :
  finite_grid cd = true -> get2 cd ch idx = Ok v -> F32.is_finite v = true.
Proof.
  unfold get2. intros Hfin (row & Hrow & Hv)%bind_Ok_inv.
  apply arr_get_inv in Hrow as [_ Hrow]. apply arr_get_inv in Hv as [_ Hv].
  pose proof (forallb_lookup _ _ _ _ Hfin Hrow) as Hfr.
  exact (forallb_lookup _ _ _ _ Hfr Hv).
Qed.

Lemma rmsWindow_finite (H : Z) (cd : list (list float)) (di ch : Z) :
  finite_grid cd = true -> finite_curve (rmsWindow H cd di ch) = true.
Proof.
  intros Hfin. unfold finite_curve, rmsWindow. apply forallb_forall.
  intros x (i & <- & _)%in_map_iff.
  destruct (get2 cd ch (backIndex H di i)) as [v| |] eqn:Hv; try done.
  exact (finite_grid_get cd ch _ v Hfin Hv).
Qed.

Lemma rmsWindow_recent (input : nat -> list Z) (n : nat) (st : state) (ch : Z) :
  sampled_inv input n st -> (4 <= n)%nat -> 0 <= ch < NUM_CHANNELS ->
  rmsWindow HISTORY_SIZE (channelData st) (dataIndex st) ch = lastFive input n ch.
Proof.
  intros (Hwf & Hdi & Hhist) Hn Hch.
  apply wf_state_spec in Hwf as (_ & _ & Hdib & _).
  apply list_eq. intros k. unfold rmsWindow, lastFive. rewrite !list_lookup_fmap.
  destruct (decide (k < 5)%nat) as [Hk|Hk].
  - rewrite lookup_seqZ_lt, lookup_seq_lt by lia. cbn [fmap option_fmap option_map].
    rewrite Z.add_0_l, Nat.add_0_l.
    destruct (backIndex_bounds HISTORY_SIZE (dataIndex st) (Z.of_nat k)) as (_ & _ & ->);
      [done|unfold HISTORY_SIZE; lia|].
    rewrite Hdi, Zminus_mod_idemp_l.
    replace (Z.of_nat n - Z.of_nat k) with (Z.of_nat (n - k)) by lia.
    rewrite Hhist; [done|lia|unfold HISTORY_SIZE; lia|done].
  - rewrite lookup_seqZ_ge, lookup_seq_ge by lia. done.
Qed.

(** ** Samples of reachable states *)

Lemma tick_cells (fuel : nat) (analogRead : list Z) (st st' : state) :
  wf_state st = true -> NUM_CHANNELS <= Z.of_nat (length analogRead) ->
  (enough_fuel <= fuel)%nat ->
  tick fuel analogRead st = Ok st' ->
  forall ch idx, 0 <= ch < NUM_CHANNELS -> 0 <= idx ->
    get2 (channelData st') ch idx =
    if idx =? dataIndex st then Ok (voltage (rawOf analogRead ch))
    else get2 (channelData st) ch idx.
Proof.
  intros Hwf Hlen Hfuel Htick.
  destruct (sampleChannels_spec analogRead st Hwf Hlen) as (cd' & Hs & Hcd' & Hcells).
  unfold tick in Htick. rewrite Hs, bind_Ok in Htick.
  assert (Hwf1 : wf_state (set_channelData cd' st) = true).
  { apply wf_state_spec in Hwf as (? & ? & ? & ?). by apply wf_state_spec. }
  destruct (calculateDiscreteFrechetDistances_spec fuel _ Hwf1 Hfuel)
    as (st2 & Hcalc & _ & Hcd2 & _).
  rewrite Hcalc, bind_Ok in Htick. injection Htick as <-.
  cbn [set_dataIndex channelData]. rewrite Hcd2. exact Hcells.
Qed.

(** * Further results *)

(** X1: the value the engine returns is the distance of two of the
    samples it was given, one of each curve. *)
Theorem frechetEngine_attained
    (fuel : nat) (A B : list float) (W : Z) (dp : table) :
  1 <= W <= FRECHET_WINDOW ->
  Z.of_nat (length A) = W -> Z.of_nat (length B) = W ->
  wf_table dp = true ->
  (Z.to_nat (2 * W) <= fuel)%nat ->
  exists k l a b,
    A !! k = Some a /\ B !! l = Some b /\
    value (frechetEngine fuel A B W dp) = Ok (euclideanDistance a b).
Proof.
  intros HW HA HB Hwf Hfuel.
  destruct (frechetEngine_F fuel A B W dp) as (dp' & -> & _); try (done || lia).
  destruct (F_attained A B (Z.to_nat (W - 1)) (Z.to_nat (W - 1)))
    as (k & l & Hk & Hl & ->).
  destruct (lookup_lt_is_Some_2 A k) as [a Ha]; [lia|].
  destruct (lookup_lt_is_Some_2 B l) as [b Hb]; [lia|].
  exists k, l, a, b. split; [done|]. split; [done|].
  unfold Spec.pt. by rewrite Ha, Hb.
Qed.

Lemma frechetEngine_attained_witness :
  exists k l a b,
    curveA !! k = Some a /\ curveB !! l = Some b /\
    value (frechetEngine 6 curveA curveB 3 (dpTable setup)) = Ok (euclideanDistance a b).
Proof.
  apply (frechetEngine_attained 6 curveA curveB 3 (dpTable setup));
    [unfold FRECHET_WINDOW; lia | reflexivity | reflexivity | reflexivity | simpl; lia].
Defined.

(** X2: on curves of finite samples the value is never a NaN and never
    negative, and it is at least the distance of the two first samples and
    at least the distance of the two last samples. *)
Theorem frechetEngine_lower_bounds
    (fuel : nat) (A B : list float) (W : Z) (dp : table) :
  1 <= W <= FRECHET_WINDOW ->
  Z.of_nat (length A) = W -> Z.of_nat (length B) = W ->
  finite_curve A = true -> finite_curve B = true ->
  wf_table dp = true ->
  (Z.to_nat (2 * W) <= fuel)%nat ->
  exists r,
    value (frechetEngine fuel A B W dp) = Ok r /\
    F32.nonneg r = true /\
    SFleb (euclideanDistance (Spec.pt A 0) (Spec.pt B 0)) r = true /\
    SFleb (euclideanDistance (Spec.pt A (Z.to_nat (W - 1)))
                             (Spec.pt B (Z.to_nat (W - 1)))) r = true.
Proof.
  intros HW HA HB HfA HfB Hwf Hfuel.
  destruct (frechetEngine_F fuel A B W dp) as (dp' & -> & _); try (done || lia).
  eexists; split; [reflexivity|]. split; [by apply F_nonneg|]. split.
  - change (euclideanDistance (Spec.pt A 0) (Spec.pt B 0)) with (Spec.F A B 0 0).
    by apply F_ge_start.
  - by apply F_ge_d.
Qed.

Lemma frechetEngine_lower_bounds_witness :
  exists r,
    value (frechetEngine 6 curveA curveB 3 (dpTable setup)) = Ok r /\
    F32.nonneg r = true /\
    SFleb (euclideanDistance (Spec.pt curveA 0) (Spec.pt curveB 0)) r = true /\
    SFleb (euclideanDistance (Spec.pt curveA (Z.to_nat (3 - 1)))
                             (Spec.pt curveB (Z.to_nat (3 - 1)))) r = true.
Proof.
  apply (frechetEngine_lower_bounds 6 curveA curveB 3 (dpTable setup));
    [unfold FRECHET_WINDOW; lia | reflexivity | reflexivity | reflexivity
    | reflexivity | reflexivity | simpl; lia].
Defined.

(** X3: on curves of finite samples the value is at most the largest
    distance between samples of equal index. *)
Theorem frechetEngine_upper_bound
    (fuel : nat) (A B : list float) (W : Z) (dp : table) :
  1 <= W <= FRECHET_WINDOW ->
  Z.of_nat (length A) = W -> Z.of_nat (length B) = W ->
  finite_curve A = true -> finite_curve B = true ->
  wf_table dp = true ->
  (Z.to_nat (2 * W) <= fuel)%nat ->
  exists r k a b,
    value (frechetEngine fuel A B W dp) = Ok r /\
    A !! k = Some a /\ B !! k = Some b /\
    SFleb r (euclideanDistance a b) = true.
Proof.
  intros HW HA HB HfA HfB Hwf Hfuel.
  destruct (frechetEngine_F fuel A B W dp) as (dp' & -> & _); try (done || lia).
  destruct (F_le_diag A B HfA HfB (Z.to_nat (W - 1))) as (k & Hk & Hle).
  destruct (lookup_lt_is_Some_2 A k) as [a Ha]; [lia|].
  destruct (lookup_lt_is_Some_2 B k) as [b Hb]; [lia|].
  eexists _, k, a, b. split; [reflexivity|]. split; [done|]. split; [done|].
  unfold Spec.pt in Hle. by rewrite Ha, Hb in Hle.
Qed.

Lemma frechetEngine_upper_bound_witness :
  exists r k a b,
    value (frechetEngine 6 curveA curveB 3 (dpTable setup)) = Ok r /\
    curveA !! k = Some a /\ curveB !! k = Some b /\
    SFleb r (euclideanDistance a b) = true.
Proof.
  apply (frechetEngine_upper_bound 6 curveA curveB 3 (dpTable setup));
    [unfold FRECHET_WINDOW; lia | reflexivity | reflexivity | reflexivity
    | reflexivity | reflexivity | simpl; lia].
Defined.

(** X4: the engine leaves in the table the whole recurrence on the active
    W-by-W region, and no cell outside that region is changed. *)
Theorem frechetEngine_leaves_table
    (fuel : nat) (A B : list float) (W : Z) (dp : table) :
  1 <= W <= FRECHET_WINDOW ->
  Z.of_nat (length A) = W -> Z.of_nat (length B) = W ->
  wf_table dp = true ->
  (Z.to_nat (2 * W) <= fuel)%nat ->
  exists r dp',
    frechetEngine fuel A B W dp = Ok (r, dp') /\
    (forall i j, 0 <= i < W -> 0 <= j < W ->
       get2 dp' i j = Ok (Spec.F A B (Z.to_nat i) (Z.to_nat j))) /\
    (forall i j, 0 <= i -> 0 <= j -> ~ (i < W /\ j < W) ->
       get2 dp' i j = get2 dp i j).
Proof.
  intros HW HA HB Hwf Hfuel. unfold frechetEngine.
  destruct (initDpTable_unset W dp) as (dp0 & Hinit & Hwf0 & Hunset); [lia|done|].
  destruct (initDpTable_frame W dp) as (dp0' & Hinit' & Hframe0); [lia|done|].
  rewrite Hinit in Hinit'. injection Hinit' as <-.
  rewrite Hinit, bind_Ok.
  destruct (frechetDP_fill A B W) with (fuel := fuel) (i := W - 1) (j := W - 1) (dp := dp0)
    as (dp' & -> & _ & Hrect & _ & Hframe); try lia.
  - split; [done|]. intros i j Hi Hj. left. by apply Hunset.
  - eexists _, dp'. split; [reflexivity|]. split.
    + intros i j Hi Hj. apply Hrect; lia.
    + intros i j Hi Hj Hout. rewrite Hframe by (done || lia). by apply Hframe0.
Qed.

Lemma frechetEngine_leaves_table_witness :
  exists r dp',
    frechetEngine 6 curveA curveB 3 (dpTable dirty_state) = Ok (r, dp') /\
    (forall i j, 0 <= i < 3 -> 0 <= j < 3 ->
       get2 dp' i j = Ok (Spec.F curveA curveB (Z.to_nat i) (Z.to_nat j))) /\
    (forall i j, 0 <= i -> 0 <= j -> ~ (i < 3 /\ j < 3) ->
       get2 dp' i j = get2 (dpTable dirty_state) i j).
Proof.
  apply (frechetEngine_leaves_table 6 curveA curveB 3 (dpTable dirty_state));
    [unfold FRECHET_WINDOW; lia | reflexivity | reflexivity | reflexivity | simpl; lia].
Defined.

(** X5: asked for a window that is not positive, [discreteFrechetDistance]
    reads no sample, leaves the table as it is and returns +infinity. *)
Theorem discreteFrechetDistance_empty_window
    (fuel : nat) (ch1 ch2 windowSize : Z) (st : state) :
  INT_MIN < windowSize <= 0 -> (0 < fuel)%nat ->
  exists st',
    discreteFrechetDistance fuel ch1 ch2 windowSize st = Ok (F32.INFINITY, st') /\
    dpTable st' = dpTable st /\ channelData st' = channelData st /\
    frechetDistances st' = frechetDistances st /\ dataIndex st' = dataIndex st.
Proof.
  intros HW Hfuel. unfold discreteFrechetDistance, extractWindow.
  assert (Ha : actualWindow windowSize = windowSize)
    by (unfold actualWindow, FRECHET_WINDOW, HISTORY_SIZE; lia).
  rewrite Ha. replace (Z.to_nat windowSize) with 0%nat by lia.
  cbn [for_loop]. rewrite bind_Ok.
  rewrite frechetEngine_empty by lia. rewrite bind_Ok.
  eexists; split; [reflexivity|]. done.
Qed.

Lemma discreteFrechetDistance_empty_window_witness :
  exists st',
    discreteFrechetDistance 1 0 1 0 demo_state = Ok (F32.INFINITY, st') /\
    dpTable st' = dpTable demo_state /\ channelData st' = channelData demo_state /\
    frechetDistances st' = frechetDistances demo_state /\
    dataIndex st' = dataIndex demo_state.
Proof.
  apply (discreteFrechetDistance_empty_window 1 0 1 0 demo_state);
    [unfold INT_MIN; lia | lia].
Defined.

(** X6: with a window of at least 3 the orchestrator stores, for each
    pair (ch, ch+1), the cell F(W-1, W-1) of the recurrence on the two
    extracted windows, and 0.0 for the last channel; it invokes
    [discreteFrechetDistance] exactly three times, in the order of the
    pairs, and leaves the samples and the write cursor alone. *)
Theorem orchestrator_results (fuel : nat) (st : state) :
  wf_state st = true -> (enough_fuel <= fuel)%nat ->
  3 <= orchestratorWindow (dataIndex st) ->
  exists st',
    calculateDiscreteFrechetDistances fuel st = Ok st' /\
    frechetDistances st'
    = [windowDistance (channelData st) (dataIndex st) 0 1 (orchestratorWindow (dataIndex st));
       windowDistance (channelData st) (dataIndex st) 1 2 (orchestratorWindow (dataIndex st));
       windowDistance (channelData st) (dataIndex st) 2 3 (orchestratorWindow (dataIndex st));
       F32.zero] /\
    engineCalls st'
    = engineCalls st ++ [(0, 1, orchestratorWindow (dataIndex st));
                         (1, 2, orchestratorWindow (dataIndex st));
                         (2, 3, orchestratorWindow (dataIndex st))] /\
    channelData st' = channelData st /\ dataIndex st' = dataIndex st.
Proof.
  intros Hwf Hfuel Hhigh.
  destruct (calculateDiscreteFrechetDistances_high fuel st Hwf Hfuel Hhigh)
    as (dp' & -> & _).
  eexists; split; [reflexivity|]. done.
Qed.

Lemma orchestrator_results_witness :
  exists st',
    calculateDiscreteFrechetDistances enough_fuel demo_state = Ok st' /\
    frechetDistances st'
    = [windowDistance (channelData demo_state) (dataIndex demo_state) 0 1
         (orchestratorWindow (dataIndex demo_state));
       windowDistance (channelData demo_state) (dataIndex demo_state) 1 2
         (orchestratorWindow (dataIndex demo_state));
       windowDistance (channelData demo_state) (dataIndex demo_state) 2 3
         (orchestratorWindow (dataIndex demo_state));
       F32.zero] /\
    engineCalls st'
    = engineCalls demo_state ++ [(0, 1, orchestratorWindow (dataIndex demo_state));
                                 (1, 2, orchestratorWindow (dataIndex demo_state));
                                 (2, 3, orchestratorWindow (dataIndex demo_state))] /\
    channelData st' = channelData demo_state /\ dataIndex st' = dataIndex demo_state.
Proof.
  apply (orchestrator_results enough_fuel demo_state);
    [vm_compute; reflexivity | lia | vm_compute; discriminate].
Defined.

(** X7: from [setup], any number of ticks runs without an out-of-bounds
    access; the arrays keep their sizes and the write cursor is the number
    of ticks modulo HISTORY_SIZE. *)
Theorem run_never_fails (fuel : nat) (input : nat -> list Z) (n : nat) :
  (forall t, NUM_CHANNELS <= Z.of_nat (length (input t))) ->
  (enough_fuel <= fuel)%nat ->
  exists st,
    run fuel input n setup = Ok st /\
    wf_state st = true /\
    dataIndex st = Z.of_nat n mod HISTORY_SIZE.
Proof.
  intros Hlen Hfuel.
  destruct (run_hist fuel input n Hlen Hfuel) as (st & Hrun & Hwf & Hdi & _).
  by exists st.
Qed.

Lemma run_never_fails_witness :
  exists st,
    run enough_fuel demo_input 60 setup = Ok st /\
    wf_state st = true /\
    dataIndex st = Z.of_nat 60 mod HISTORY_SIZE.
Proof.
  apply (run_never_fails enough_fuel demo_input 60);
    [intros t; simpl; unfold NUM_CHANNELS; lia | lia].
Defined.

(** X8: on a tick whose number is at least 2 modulo HISTORY_SIZE, the
    three distances stored are those of the windows of the W most recent
    voltages of adjacent channels, W = min(20, tick mod HISTORY_SIZE + 1),
    and the last entry is 0.0. *)
Theorem tick_reports_recent_distances
    (fuel : nat) (input : nat -> list Z) (n : nat) :
  (forall t, NUM_CHANNELS <= Z.of_nat (length (input t))) ->
  (enough_fuel <= fuel)%nat ->
  2 <= Z.of_nat n mod HISTORY_SIZE ->
  let W := Z.min 20 (Z.of_nat n mod HISTORY_SIZE + 1) in
  let dist := fun a b =>
    Spec.F (recent input n W a) (recent input n W b)
           (Z.to_nat (W - 1)) (Z.to_nat (W - 1)) in
  exists st st',
    run fuel input n setup = Ok st /\
    tick fuel (input n) st = Ok st' /\
    frechetDistances st' = [dist 0 1; dist 1 2; dist 2 3; F32.zero].
Proof.
  intros Hlen Hfuel Hn W dist.
  destruct (tick_high fuel input n Hlen Hfuel Hn) as (st & st' & Hrun & Htick & Hfd & _).
  by exists st, st'.
Qed.

Lemma tick_reports_recent_distances_witness :
  let W := Z.min 20 (Z.of_nat 57 mod HISTORY_SIZE + 1) in
  let dist := fun a b =>
    Spec.F (recent demo_input 57 W a) (recent demo_input 57 W b)
           (Z.to_nat (W - 1)) (Z.to_nat (W - 1)) in
  exists st st',
    run enough_fuel demo_input 57 setup = Ok st /\
    tick enough_fuel (demo_input 57) st = Ok st' /\
    frechetDistances st' = [dist 0 1; dist 1 2; dist 2 3; F32.zero].
Proof.
  apply (tick_reports_recent_distances enough_fuel demo_input 57);
    [intros t; simpl; unfold NUM_CHANNELS; lia | lia | vm_compute; discriminate].
Defined.

(** X9: when every raw reading is in the range of a converter of at most
    12 bits, no distance the sketch ever stores is a NaN or negative. *)
Theorem distances_never_nan (fuel : nat) (input : nat -> list Z) (n : nat) :
  (forall t, NUM_CHANNELS <= Z.of_nat (length (input t))) ->
  (forall t ch, 0 <= rawOf (input t) ch < 4096) ->
  (enough_fuel <= fuel)%nat ->
  exists st,
    run fuel input n setup = Ok st /\
    forallb F32.nonneg (frechetDistances st) = true.
Proof.
  intros Hlen Hraw Hfuel. destruct n as [|n].
  - by exists setup.
  - cbn [run].
    destruct (Z.lt_ge_cases (Z.of_nat n mod HISTORY_SIZE) 2) as [Hlow|Hhigh].
    + destruct (tick_low fuel input n Hlen Hfuel Hlow) as (st & st' & -> & Htick & Hfd).
      rewrite bind_Ok. exists st'. split; [done|]. by rewrite Hfd.
    + destruct (tick_high fuel input n Hlen Hfuel Hhigh)
        as (st & st' & -> & Htick & Hfd & _).
      rewrite bind_Ok. exists st'. split; [done|]. rewrite Hfd.
      cbn [forallb]. rewrite !andb_true_iff.
      repeat split; try done; apply F_nonneg; apply recent_finite; intros t; apply Hraw.
Qed.

Lemma distances_never_nan_witness :
  exists st,
    run enough_fuel demo_input 60 setup = Ok st /\
    forallb F32.nonneg (frechetDistances st) = true.
Proof.
  apply (distances_never_nan enough_fuel demo_input 60);
    [intros t; simpl; unfold NUM_CHANNELS; lia | | lia].
  intros t ch. unfold rawOf, demo_input.
  pose proof (Z.mod_pos_bound (37 * Z.of_nat t) 1024 eq_refl).
  pose proof (Z.mod_pos_bound (Z.of_nat t) 1024 eq_refl).
  pose proof (Z.mod_pos_bound (Z.of_nat t * Z.of_nat t) 1024 eq_refl).
  destruct (Z.to_nat ch) as [|[|[|[|k]]]]; simpl; lia.
Defined.

(** X10: on arrays of the declared sizes holding finite samples,
    [calculateRMS] reads inside the ring buffer only, and every RMS it
    stores is zero, positive or +infinity, never a NaN. *)
Theorem calculateRMS_nonneg
    (H : Z) (cd : list (list float)) (di : Z) (rms : list float) :
  5 <= H -> wf_grid NUM_CHANNELS H cd = true -> finite_grid cd = true ->
  0 <= di < H -> length rms = Z.to_nat NUM_CHANNELS ->
  exists rms',
    calculateRMS H cd di rms = Ok rms' /\
    length rms' = Z.to_nat NUM_CHANNELS /\
    forallb F32.nonneg rms' = true.
Proof.
  intros HH Hwf Hfin Hdi Hlen. rewrite calculateRMS_spec by done.
  eexists; split; [reflexivity|]. split; [by rewrite length_fmap, length_seqZ|].
  apply forallb_forall. intros x (ch & <- & _)%in_map_iff.
  by apply rmsOf_nonneg, rmsWindow_finite.
Qed.

Lemma calculateRMS_nonneg_witness :
  exists rms',
    calculateRMS 50 (channelData demo_state) (dataIndex demo_state)
      (replicate 4 F32.zero) = Ok rms' /\
    length rms' = Z.to_nat NUM_CHANNELS /\
    forallb F32.nonneg rms' = true.
Proof.
  apply (calculateRMS_nonneg 50 (channelData demo_state) (dataIndex demo_state)
           (replicate 4 F32.zero));
    [lia | vm_compute; reflexivity | vm_compute; reflexivity
    | vm_compute; split; [discriminate | reflexivity] | reflexivity].
Defined.

(** X11: in frechet_space.ino, once tick [n >= 4] has sampled, the RMS of
    each channel is computed from its five most recent voltages, the
    newest first. *)
Theorem calculateRMS_recent
    (fuel : nat) (input : nat -> list Z) (n : nat) (rms : list float) :
  (forall t, NUM_CHANNELS <= Z.of_nat (length (input t))) ->
  (enough_fuel <= fuel)%nat ->
  (4 <= n)%nat -> length rms = Z.to_nat NUM_CHANNELS ->
  exists st st1,
    run fuel input n setup = Ok st /\
    sampleChannels (input n) st = Ok st1 /\
    calculateRMS HISTORY_SIZE (channelData st1) (dataIndex st1) rms
    = Ok (map (fun ch => rmsOf (lastFive input n ch)) (seqZ 0 NUM_CHANNELS)).
Proof.
  intros Hlen Hfuel Hn Hrms.
  destruct (run_hist fuel input n Hlen Hfuel) as (st & Hrun & Hinv).
  destruct (sampleChannels_hist input n st Hinv (Hlen n)) as (st1 & Hs & Hinv1 & _).
  exists st, st1. split; [done|]. split; [done|].
  pose proof Hinv1 as (Hwf1 & _). apply wf_state_spec in Hwf1 as (Hcd & _ & Hdi & _).
  rewrite calculateRMS_spec by (done || (unfold HISTORY_SIZE; lia)).
  f_equal. apply map_ext_in. intros ch Hch%list_elem_of_In%elem_of_seqZ.
  by rewrite (rmsWindow_recent input n st1 ch) by (done || lia).
Qed.

Lemma calculateRMS_recent_witness :
  exists st st1,
    run enough_fuel demo_input 7 setup = Ok st /\
    sampleChannels (demo_input 7) st = Ok st1 /\
    calculateRMS HISTORY_SIZE (channelData st1) (dataIndex st1) (replicate 4 F32.zero)
    = Ok (map (fun ch => rmsOf (lastFive demo_input 7 ch)) (seqZ 0 NUM_CHANNELS)).
Proof.
  apply (calculateRMS_recent enough_fuel demo_input 7 (replicate 4 F32.zero));
    [intros t; simpl; unfold NUM_CHANNELS; lia | lia | lia | reflexivity].
Defined.

(** X12: [loop] samples exactly when at least SAMPLE_RATE_MS milliseconds
    have passed since the last sample, also when [millis()] has wrapped
    around 2^32 in between: if not, samples, results and [lastSample] are
    unchanged; if so, the globals make one [tick] and [lastSample] becomes
    the current time. *)
Theorem loop_timing
    (fuel : nat) (inp : loop_input) (sk : sketch) (elapsed : Z) :
  wf_state (core sk) = true ->
  length (instantRMS sk) = Z.to_nat NUM_CHANNELS ->
  NUM_CHANNELS <= Z.of_nat (length (analog_in inp)) ->
  (enough_fuel <= fuel)%nat ->
  0 <= elapsed < ULONG_RANGE ->
  millis_entry inp = (lastSample sk + elapsed) mod ULONG_RANGE ->
  exists sk' out,
    loop fuel inp sk = Ok (sk', out) /\
    (elapsed < SAMPLE_RATE_MS ->
       core sk' = core sk /\ instantRMS sk' = instantRMS sk /\
       lastSample sk' = lastSample sk) /\
    (SAMPLE_RATE_MS <= elapsed ->
       tick fuel (analog_in inp) (core sk) = Ok (core sk') /\
       lastSample sk' = millis_entry inp).
Proof.
  intros Hwf Hrms Hlen Hfuel He Hnow.
  assert (Hu : usub (millis_entry inp) (lastSample sk) = elapsed)
    by (rewrite Hnow; by apply usub_elapsed).
  destruct (Z.lt_ge_cases elapsed SAMPLE_RATE_MS) as [Hlt|Hge].
  - destruct (loop_not_due fuel inp sk) as (a & out & ->); [lia|].
    eexists _, out. split; [reflexivity|]. split; [done|lia].
  - destruct (loop_due fuel inp sk Hwf Hrms Hlen Hfuel)
      as (st1 & st' & d & a & _ & Htick & _ & _ & ->); [lia|].
    eexists _, _. split; [reflexivity|]. split; [lia|]. done.
Qed.

Lemma loop_timing_witness :
  exists sk' out,
    loop enough_fuel demo_loop_input demo_sketch = Ok (sk', out) /\
    (100 < SAMPLE_RATE_MS ->
       core sk' = core demo_sketch /\ instantRMS sk' = instantRMS demo_sketch /\
       lastSample sk' = lastSample demo_sketch) /\
    (SAMPLE_RATE_MS <= 100 ->
       tick enough_fuel (analog_in demo_loop_input) (core demo_sketch) = Ok (core sk') /\
       lastSample sk' = millis_entry demo_loop_input).
Proof.
  apply (loop_timing enough_fuel demo_loop_input demo_sketch 100);
    [vm_compute; reflexivity | reflexivity | simpl; unfold NUM_CHANNELS; lia | lia
    | unfold ULONG_RANGE; lia | reflexivity].
Defined.

(** X13: on a due iteration at tick [n], the line [loop] sends when
    [autoOutput] holds after the command is the time, a space and, with 6
    digits, the distance of channels 2 and 3 only: that of their W most
    recent voltages, or 0.0 on a tick that is 0 or 1 modulo HISTORY_SIZE.
    An 's' received in the same iteration already decides whether the line
    is sent. *)
Theorem loop_output
    (fuel : nat) (input : nat -> list Z) (n : nat) (inp : loop_input) (sk : sketch) :
  (forall t, NUM_CHANNELS <= Z.of_nat (length (input t))) ->
  (enough_fuel <= fuel)%nat ->
  run fuel input n setup = Ok (core sk) ->
  length (instantRMS sk) = Z.to_nat NUM_CHANNELS ->
  analog_in inp = input n ->
  SAMPLE_RATE_MS <= usub (millis_entry inp) (lastSample sk) ->
  let W := Z.min 20 (Z.of_nat n mod HISTORY_SIZE + 1) in
  let d := if Z.of_nat n mod HISTORY_SIZE <? 2 then F32.zero
           else Spec.F (recent input n W 2) (recent input n W 3)
                       (Z.to_nat (W - 1)) (Z.to_nat (W - 1)) in
  let toggled := match serial_in inp with
                 | Some cmd => Ascii.eqb cmd "s"
                 | None => false
                 end in
  exists sk',
    loop fuel inp sk
    = Ok (sk',
          (if toggled
           then [Print "# Auto output "; Println (if autoOutput sk' then "ON" else "OFF")]
           else []) ++
          (if autoOutput sk'
           then [PrintULong (millis_output inp); Print " "; PrintFloat d 6; Println ""]
           else [])) /\
    autoOutput sk' = xorb toggled (autoOutput sk) /\
    run fuel input (S n) setup = Ok (core sk').
Proof.
  intros Hlen Hfuel Hrun Hrms Hin Hdue W d toggled.
  destruct (run_hist fuel input n Hlen Hfuel) as (st & Hrun' & Hwf & _).
  rewrite Hrun in Hrun'. injection Hrun' as <-.
  destruct (loop_due fuel inp sk Hwf Hrms) as (st1 & st' & d' & a & _ & Htick & Hd' & Ha & ->);
    [rewrite Hin; apply Hlen|done|done|].
  assert (Hd : d' = d).
  { rewrite Hin in Htick. unfold d.
    destruct (Z.ltb_spec (Z.of_nat n mod HISTORY_SIZE) 2) as [Hlow|Hhigh].
    - destruct (tick_low fuel input n Hlen Hfuel Hlow) as (s & s' & Hr & Ht & Hfd).
      rewrite Hrun in Hr. injection Hr as <-. rewrite Htick in Ht. injection Ht as <-.
      rewrite Hfd in Hd'. by injection Hd'.
    - destruct (tick_high fuel input n Hlen Hfuel Hhigh) as (s & s' & Hr & Ht & Hfd & _).
      rewrite Hrun in Hr. injection Hr as <-. rewrite Htick in Ht. injection Ht as <-.
      rewrite Hfd in Hd'. by injection Hd'. }
  subst d'.
  exists (mkSketch st'
            (map (fun ch => rmsOf (rmsWindow HISTORY_SIZE (channelData st1) (dataIndex st1) ch))
                 (seqZ 0 NUM_CHANNELS))
            (millis_entry inp) a).
  split; [|split].
  - cbn [autoOutput]. unfold toggled.
    destruct (serial_in inp) as [cmd|]; [destruct (Ascii.eqb cmd "s")|]; reflexivity.
  - cbn [autoOutput]. rewrite Ha. unfold toggled.
    destruct (serial_in inp) as [cmd|]; [destruct (Ascii.eqb cmd "s")|];
      by destruct (autoOutput sk).
  - cbn [run core]. by rewrite Hrun, bind_Ok, <- Hin.
Qed.

Lemma loop_output_witness :
  let W := Z.min 20 (Z.of_nat 5 mod HISTORY_SIZE + 1) in
  let d := if Z.of_nat 5 mod HISTORY_SIZE <? 2 then F32.zero
           else Spec.F (recent demo_input 5 W 2) (recent demo_input 5 W 3)
                       (Z.to_nat (W - 1)) (Z.to_nat (W - 1)) in
  let toggled := match serial_in demo_loop_input with
                 | Some cmd => Ascii.eqb cmd "s"
                 | None => false
                 end in
  exists sk',
    loop enough_fuel demo_loop_input demo_sketch
    = Ok (sk',
          (if toggled
           then [Print "# Auto output "; Println (if autoOutput sk' then "ON" else "OFF")]
           else []) ++
          (if autoOutput sk'
           then [PrintULong (millis_output demo_loop_input); Print " "; PrintFloat d 6;
                 Println ""]
           else [])) /\
    autoOutput sk' = xorb toggled (autoOutput demo_sketch) /\
    run enough_fuel demo_input (S 5) setup = Ok (core sk').
Proof.
  apply (loop_output enough_fuel demo_input 5 demo_loop_input demo_sketch);
    [intros t; simpl; unfold NUM_CHANNELS; lia | lia | vm_compute; reflexivity
    | reflexivity | reflexivity | vm_compute; discriminate].
Defined.

(** X14: on arrays of the declared sizes [calculateCorrelation] reads
    inside the ring buffer only and never writes the entry of the last
    channel. *)
Theorem calculateCorrelation_safe
    (H : Z) (cd : list (list float)) (di : Z) (corr : list float) :
  10 <= H -> wf_grid NUM_CHANNELS H cd = true -> 0 <= di < H ->
  length corr = Z.to_nat NUM_CHANNELS ->
  exists corr',
    calculateCorrelation H cd di corr = Ok corr' /\
    length corr' = Z.to_nat NUM_CHANNELS /\
    corr' !! 3%nat = corr !! 3%nat.
Proof. intros HH Hcd Hdi Hlen. by apply calculateCorrelation_spec. Qed.

Lemma calculateCorrelation_safe_witness :
  exists corr',
    calculateCorrelation 50 (channelData demo_state) (dataIndex demo_state)
      (replicate 4 F32.zero) = Ok corr' /\
    length corr' = Z.to_nat NUM_CHANNELS /\
    corr' !! 3%nat = replicate 4 F32.zero !! 3%nat.
Proof.
  apply (calculateCorrelation_safe 50 (channelData demo_state) (dataIndex demo_state)
           (replicate 4 F32.zero));
    [lia | vm_compute; reflexivity
    | vm_compute; split; [discriminate | reflexivity] | reflexivity].
Defined.

(** X15: when the ten samples read for one of the two channels of a pair
    are all 0.0 (as before any signal arrives), the variance test fails
    and the correlation of the pair is set to 0.0: no 0/0 is computed. *)
Theorem calculateCorrelation_flat_window
    (H : Z) (cd : list (list float)) (di : Z) (corr : list float) (ch z : Z) :
  10 <= H -> wf_grid NUM_CHANNELS H cd = true -> 0 <= di < H ->
  length corr = Z.to_nat NUM_CHANNELS ->
  0 <= ch < NUM_CHANNELS - 1 ->
  z = ch \/ z = ch + 1 ->
  (forall i, 0 <= i < 10 -> get2 cd z (backIndex H di i) = Ok F32.zero) ->
  exists corr',
    calculateCorrelation H cd di corr = Ok corr' /\
    corr' !! Z.to_nat ch = Some F32.zero.
Proof.
  intros HH Hcd Hdi Hlen Hch Hz Hzero.
  by apply (calculateCorrelation_flat H cd di HH Hcd Hdi corr ch z).
Qed.

Lemma calculateCorrelation_flat_window_witness :
  exists corr',
    calculateCorrelation 20 (gs_channelData (gantt_setup 20)) 0
      (replicate 4 (F32.of_Z 1)) = Ok corr' /\
    corr' !! Z.to_nat 1 = Some F32.zero.
Proof.
  apply (calculateCorrelation_flat_window 20 (gs_channelData (gantt_setup 20)) 0
           (replicate 4 (F32.of_Z 1)) 1 2);
    [lia | vm_compute; reflexivity | lia | reflexivity
    | unfold NUM_CHANNELS; lia | right; reflexivity | ].
  intros i Hi.
  assert (Hc : i = 0 \/ i = 1 \/ i = 2 \/ i = 3 \/ i = 4 \/ i = 5 \/ i = 6 \/
               i = 7 \/ i = 8 \/ i = 9) by lia.
  destruct Hc as [->|[->|[->|[->|[->|[->|[->|[->|[->| ->]]]]]]]]]; reflexivity.
Defined.

(** X16: in the Gantt sketches any number of ticks runs without an
    out-of-bounds access; after [n] ticks the two cursors are [n] modulo
    their capacities, [full] holds exactly from the 20th tick on and the
    number of entries of the chart is min(n, 20). *)
Theorem gantt_cursors (H : Z) (millis : nat -> Z) (input : nat -> list Z) (n : nat) :
  10 <= H ->
  (forall t, NUM_CHANNELS <= Z.of_nat (length (input t))) ->
  exists gs,
    gantt_run H millis input n = Ok gs /\
    gs_dataIndex gs = Z.of_nat n mod H /\
    gantt_index (gs_gantt gs) = Z.of_nat n mod GANTT_HISTORY /\
    gantt_full (gs_gantt gs) = (GANTT_HISTORY <=? Z.of_nat n) /\
    ganttEntries (gs_gantt gs) = Z.min (Z.of_nat n) GANTT_HISTORY.
Proof.
  intros HH Hlen.
  destruct (gantt_run_inv H millis input n HH Hlen) as (gs & Hrun & Hinv).
  pose proof (ganttEntries_min H millis input n gs Hinv) as He.
  destruct Hinv as (_ & Hdi & Hgi & Hfull & _).
  by exists gs.
Qed.

Lemma gantt_cursors_witness :
  exists gs,
    gantt_run 200 demo_millis demo_input 23 = Ok gs /\
    gs_dataIndex gs = Z.of_nat 23 mod 200 /\
    gantt_index (gs_gantt gs) = Z.of_nat 23 mod GANTT_HISTORY /\
    gantt_full (gs_gantt gs) = (GANTT_HISTORY <=? Z.of_nat 23) /\
    ganttEntries (gs_gantt gs) = Z.min (Z.of_nat 23) GANTT_HISTORY.
Proof.
  apply (gantt_cursors 200 demo_millis demo_input 23);
    [lia | intros t; simpl; unfold NUM_CHANNELS; lia].
Defined.

(** X17: after [n] ticks a call of [displayGanttChart] sends the banner
    alone when n < 2; from the second tick on it sends the chart of the
    last min(n, 20) ticks: for every channel whose current RMS is not
    below 0.01, and for no other, a line with one block per tick, in the
    order of the ticks, each computed from the RMS and the correlation
    that tick stored (0.0 as the correlation of the last channel), and
    under the chart the age of every fifth of these ticks.  No index it
    uses leaves the arrays. *)
Theorem displayGanttChart_shows_last_updates
    (H : Z) (millis : nat -> Z) (input : nat -> list Z) (now : Z -> Z) (n : nat) :
  10 <= H ->
  (forall t, NUM_CHANNELS <= Z.of_nat (length (input t))) ->
  exists gs,
    gantt_run H millis input n = Ok gs /\
    displayGanttChart now gs = Ok (expectedChart H millis input now n gs).
Proof.
  intros HH Hlen.
  destruct (gantt_run_inv H millis input n HH Hlen) as (gs & Hrun & Hinv).
  exists gs. split; [done|]. by apply displayGanttChart_spec.
Qed.

Lemma displayGanttChart_shows_last_updates_witness :
  exists gs,
    gantt_run 200 demo_millis demo_input 23 = Ok gs /\
    displayGanttChart (fun _ => 2350) gs
    = Ok (expectedChart 200 demo_millis demo_input (fun _ => 2350) 23 gs).
Proof.
  apply (displayGanttChart_shows_last_updates 200 demo_millis demo_input (fun _ => 2350) 23);
    [lia | intros t; simpl; unfold NUM_CHANNELS; lia].
Defined.

(** X18: in the LED variant the correlation entry of the last channel is
    never written, so it stays 0.0, the last channel never counts as
    aligned and the count of aligned channels is at most 3. *)
Theorem mediumSignalCount_at_most_three
    (H : Z) (millis : nat -> Z) (input : nat -> list Z) (n : nat) :
  10 <= H ->
  (forall t, NUM_CHANNELS <= Z.of_nat (length (input t))) ->
  exists gs count,
    gantt_run H millis input n = Ok gs /\
    gs_correlation gs !! 3%nat = Some F32.zero /\
    mediumSignalCount (gs_instantRMS gs) (gs_correlation gs) = Ok count /\
    0 <= count <= 3.
Proof.
  intros HH Hlen.
  destruct (gantt_run_inv H millis input n HH Hlen)
    as (gs & Hrun & Hwf & _ & _ & _ & H3 & _).
  apply wf_gstate_spec in Hwf as (_ & Hrms & Hcorr & _).
  destruct (mediumSignalCount_bound _ _ Hrms Hcorr H3) as (c & Hc & Hb).
  by exists gs, c.
Qed.

Lemma mediumSignalCount_at_most_three_witness :
  exists gs count,
    gantt_run 20 demo_millis demo_input 23 = Ok gs /\
    gs_correlation gs !! 3%nat = Some F32.zero /\
    mediumSignalCount (gs_instantRMS gs) (gs_correlation gs) = Ok count /\
    0 <= count <= 3.
Proof.
  apply (mediumSignalCount_at_most_three 20 demo_millis demo_input 23);
    [lia | intros t; simpl; unfold NUM_CHANNELS; lia].
Defined.
